(** * bettercap wifi module: capture loop, recon handlers, Configure/Start/Stop

    A shallow embedding of [modules/wifi] ([WiFiModule], its command
    handlers, [Configure], [updateInfo], [updateStats], [Start], [Stop]).

    Go values are modelled as the code has them: [int]/[uint64] as [Z] with
    the wrap-around written out, strings as [string], slices as [list], the
    device registry ([Session.WiFi]) as a finite map from the textual
    hardware address to the station record, a pointer into the registry as
    the key of the record it points to.  Go's multiple return values
    [(value, err)] are pairs whose error component is an [option]. *)

From Stdlib Require Import ZArith Lia Ascii String.
From stdpp Require Import base option list gmap strings fin_maps pretty.

Local Open Scope Z_scope.

(** ** Go primitives *)

(** A Go [error] is observed through its message ([err.Error()]). *)
Definition error := string.

Definition uint64 (z : Z) : Z := z mod 2 ^ 64.

(** [int64] two's complement wrap-around, used by [time.Duration]. *)
Definition int64 (z : Z) : Z := (z + 2 ^ 63) mod 2 ^ 64 - 2 ^ 63.

(** [len] of a slice, as a Go [int]. *)
Definition len {A} (l : list A) : Z := Z.of_nat (length l).

(** ** package net *)
Module net.

(** [net.HardwareAddr] is a byte slice. *)
Definition HardwareAddr := list Z.

Definition hexDigit (n : Z) : ascii :=
  default "0"%char (list_ascii_of_string "0123456789abcdef" !! Z.to_nat n).

Fixpoint hexPairs (first : bool) (a : HardwareAddr) : string :=
  match a with
  | [] => EmptyString
  | b :: rest =>
      let pair :=
        String (hexDigit (Z.shiftr b 4))
               (String (hexDigit (Z.land b 15)) (hexPairs false rest)) in
      if first then pair else String ":"%char pair
  end.

(** [HardwareAddr.String]: lower-case hex bytes separated by colons. *)
Definition String_ (a : HardwareAddr) : string := hexPairs true a.

End net.

(** ** package layers (gopacket): the decoded link-layer fields *)
Module layers.

Record RadioTap := mkRadioTap {
  DBMAntennaSignal : Z;
  ChannelFrequency : Z
}.

(** [Dot11Type] is a [uint8]; its two low bits are the main type. *)
Definition Dot11TypeMgmt : Z := 0.
Definition Dot11TypeCtrl : Z := 1.
Definition Dot11TypeData : Z := 2.
Definition Dot11TypeReserved : Z := 3.
Definition dot11TypeMask : Z := 3.

Definition MainType (t : Z) : Z := Z.land t dot11TypeMask.

Record Dot11 := mkDot11 {
  Type_ : Z;
  Address1 : net.HardwareAddr;
  Address2 : net.HardwareAddr;
  Address3 : net.HardwareAddr;
  Checksum : Z
}.

End layers.

(** ** package gopacket *)
Module gopacket.

(** A captured packet: its raw bytes and the layers gopacket decoded. *)
Record Packet := mkPacket {
  Data : list Z;
  radiotapLayer : option layers.RadioTap;
  dot11Layer : option layers.Dot11
}.

End gopacket.

(** ** package network: the registry record of an access point *)
Module network.

Record AccessPoint := mkAccessPoint {
  Encryption : string;
  Cipher : string;
  Authentication : string;
  WPS : gmap string string;
  Received : Z;
  Sent : Z;
  Channel : Z
}.

Definition withEncryption (enc cipher auth : string) (st : AccessPoint) :=
  {| Encryption := enc; Cipher := cipher; Authentication := auth;
     WPS := WPS st; Received := Received st; Sent := Sent st;
     Channel := Channel st |}.

Definition withWPS (w : gmap string string) (st : AccessPoint) :=
  {| Encryption := Encryption st; Cipher := Cipher st;
     Authentication := Authentication st;
     WPS := w; Received := Received st; Sent := Sent st;
     Channel := Channel st |}.

Definition withReceived (n : Z) (st : AccessPoint) :=
  {| Encryption := Encryption st; Cipher := Cipher st;
     Authentication := Authentication st;
     WPS := WPS st; Received := n; Sent := Sent st;
     Channel := Channel st |}.

Definition withSent (n : Z) (st : AccessPoint) :=
  {| Encryption := Encryption st; Cipher := Cipher st;
     Authentication := Authentication st;
     WPS := WPS st; Received := Received st; Sent := n;
     Channel := Channel st |}.

End network.

(** ** package session: what the capture loop shares with the rest *)
Module session.

(** [WiFi] is the device registry ([Session.WiFi.Get] is the lookup),
    [Queue] the global traffic counter, [Handshakes] the frames appended
    to the handshake capture artifact. *)
Record Session := mkSession {
  WiFi : gmap string network.AccessPoint;
  Queue : Z;
  Handshakes : list gopacket.Packet
}.

Definition withWiFi (w : gmap string network.AccessPoint) (s : Session) :=
  {| WiFi := w; Queue := Queue s; Handshakes := Handshakes s |}.

(** Modelled from the spec: [Queue.TrackPacket] is not part of the module
    source; the spec says every accepted frame increments a global
    traffic counter by its byte count. *)
Definition TrackPacket (size : Z) (s : Session) : Session :=
  {| WiFi := WiFi s; Queue := uint64 (Queue s + size);
     Handshakes := Handshakes s |}.

End session.

Import net layers gopacket network session.

Module network_registry.

(** [WiFi.Get]: the record stored under a hardware address, if any. *)
Definition Get (w : gmap string AccessPoint) (mac : string)
  : option AccessPoint := w !! mac.

End network_registry.

(** ** The module value *)

(** [pcap.Handle]s and inactive handles are named by numbers. *)
Definition Handle := nat.
Definition InactiveHandle := nat.

(** The fields of [WiFiModule] that the functions below read or write.
    [Started] is the running flag of the embedded [SessionModule];
    [writes] and [reads] are the counters of the two wait groups;
    [pktSourceChan] names the handle whose packet source feeds the channel;
    [ap] is the registry key of the access point the pointer refers to.
    [hoppers], [pruners] and [loops] count the goroutines the module has
    launched (channel hopper, station pruner, capture loop). *)
Record WiFiModule := mkWiFiModule {
  Started : bool;
  handle : option Handle;
  source : string;
  minRSSI : Z;
  channel : Z;
  hopPeriod : Z;
  frequencies : list Z;
  ap : option string;
  stickChan : Z;
  skipBroken : bool;
  pktSourceChan : option Handle;
  pktSourceChanClosed : bool;
  shakesFile : string;
  apRunning : bool;
  writes : nat;
  reads : nat;
  hoppers : nat;
  pruners : nat;
  loops : nat
}.

Definition Running (m : WiFiModule) : bool := Started m.

(** Field assignments [mod.f = v]. *)
Definition set_Started (v : bool) (m : WiFiModule) : WiFiModule :=
  mkWiFiModule v (handle m) (source m) (minRSSI m) (channel m) (hopPeriod m)
    (frequencies m) (ap m) (stickChan m) (skipBroken m) (pktSourceChan m)
    (pktSourceChanClosed m) (shakesFile m) (apRunning m) (writes m) (reads
    m) (hoppers m) (pruners m) (loops m).

Definition set_handle (v : option Handle) (m : WiFiModule) : WiFiModule :=
  mkWiFiModule (Started m) v (source m) (minRSSI m) (channel m) (hopPeriod
    m) (frequencies m) (ap m) (stickChan m) (skipBroken m) (pktSourceChan m)
    (pktSourceChanClosed m) (shakesFile m) (apRunning m) (writes m) (reads
    m) (hoppers m) (pruners m) (loops m).

Definition set_source (v : string) (m : WiFiModule) : WiFiModule :=
  mkWiFiModule (Started m) (handle m) v (minRSSI m) (channel m) (hopPeriod
    m) (frequencies m) (ap m) (stickChan m) (skipBroken m) (pktSourceChan m)
    (pktSourceChanClosed m) (shakesFile m) (apRunning m) (writes m) (reads
    m) (hoppers m) (pruners m) (loops m).

Definition set_minRSSI (v : Z) (m : WiFiModule) : WiFiModule :=
  mkWiFiModule (Started m) (handle m) (source m) v (channel m) (hopPeriod m)
    (frequencies m) (ap m) (stickChan m) (skipBroken m) (pktSourceChan m)
    (pktSourceChanClosed m) (shakesFile m) (apRunning m) (writes m) (reads
    m) (hoppers m) (pruners m) (loops m).

Definition set_hopPeriod (v : Z) (m : WiFiModule) : WiFiModule :=
  mkWiFiModule (Started m) (handle m) (source m) (minRSSI m) (channel m) v
    (frequencies m) (ap m) (stickChan m) (skipBroken m) (pktSourceChan m)
    (pktSourceChanClosed m) (shakesFile m) (apRunning m) (writes m) (reads
    m) (hoppers m) (pruners m) (loops m).

Definition set_frequencies (v : list Z) (m : WiFiModule) : WiFiModule :=
  mkWiFiModule (Started m) (handle m) (source m) (minRSSI m) (channel m)
    (hopPeriod m) v (ap m) (stickChan m) (skipBroken m) (pktSourceChan m)
    (pktSourceChanClosed m) (shakesFile m) (apRunning m) (writes m) (reads
    m) (hoppers m) (pruners m) (loops m).

Definition set_ap (v : option string) (m : WiFiModule) : WiFiModule :=
  mkWiFiModule (Started m) (handle m) (source m) (minRSSI m) (channel m)
    (hopPeriod m) (frequencies m) v (stickChan m) (skipBroken m)
    (pktSourceChan m) (pktSourceChanClosed m) (shakesFile m) (apRunning m)
    (writes m) (reads m) (hoppers m) (pruners m) (loops m).

Definition set_stickChan (v : Z) (m : WiFiModule) : WiFiModule :=
  mkWiFiModule (Started m) (handle m) (source m) (minRSSI m) (channel m)
    (hopPeriod m) (frequencies m) (ap m) v (skipBroken m) (pktSourceChan m)
    (pktSourceChanClosed m) (shakesFile m) (apRunning m) (writes m) (reads
    m) (hoppers m) (pruners m) (loops m).

Definition set_skipBroken (v : bool) (m : WiFiModule) : WiFiModule :=
  mkWiFiModule (Started m) (handle m) (source m) (minRSSI m) (channel m)
    (hopPeriod m) (frequencies m) (ap m) (stickChan m) v (pktSourceChan m)
    (pktSourceChanClosed m) (shakesFile m) (apRunning m) (writes m) (reads
    m) (hoppers m) (pruners m) (loops m).

Definition set_pktSourceChan (v : option Handle) (m : WiFiModule) : WiFiModule :=
  mkWiFiModule (Started m) (handle m) (source m) (minRSSI m) (channel m)
    (hopPeriod m) (frequencies m) (ap m) (stickChan m) (skipBroken m) v
    (pktSourceChanClosed m) (shakesFile m) (apRunning m) (writes m) (reads
    m) (hoppers m) (pruners m) (loops m).

Definition set_pktSourceChanClosed (v : bool) (m : WiFiModule) : WiFiModule :=
  mkWiFiModule (Started m) (handle m) (source m) (minRSSI m) (channel m)
    (hopPeriod m) (frequencies m) (ap m) (stickChan m) (skipBroken m)
    (pktSourceChan m) v (shakesFile m) (apRunning m) (writes m) (reads m)
    (hoppers m) (pruners m) (loops m).

Definition set_shakesFile (v : string) (m : WiFiModule) : WiFiModule :=
  mkWiFiModule (Started m) (handle m) (source m) (minRSSI m) (channel m)
    (hopPeriod m) (frequencies m) (ap m) (stickChan m) (skipBroken m)
    (pktSourceChan m) (pktSourceChanClosed m) v (apRunning m) (writes m)
    (reads m) (hoppers m) (pruners m) (loops m).

Definition set_reads (v : nat) (m : WiFiModule) : WiFiModule :=
  mkWiFiModule (Started m) (handle m) (source m) (minRSSI m) (channel m)
    (hopPeriod m) (frequencies m) (ap m) (stickChan m) (skipBroken m)
    (pktSourceChan m) (pktSourceChanClosed m) (shakesFile m) (apRunning m)
    (writes m) v (hoppers m) (pruners m) (loops m).

Definition set_writes (v : nat) (m : WiFiModule) : WiFiModule :=
  mkWiFiModule (Started m) (handle m) (source m) (minRSSI m) (channel m)
    (hopPeriod m) (frequencies m) (ap m) (stickChan m) (skipBroken m)
    (pktSourceChan m) (pktSourceChanClosed m) (shakesFile m) (apRunning m)
    v (reads m) (hoppers m) (pruners m) (loops m).

Definition set_hoppers (v : nat) (m : WiFiModule) : WiFiModule :=
  mkWiFiModule (Started m) (handle m) (source m) (minRSSI m) (channel m)
    (hopPeriod m) (frequencies m) (ap m) (stickChan m) (skipBroken m)
    (pktSourceChan m) (pktSourceChanClosed m) (shakesFile m) (apRunning m)
    (writes m) (reads m) v (pruners m) (loops m).

Definition set_pruners (v : nat) (m : WiFiModule) : WiFiModule :=
  mkWiFiModule (Started m) (handle m) (source m) (minRSSI m) (channel m)
    (hopPeriod m) (frequencies m) (ap m) (stickChan m) (skipBroken m)
    (pktSourceChan m) (pktSourceChanClosed m) (shakesFile m) (apRunning m)
    (writes m) (reads m) (hoppers m) v (loops m).

Definition set_loops (v : nat) (m : WiFiModule) : WiFiModule :=
  mkWiFiModule (Started m) (handle m) (source m) (minRSSI m) (channel m)
    (hopPeriod m) (frequencies m) (ap m) (stickChan m) (skipBroken m)
    (pktSourceChan m) (pktSourceChanClosed m) (shakesFile m) (apRunning m)
    (writes m) (reads m) (hoppers m) (pruners m) v.

(** ** External collaborators of the capture loop *)

(** The frame decoder ([packets.Dot11Parse] and friends, and gopacket's
    [Dot11.ChecksumValid]); Go's leading [ok] result is the [option]. *)
Class Decoder := {
  Dot11Parse : Packet -> option (RadioTap * Dot11);
  ChecksumValid : Dot11 -> bool;
  Dot11ParseEncryption : Packet -> Dot11 -> option (string * string * string);
  Dot11ParseWPS : Packet -> Dot11 -> option (HardwareAddr * gmap string string)
}.

(** The classification stages defined in sibling files of the package. *)
Class Discovery := {
  discoverProbes : WiFiModule -> RadioTap -> Dot11 -> Packet -> Session -> Session;
  discoverAccessPoints : WiFiModule -> RadioTap -> Dot11 -> Packet -> Session -> Session;
  discoverClients : WiFiModule -> RadioTap -> Dot11 -> Packet -> Session -> Session;
  discoverHandshakes : WiFiModule -> RadioTap -> Dot11 -> Packet -> Session -> Session
}.

(** ** updateInfo *)

Definition updateInfo `{Decoder} (dot11 : Dot11) (packet : Packet)
    (s : Session) : Session :=
  let s1 :=
    match Dot11ParseEncryption packet dot11 with
    | Some (enc, cipher, auth) =>
        let bssid := net.String_ (Address3 dot11) in
        match network_registry.Get (WiFi s) bssid with
        | Some station =>
            withWiFi (<[bssid := withEncryption enc cipher auth station]> (WiFi s)) s
        | None => s
        end
    | None => s
    end in
  match Dot11ParseWPS packet dot11 with
  | Some (bssid, info) =>
      let key := net.String_ bssid in
      match network_registry.Get (WiFi s1) key with
      | Some station =>
          withWiFi (<[key := withWPS (info ∪ WPS station) station]> (WiFi s1)) s1
      | None => s1
      end
  | None => s1
  end.

(** ** updateStats *)

Definition updateStats (dot11 : Dot11) (packet : Packet) (s : Session)
    : Session :=
  if MainType (Type_ dot11) =? Dot11TypeData then
    let bytes := uint64 (len (Data packet)) in
    let dst := net.String_ (Address1 dot11) in
    let s1 :=
      match network_registry.Get (WiFi s) dst with
      | Some station =>
          withWiFi (<[dst := withReceived (uint64 (Received station + bytes)) station]> (WiFi s)) s
      | None => s
      end in
    let src := net.String_ (Address2 dot11) in
    match network_registry.Get (WiFi s1) src with
    | Some station =>
        withWiFi (<[src := withSent (uint64 (Sent station + bytes)) station]> (WiFi s1)) s1
    | None => s1
    end
  else s.

(** ** The capture loop of [Start] *)

(** The body of the [for packet := range mod.pktSourceChan] loop for a
    non-nil packet received while the module is running. *)
Definition onPacket `{Decoder} `{Discovery} (m : WiFiModule) (packet : Packet)
    (s : Session) : Session :=
  let s := TrackPacket (uint64 (len (Data packet))) s in
  match Dot11Parse packet with
  | Some (radiotap, dot11) =>
      if skipBroken m && negb (ChecksumValid dot11) then s
      else
        let s := discoverProbes m radiotap dot11 packet s in
        let s := discoverAccessPoints m radiotap dot11 packet s in
        let s := discoverClients m radiotap dot11 packet s in
        let s := discoverHandshakes m radiotap dot11 packet s in
        let s := updateInfo dot11 packet s in
        updateStats dot11 packet s
  | None => s
  end.

(** How the loop ended: by [break] or because the channel was closed. *)
Inductive LoopExit := Break | Exhausted.

(** What the loop receives: each item of the channel ([None] is a nil
    packet) together with the value [mod.Running()] has when the loop
    body tests it for that item.  The result is how the loop ended, the
    items it left in the channel, and the session. *)
Fixpoint captureLoop `{Decoder} `{Discovery} (m : WiFiModule)
    (rx : list (bool * option Packet)) (s : Session)
    : LoopExit * list (bool * option Packet) * Session :=
  match rx with
  | [] => (Exhausted, [], s)
  | (running, packet) :: rest =>
      if negb running then (Break, rest, s)
      else match packet with
           | None => captureLoop m rest s
           | Some p => captureLoop m rest (onPacket m p s)
           end
  end.

(** ** NewWiFiModule *)

Definition NewWiFiModule : WiFiModule :=
  {| Started := false;
     handle := None;
     source := "";
     minRSSI := -200;
     channel := 0;
     hopPeriod := 250 * 1000000;
     frequencies := [];
     ap := None;
     stickChan := 0;
     skipBroken := true;
     pktSourceChan := None;
     pktSourceChanClosed := false;
     shakesFile := "";
     apRunning := false;
     writes := 0%nat;
     reads := 0%nat;
     hoppers := 0%nat;
     pruners := 0%nat;
     loops := 0%nat |}.

(** ** What the handlers and [Configure] call outside the module *)

(** Library functions: [str.Comma], [strconv.Atoi], [net.ParseMAC],
    [network.Dot11Chan2Freq], [tui.Bold].  A result whose value is dropped
    when the error is set is a sum. *)
Class Lib := {
  Comma : string -> list string;
  Atoi : string -> error + Z;
  ParseMAC : string -> error + HardwareAddr;
  Dot11Chan2Freq : Z -> Z;
  Bold : string -> string
}.

(** The parameter store, the file system, pcap and the network interface,
    as one start of the module sees them.  The calls made inside the
    activation loop of [Configure] are indexed by the value of [retry] in
    the iteration that makes them, so the interface may answer the second
    iteration differently from the first. *)
Class Env := {
  StringParam : string -> option error * string;
  IntParam : string -> option error * Z;
  BoolParam : string -> option error * bool;
  InterfaceName : string;
  Expand : string -> string * option error;
  OpenOffline : string -> option Handle * option error;
  NewInactiveHandle : Z -> string -> error + InactiveHandle;
  SetRFMon : Z -> InactiveHandle -> bool -> option error;
  SetSnapLen : Z -> InactiveHandle -> Z -> option error;
  SetTimeout : Z -> InactiveHandle -> Z -> option error;
  Activate : Z -> InactiveHandle -> option Handle * option error;
  ActivateInterface : string -> option error;
  GetSupportedFrequencies : string -> list Z * option error;
  SetInterfaceChannel : string -> Z -> option error
}.

(** ** Command handlers *)

(** How a handler invocation ends: it returns its error result, or it
    never returns because it is blocked on a channel send. *)
Inductive Outcome := Returned (err : option error) | Blocked.

(** Modelled from the spec: [hopChanges] is an unbuffered channel whose
    only receiver, the channel hopper, is not part of the module source;
    the spec says the scheduler observes the signal between dwell ticks.
    A send [mod.hopChanges <- true] completes when a hopper is there to
    receive it and blocks the sender otherwise. *)
Definition sendHopChanges (m : WiFiModule) (after : Outcome) : Outcome :=
  if (0 <? hoppers m)%nat then after else Blocked.

(** The [for _, s := range str.Comma(args[0])] loop of the
    [wifi.recon.channel] handler; [inl] is the early [return err]. *)
Fixpoint parseChannels `{Lib} (parts : list string) (freqs : list Z)
    : error + list Z :=
  match parts with
  | [] => inr freqs
  | s :: rest =>
      match Atoi s with
      | inl err => inl err
      | inr ch =>
          let f := Dot11Chan2Freq ch in
          if f =? 0 then inl (pretty ch +:+ " is not a valid wifi channel.")
          else parseChannels rest (freqs ++ [f])
      end
  end.

(** Handler of [wifi.recon.channel]. *)
Definition reconChannelHandler `{Lib} `{Env} (arg : string) (m : WiFiModule)
    : Outcome * WiFiModule :=
  let parsed :=
    if bool_decide (arg ≠ "clear") then parseChannels (Comma arg) []
    else inr [] in
  match parsed with
  | inl err => (Returned (Some err), m)
  | inr freqs =>
      let resolved :=
        if len freqs =? 0 then
          match GetSupportedFrequencies InterfaceName with
          | (_, Some err) => inl err
          | (all, None) => inr all
          end
        else inr freqs in
      match resolved with
      | inl err => (Returned (Some err), m)
      | inr freqs =>
          let m := set_frequencies freqs m in
          if Running m then (sendHopChanges m (Returned None), m)
          else (Returned None, m)
      end
  end.

(** Handler of [wifi.recon MAC]. *)
Definition reconMACHandler `{Lib} (arg : string) (s : Session)
    (m : WiFiModule) : Outcome * WiFiModule :=
  match ParseMAC arg with
  | inl err => (Returned (Some err), m)
  | inr bssid =>
      match network_registry.Get (WiFi s) (net.String_ bssid) with
      | Some station =>
          let m := set_ap (Some (net.String_ bssid)) m in
          let m := set_stickChan (Channel station) m in
          (Returned None, m)
      | None =>
          (Returned (Some ("Could not find station with BSSID " +:+ arg)), m)
      end
  end.

(** Handler of [wifi.recon clear]. *)
Definition reconClearHandler `{Env} (m : WiFiModule) : Outcome * WiFiModule :=
  let m := set_ap None m in
  let m := set_stickChan 0 m in
  let '(freqs, err) := GetSupportedFrequencies InterfaceName in
  let m := set_frequencies freqs m in
  (sendHopChanges m (Returned err), m).

(** ** Configure *)

(** The calls [Configure] makes on pcap and on the network interface, in
    the order it makes them. *)
Inductive Event :=
| EvOpenOffline (file : string)
| EvNewInactiveHandle (iface : string)
| EvSetRFMon (ih : InactiveHandle) (on : bool)
| EvSetSnapLen (ih : InactiveHandle) (n : Z)
| EvSetTimeout (ih : InactiveHandle) (d : Z)
| EvActivate (ih : InactiveHandle)
| EvActivateInterface (iface : string)
| EvGetSupportedFrequencies (iface : string)
| EvSetInterfaceChannel (iface : string) (ch : Z)
| EvCleanUp (ih : InactiveHandle).

(** The state [Configure] threads: the module, the calls made so far
    (oldest first) and the stack of deferred [CleanUp]s. *)
Record CfgState := mkCfgState {
  cfgMod : WiFiModule;
  cfgLog : list Event;
  cfgDeferred : list InactiveHandle
}.

(** A computation that may assign fields, call out, and return early with
    an error ([inl]). *)
Definition Cfg (A : Type) : Type := CfgState -> (error + A) * CfgState.

Definition cfgRet {A} (a : A) : Cfg A := fun st => (inr a, st).

Definition cfgBind {A B} (c : Cfg A) (k : A -> Cfg B) : Cfg B :=
  fun st =>
    match c st with
    | (inl err, st') => (inl err, st')
    | (inr a, st') => k a st'
    end.

(** [return err] *)
Definition cfgFail {A} (err : error) : Cfg A := fun st => (inl err, st).

(** [if err != nil { return wrap(err) }] *)
Definition cfgCheck (err : option error) (wrap : error -> error) : Cfg unit :=
  match err with
  | Some e => cfgFail (wrap e)
  | None => cfgRet tt
  end.

Definition cfgAssign (f : WiFiModule -> WiFiModule) : Cfg unit :=
  fun st => (inr tt, mkCfgState (f (cfgMod st)) (cfgLog st) (cfgDeferred st)).

Definition cfgRead {A} (f : WiFiModule -> A) : Cfg A :=
  fun st => (inr (f (cfgMod st)), st).

Definition cfgCall (ev : Event) : Cfg unit :=
  fun st => (inr tt, mkCfgState (cfgMod st) (cfgLog st ++ [ev]) (cfgDeferred st)).

(** [defer ihandle.CleanUp()] *)
Definition cfgDefer (ih : InactiveHandle) : Cfg unit :=
  fun st => (inr tt, mkCfgState (cfgMod st) (cfgLog st) (ih :: cfgDeferred st)).

Notation "x <- c ;; k" := (cfgBind c (fun x => k))
  (at level 100, c at next level, right associativity).
Notation "c ;;; k" := (cfgBind c (fun _ => k))
  (at level 100, right associativity).

Definition ErrIfaceNotUp : string := "Interface Not Up".

(** [500 * time.Millisecond], in nanoseconds. *)
Definition readTimeout : Z := 500 * 1000000.

(** One iteration of [for retry := 0; ; retry++]: [inr true] is
    [continue], [inr false] is [break], [inl] is a [return]. *)
Definition activateOnce `{Lib} `{Env} (ifName : string) (retry : Z) : Cfg bool :=
  cfgCall (EvNewInactiveHandle ifName) ;;;
  match NewInactiveHandle retry ifName with
  | inl err => cfgFail ("error while opening interface " +:+ ifName +:+ ": " +:+ err)
  | inr ihandle =>
      cfgDefer ihandle ;;;
      cfgCall (EvSetRFMon ihandle true) ;;;
      cfgCheck (SetRFMon retry ihandle true)
        (fun err => "error while setting interface " +:+ Bold ifName
                      +:+ " in monitor mode: " +:+ err) ;;;
      cfgCall (EvSetSnapLen ihandle 65536) ;;;
      cfgCheck (SetSnapLen retry ihandle 65536)
        (fun err => "error while settng span len: " +:+ err) ;;;
      cfgCall (EvSetTimeout ihandle readTimeout) ;;;
      cfgCheck (SetTimeout retry ihandle readTimeout)
        (fun err => "error while setting timeout: " +:+ err) ;;;
      cfgCall (EvActivate ihandle) ;;;
      let '(h, err) := Activate retry ihandle in
      cfgAssign (set_handle h) ;;;
      match err with
      | Some e =>
          if (retry =? 0) && bool_decide (e = ErrIfaceNotUp) then
            cfgCall (EvActivateInterface ifName) ;;;
            cfgCheck (ActivateInterface ifName) (fun err => err) ;;;
            cfgRet true
          else cfgFail ("error while activating handle: " +:+ e)
      | None => cfgRet false
      end
  end.

(** The loop itself.  [fuel] bounds the iterations of the model; [None]
    means the bound was reached with the loop still going. *)
Fixpoint activateLoop `{Lib} `{Env} (fuel : nat) (ifName : string) (retry : Z)
    : CfgState -> option ((error + unit) * CfgState) :=
  fun st =>
    match fuel with
    | O => None
    | S fuel' =>
        match activateOnce ifName retry st with
        | (inl err, st') => Some (inl err, st')
        | (inr false, st') => Some (inr tt, st')
        | (inr true, st') => activateLoop fuel' ifName (retry + 1) st'
        end
    end.

(** The loop never needs more than two iterations (see [activateLoop_two]
    below), so [Configure] runs it with that bound. *)
Definition activateLive `{Lib} `{Env} (ifName : string) : Cfg unit :=
  fun st =>
    match activateLoop 2 ifName 0 st with
    | Some r => r
    | None => (inl "activation loop did not finish", st)
    end.

(** Lines 371-385: the parameters read before the handle is opened. *)
Definition configureParams `{Env} : Cfg unit :=
  let '(err, v) := StringParam "wifi.source.file" in
  cfgAssign (set_source v) ;;;
  cfgCheck err id ;;;
  let '(err, v) := StringParam "wifi.handshakes.file" in
  cfgAssign (set_shakesFile v) ;;;
  cfgCheck err id ;;;
  (if bool_decide (v ≠ "") then
     let '(v, err) := Expand v in
     cfgAssign (set_shakesFile v) ;;;
     cfgCheck err id
   else cfgRet tt) ;;;
  let '(err, v) := IntParam "wifi.rssi.min" in
  cfgAssign (set_minRSSI v) ;;;
  cfgCheck err id.

(** Lines 389-426: the replay file is opened, or the interface activated. *)
Definition configureHandle `{Lib} `{Env} (ifName : string) : Cfg unit :=
  src <- cfgRead source ;;
  if bool_decide (src ≠ "") then
    cfgCall (EvOpenOffline src) ;;;
    let '(h, err) := OpenOffline src in
    cfgAssign (set_handle h) ;;;
    cfgCheck err (fun err => "error while opening file " +:+ src +:+ ": " +:+ err)
  else activateLive ifName.

(** Lines 428-452: the remaining parameters and the channel set. *)
Definition configureHopping `{Env} (ifName : string) : Cfg unit :=
  let '(err, v) := BoolParam "wifi.skip-broken" in
  cfgAssign (set_skipBroken v) ;;;
  cfgCheck err id ;;;
  let '(err, hopPeriod) := IntParam "wifi.hop.period" in
  cfgCheck err id ;;;
  cfgAssign (set_hopPeriod (int64 (int64 hopPeriod * 1000000))) ;;;
  src <- cfgRead source ;;
  freqs <- cfgRead frequencies ;;
  if bool_decide (src = "") && (len freqs =? 0) then
    cfgCall (EvGetSupportedFrequencies ifName) ;;;
    let '(fs, err) := GetSupportedFrequencies ifName in
    cfgAssign (set_frequencies fs) ;;;
    cfgCheck err (fun err => "error while getting supported frequencies of "
                               +:+ ifName +:+ ": " +:+ err) ;;;
    cfgCall (EvSetInterfaceChannel ifName 1) ;;;
    cfgCheck (SetInterfaceChannel ifName 1)
      (fun err => "error while initializing " +:+ ifName +:+ " to channel 1: " +:+ err)
  else cfgRet tt.

Definition ConfigureBody `{Lib} `{Env} : Cfg unit :=
  configureParams ;;;
  let ifName := InterfaceName in
  configureHandle ifName ;;;
  configureHopping ifName.

(** The deferred [CleanUp] calls run when [Configure] returns, last
    deferred first. *)
Definition runDeferred (st : CfgState) : CfgState :=
  mkCfgState (cfgMod st) (cfgLog st ++ (EvCleanUp <$> cfgDeferred st)) [].

(** [Configure]: the returned error, the module and the calls made. *)
Definition Configure `{Lib} `{Env} (m : WiFiModule)
    : option error * WiFiModule * list Event :=
  let '(r, st) := ConfigureBody (mkCfgState m [] []) in
  let st := runDeferred st in
  (match r with inl err => Some err | inr _ => None end, cfgMod st, cfgLog st).

(** ** Start *)

(** Modelled from the spec: [SessionModule.SetRunning] is not part of the
    module source.  The spec describes a shared running flag, a dedicated
    task for the capture loop, and a [Stop] that waits for its teardown:
    [SetRunning] stores the flag and then runs the callback, in a task of
    its own when starting and in the caller when stopping.  [cb] is what the
    callback has done to the module when [SetRunning] hands control back. *)
Definition SetRunning (running : bool) (cb : WiFiModule -> WiFiModule)
    (m : WiFiModule) : option error * WiFiModule :=
  (None, cb (set_Started running m)).

(** The worker of [Start] up to the point where it waits for its first
    packet: the hopper and the pruner are launched, the loop registers in
    [reads] and takes the channel of a new packet source on the handle. *)
Definition workerBegin (m : WiFiModule) : WiFiModule :=
  let m :=
    if (channel m =? 0) && bool_decide (source m = "")
    then set_hoppers (S (hoppers m)) m else m in
  let m := set_pruners (S (pruners m)) m in
  let m := set_reads (S (reads m)) m in
  let m := set_loops (S (loops m)) m in
  set_pktSourceChan (handle m) m.

(** The worker once the loop is over: the closed flag is set, and the
    deferred [reads.Done()] runs. *)
Definition workerEnd (m : WiFiModule) : WiFiModule :=
  let m := set_pktSourceChanClosed true m in
  let m := set_loops (pred (loops m)) m in
  set_reads (pred (reads m)) m.

(** The whole worker on the items its channel delivers. *)
Definition worker `{Decoder} `{Discovery} (m : WiFiModule)
    (rx : list (bool * option Packet)) (s : Session)
    : LoopExit * list (bool * option Packet) * WiFiModule * Session :=
  let m := workerBegin m in
  let '(exit, rest, s) := captureLoop m rx s in
  (exit, rest, workerEnd m, s).

Definition Start `{Lib} `{Env} (m : WiFiModule)
    : option error * WiFiModule * list Event :=
  match Configure m with
  | (Some err, m, log) => (Some err, m, log)
  | (None, m, log) =>
      let '(_, m) := SetRunning true workerBegin m in
      (None, m, log)
  end.

(** A history of [wifi.recon on] commands, each issued in an environment
    of its own, applied to a module. *)
Definition runStarts `{Lib} (envs : list Env) (m : WiFiModule) : WiFiModule :=
  foldl (fun m E => (Start m).1.2) m envs.

(** ** Stop *)

(** [Stop] runs beside the capture loop, the packet source and the
    sequencers, so the process is a machine in which one of them takes one
    step at a time; a step that waits is not enabled until its condition
    holds.  The state is the module, the channel [mod.pktSourceChan]
    refers to (the items queued in it, its buffer taken as large enough,
    and whether the packet source has closed it), the session the loop
    works on, the handles closed so far, and where [Stop] is in its
    code. *)
Inductive StopPc :=
| PcSetRunning | PcWaitWrites | PcSignal | PcWaitReads | PcClose
| PcReturned | PcPanicked.

Record Sys := mkSys {
  sysMod : WiFiModule;
  sysChan : list (option Packet);
  sysChanClosed : bool;
  sysSession : Session;
  sysClosed : list Handle;
  sysPc : StopPc
}.

Inductive StopEvent :=
| StFlagCleared
| StWritesDrained
| StSentinel
| StNoSentinel
| StReadsDrained
| StClosed (h : Handle)
| StPanic.

(** One step of [Stop]: [SetRunning(false, ...)] clears the flag, then the
    callback runs [writes.Wait()], the guarded [pktSourceChan <- nil],
    [reads.Wait()] and [handle.Close()]; after that [Stop] has returned.
    A send on a nil channel never proceeds, a send on a closed channel
    panics, and so does [Close] on a nil handle. *)
Definition stopStep (s : Sys) : option (StopEvent * Sys) :=
  let m := sysMod s in
  let goto pc :=
    mkSys m (sysChan s) (sysChanClosed s) (sysSession s) (sysClosed s) pc in
  match sysPc s with
  | PcSetRunning =>
      Some (StFlagCleared,
            mkSys (set_Started false m) (sysChan s) (sysChanClosed s)
              (sysSession s) (sysClosed s) PcWaitWrites)
  | PcWaitWrites =>
      if (writes m =? 0)%nat then Some (StWritesDrained, goto PcSignal)
      else None
  | PcSignal =>
      if negb (pktSourceChanClosed m) then
        match pktSourceChan m with
        | None => None
        | Some _ =>
            if sysChanClosed s then Some (StPanic, goto PcPanicked)
            else Some (StSentinel,
                       mkSys m (sysChan s ++ [None]) (sysChanClosed s)
                         (sysSession s) (sysClosed s) PcWaitReads)
        end
      else Some (StNoSentinel, goto PcWaitReads)
  | PcWaitReads =>
      if (reads m =? 0)%nat then Some (StReadsDrained, goto PcClose)
      else None
  | PcClose =>
      match handle m with
      | Some h =>
          Some (StClosed h,
                mkSys m (sysChan s) (sysChanClosed s) (sysSession s)
                  (sysClosed s ++ [h]) PcReturned)
      | None => Some (StPanic, goto PcPanicked)
      end
  | PcReturned | PcPanicked => None
  end.

Inductive LoopEvent :=
| LpBreak (item : option Packet)
| LpSkippedNil
| LpProcessed (p : Packet)
| LpExhausted.

(** One turn of the capture loop of [Start], when one is running: it
    waits for an item; on a closed and drained channel the [range] ends;
    on an item it breaks if the flag is cleared, passes over a nil packet,
    and runs the body on any other.  When the loop is over the worker sets
    the closed flag and signs off ([workerEnd]). *)
Definition loopStep `{Decoder} `{Discovery} (s : Sys)
    : option (LoopEvent * Sys) :=
  let m := sysMod s in
  let ended rest :=
    mkSys (workerEnd m) rest (sysChanClosed s) (sysSession s) (sysClosed s)
      (sysPc s) in
  if (loops m =? 0)%nat then None
  else
    match sysChan s with
    | [] => if sysChanClosed s then Some (LpExhausted, ended []) else None
    | item :: rest =>
        if negb (Running m) then Some (LpBreak item, ended rest)
        else match item with
             | None =>
                 Some (LpSkippedNil,
                       mkSys m rest (sysChanClosed s) (sysSession s)
                         (sysClosed s) (sysPc s))
             | Some p =>
                 Some (LpProcessed p,
                       mkSys m rest (sysChanClosed s)
                         (onPacket m p (sysSession s)) (sysClosed s) (sysPc s))
             end
    end.

(** Modelled from the spec: the packet source ([gopacket.PacketSource]) is
    not part of the module source.  The spec describes a Radio Source
    Adapter that yields a sequence of raw captured frames and can run out:
    once the worker has taken its channel, the source queues one captured
    frame at a time, never a nil one, and closes the channel when it is
    exhausted.  [None] stands for that end. *)
Definition sourceStep (frame : option Packet) (s : Sys) : option Sys :=
  match pktSourceChan (sysMod s) with
  | None => None
  | Some _ =>
      if sysChanClosed s then None
      else
        Some (match frame with
              | Some p =>
                  mkSys (sysMod s) (sysChan s ++ [Some p]) (sysChanClosed s)
                    (sysSession s) (sysClosed s) (sysPc s)
              | None =>
                  mkSys (sysMod s) (sysChan s) true (sysSession s)
                    (sysClosed s) (sysPc s)
              end)
  end.

(** Modelled from the spec: the sequencers are not part of the module
    source.  The spec says that every sequencer run increments the
    write-barrier count at start and decrements it at completion. *)
Definition sequencerStep (starts : bool) (s : Sys) : option Sys :=
  let m := sysMod s in
  let with_writes n :=
    mkSys (set_writes n m) (sysChan s) (sysChanClosed s) (sysSession s)
      (sysClosed s) (sysPc s) in
  if starts then Some (with_writes (S (writes m)))
  else match writes m with
       | O => None
       | S n => Some (with_writes n)
       end.

(** Who takes the next step, and what the step was. *)
Inductive Actor :=
| AStop
| ALoop
| ASource (frame : option Packet)
| ASequencer (starts : bool).

Inductive ProcEvent :=
| ByStop (ev : StopEvent)
| ByLoop (ev : LoopEvent)
| BySource (frame : option Packet)
| BySequencer (starts : bool).

Definition sysStep `{Decoder} `{Discovery} (a : Actor) (s : Sys)
    : option (ProcEvent * Sys) :=
  match a with
  | AStop => (λ r, (ByStop r.1, r.2)) <$> stopStep s
  | ALoop => (λ r, (ByLoop r.1, r.2)) <$> loopStep s
  | ASource frame => (λ s', (BySource frame, s')) <$> sourceStep frame s
  | ASequencer starts => (λ s', (BySequencer starts, s')) <$> sequencerStep starts s
  end.

(** An execution under a schedule: the steps taken, each with the states
    before and after it, and the state reached; [None] when the schedule
    asks for a step that is not enabled. *)
Fixpoint run `{Decoder} `{Discovery} (sched : list Actor) (s : Sys)
    : option (list (ProcEvent * Sys * Sys) * Sys) :=
  match sched with
  | [] => Some ([], s)
  | a :: sched =>
      match sysStep a s with
      | None => None
      | Some (ev, s') =>
          match run sched s' with
          | None => None
          | Some (tr, s'') => Some ((ev, s, s') :: tr, s'')
          end
      end
  end.

(** A [wifi.recon on] command issued while [Stop] is not running: when
    [Start] succeeds its worker takes the channel of a new packet source,
    and either way the next [Stop] starts from its first statement. *)
Definition sysStart `{Lib} `{Env} (s : Sys) : option error * Sys :=
  match Start (sysMod s) with
  | (Some err, m, _) =>
      (Some err,
       mkSys m (sysChan s) (sysChanClosed s) (sysSession s) (sysClosed s)
         PcSetRunning)
  | (None, m, _) =>
      (None, mkSys m [] false (sysSession s) (sysClosed s) PcSetRunning)
  end.

(** ** package hid: the sniffer of [HIDRecon] *)
Module hid.

(** What the sniffer calls outside the module: [nrf24.ConvertAddress],
    [network.NormalizeHIDAddress], the constant [nrf24.TopChannel], and the
    methods of a registered device.  [DeviceState] is what a device holds
    beside its [LastSeen] time. *)
Class Lib := {
  ConvertAddress : string -> option error * option (list Z);
  NormalizeHIDAddress : string -> string;
  TopChannel : Z;
  DeviceState : Type;
  AddPayload : list Z -> Z * DeviceState -> Z * DeviceState;
  AddChannel : Z -> Z * DeviceState -> Z * DeviceState
}.

(** A registered device: its [LastSeen] time and the rest of its state. *)
Definition HIDDevice `{Lib} : Type := (Z * DeviceState)%type.

Definition setLastSeen `{Lib} (now : Z) (dev : HIDDevice) : HIDDevice :=
  (now, dev.2).

(** The dongle and the clock.  [TransmitFirst] is the ping sent on the
    channel the dongle is tuned to when [doPing] starts, [TransmitOn ch]
    the ping sent after the dongle was tuned to [ch]; [Since t] is
    [time.Since(t)] when [doPing] tests it, [NowAt ch] is [time.Now()] when
    the ping on [ch] has gone through, [Now] is [time.Now()] in
    [onSniffedBuffer]. *)
Class Dongle := {
  EnterSnifferModeFor : option (list Z) -> option error;
  TransmitFirst : list Z -> option error;
  SetChannel : Z -> option error;
  TransmitOn : Z -> list Z -> option error;
  Since : Z -> Z;
  NowAt : Z -> Z;
  Now : Z
}.

(** The fields of [HIDRecon] the sniffer reads or writes; a nil slice is
    [None]. *)
Record HIDRecon := mkHIDRecon {
  inSniffMode : bool;
  inPromMode : bool;
  sniffAddrRaw : option (list Z);
  sniffAddr : string;
  pingPayload : list Z;
  lastPing : Z;
  pingPeriod : Z;
  channel : Z
}.

Definition set_inSniffMode (v : bool) (m : HIDRecon) : HIDRecon :=
  mkHIDRecon v (inPromMode m) (sniffAddrRaw m) (sniffAddr m) (pingPayload m)
    (lastPing m) (pingPeriod m) (channel m).

Definition set_inPromMode (v : bool) (m : HIDRecon) : HIDRecon :=
  mkHIDRecon (inSniffMode m) v (sniffAddrRaw m) (sniffAddr m) (pingPayload m)
    (lastPing m) (pingPeriod m) (channel m).

Definition set_sniffAddrRaw (v : option (list Z)) (m : HIDRecon) : HIDRecon :=
  mkHIDRecon (inSniffMode m) (inPromMode m) v (sniffAddr m) (pingPayload m)
    (lastPing m) (pingPeriod m) (channel m).

Definition set_sniffAddr (v : string) (m : HIDRecon) : HIDRecon :=
  mkHIDRecon (inSniffMode m) (inPromMode m) (sniffAddrRaw m) v (pingPayload m)
    (lastPing m) (pingPeriod m) (channel m).

Definition set_lastPing (v : Z) (m : HIDRecon) : HIDRecon :=
  mkHIDRecon (inSniffMode m) (inPromMode m) (sniffAddrRaw m) (sniffAddr m)
    (pingPayload m) v (pingPeriod m) (channel m).

Definition set_channel (v : Z) (m : HIDRecon) : HIDRecon :=
  mkHIDRecon (inSniffMode m) (inPromMode m) (sniffAddrRaw m) (sniffAddr m)
    (pingPayload m) (lastPing m) (pingPeriod m) v.

Definition isSniffing (m : HIDRecon) : bool :=
  match sniffAddrRaw m with Some _ => true | None => false end.

(** [setSniffMode]; the lock it holds plays no part in a single caller. *)
Definition setSniffMode `{Lib} (mode : string) (m : HIDRecon)
    : option error * HIDRecon :=
  let m := set_inSniffMode false m in
  if bool_decide (mode = "clear") then
    (None, set_sniffAddr EmptyString (set_sniffAddrRaw None m))
  else
    match ConvertAddress mode with
    | (Some err, _) => (Some err, m)
    | (None, raw) =>
        (None, set_sniffAddrRaw raw (set_sniffAddr (NormalizeHIDAddress mode) m))
    end.

(** The calls [doPing] makes on the dongle. *)
Inductive DongleCall :=
| CallEnterSniffer (raw : option (list Z))
| CallTransmit (payload : list Z) (timeout retransmits : Z)
| CallSetChannel (ch : Z).

(** The loop [for mod.channel = 1; mod.channel <= nrf24.TopChannel;
    mod.channel++] from the current value of [mod.channel] on; [fuel]
    bounds its iterations, and [None] means the bound was reached. *)
Fixpoint pingScan `{Lib} `{Dongle} (fuel : nat) (m : HIDRecon)
    (log : list DongleCall) : option (HIDRecon * list DongleCall) :=
  if channel m <=? TopChannel then
    match fuel with
    | O => None
    | S fuel' =>
        let log := log ++ [CallSetChannel (channel m)] in
        match SetChannel (channel m) with
        | Some _ => pingScan fuel' (set_channel (channel m + 1) m) log
        | None =>
            let log := log ++ [CallTransmit (pingPayload m) 250 1] in
            match TransmitOn (channel m) (pingPayload m) with
            | None => Some (set_lastPing (NowAt (channel m)) m, log)
            | Some _ => pingScan fuel' (set_channel (channel m + 1) m) log
            end
        end
    end
  else Some (m, log).

(** [doPing]: the module afterwards and the calls made, in order.  The
    scan visits the channels from 1 to [TopChannel], so that many
    iterations are allowed. *)
Definition doPing `{Lib} `{Dongle} (m : HIDRecon)
    : option (HIDRecon * list DongleCall) :=
  let '(m, log) :=
    if negb (inSniffMode m) then
      (match EnterSnifferModeFor (sniffAddrRaw m) with
       | Some _ => m
       | None => set_inPromMode false (set_inSniffMode true m)
       end, [CallEnterSniffer (sniffAddrRaw m)])
    else (m, []) in
  if pingPeriod m <=? Since (lastPing m) then
    let log := log ++ [CallTransmit (pingPayload m) 250 1] in
    match TransmitFirst (pingPayload m) with
    | Some _ => pingScan (Z.to_nat TopChannel) (set_channel 1 m) log
    | None => Some (m, log)
    end
  else Some (m, log).

(** [onSniffedBuffer] on the device registry [Session.HID]. *)
Definition onSniffedBuffer `{Lib} `{Dongle} (buf : list Z) (m : HIDRecon)
    (devices : gmap string HIDDevice) : gmap string HIDDevice :=
  match buf with
  | first :: payload =>
      if first =? 0 then
        match devices !! sniffAddr m with
        | Some dev =>
            <[sniffAddr m :=
                AddChannel (channel m) (AddPayload payload (setLastSeen Now dev))]>
              devices
        | None => devices
        end
      else devices
  | [] => devices
  end.

(** A history of [setSniffMode] calls. *)
Definition runSniffModes `{Lib} (modes : list string) (m : HIDRecon) : HIDRecon :=
  foldl (fun m mode => (setSniffMode mode m).2) m modes.

(** The address pair a call asks for, if the call is not in error. *)
Definition sniffTarget `{Lib} (mode : string)
    : option (string * option (list Z)) :=
  if bool_decide (mode = "clear") then Some (EmptyString, None)
  else match ConvertAddress mode with
       | (Some _, _) => None
       | (None, raw) => Some (NormalizeHIDAddress mode, raw)
       end.

(** A channel on which the dongle accepts to be tuned and the ping goes
    through. *)
Definition responsive `{Lib} `{Dongle} (payload : list Z) (ch : Z) : Prop :=
  SetChannel ch = None ∧ TransmitOn ch payload = None.

End hid.


(** ** Specification-side definitions *)

(** What [updateStats] does to the record stored under [k] when the frame
    is a data frame. *)
Definition creditStation (dot11 : Dot11) (packet : Packet) (k : string)
    (st : AccessPoint) : AccessPoint :=
  let bytes := uint64 (len (Data packet)) in
  let st :=
    if bool_decide (k = net.String_ (Address1 dot11))
    then withReceived (uint64 (Received st + bytes)) st else st in
  if bool_decide (k = net.String_ (Address2 dot11))
  then withSent (uint64 (Sent st + bytes)) st else st.

(** The items the loop takes from the channel before it stops: those up
    to the first one for which the running flag is found cleared. *)
Fixpoint whileRunning (rx : list (bool * option Packet))
    : list (option Packet) :=
  match rx with
  | (true, packet) :: rest => packet :: whileRunning rest
  | _ => []
  end.

(** A history of [wifi.recon.channel] commands applied to a module. *)
Definition runChannelCommands `{Lib} `{Env} (args : list string)
    (m : WiFiModule) : WiFiModule :=
  foldl (fun m arg => (reconChannelHandler arg m).2) m args.

(** The frequency a channel token stands for, if it is a valid channel. *)
Definition channelFrequency `{Lib} (token : string) : option Z :=
  match Atoi token with
  | inl _ => None
  | inr ch => if Dot11Chan2Freq ch =? 0 then None else Some (Dot11Chan2Freq ch)
  end.

(** What a command supplies, in the spec's words: nothing usable when it
    names an invalid channel, otherwise its channel list converted to
    frequencies, which is empty for [clear]. *)
Definition suppliedChannelSet `{Lib} (arg : string) : option (list Z) :=
  if bool_decide (arg = "clear") then Some []
  else mapM channelFrequency (Comma arg).

(** The active Channel Set the spec prescribes after a history of
    commands: decided by the most recent command that was not in error;
    its list when that is non-empty, the full supported set otherwise. *)
Definition activeChannelSet `{Lib} (all initial : list Z) (args : list string)
    : list Z :=
  match last (omap suppliedChannelSet args) with
  | None => initial
  | Some [] => all
  | Some freqs => freqs
  end.

(** [c] started in a state satisfying [P] ends, by an error or not, in a
    state satisfying [Q]. *)
Definition cfgHoare {A} (P : CfgState -> Prop) (c : Cfg A)
    (Q : CfgState -> Prop) : Prop :=
  ∀ st, P st -> Q (c st).2.

(** The fields [Configure] never assigns have the same value in [m'] as in
    [m]: the running flag, the goroutines, the wait groups, the packet
    channel and its closed flag, the channel, the filter and the rogue-AP
    flag. *)
Definition sameRunState (m m' : WiFiModule) : Prop :=
  Started m' = Started m
  ∧ hoppers m' = hoppers m
  ∧ pruners m' = pruners m
  ∧ loops m' = loops m
  ∧ reads m' = reads m
  ∧ writes m' = writes m
  ∧ pktSourceChan m' = pktSourceChan m
  ∧ pktSourceChanClosed m' = pktSourceChanClosed m
  ∧ channel m' = channel m
  ∧ ap m' = ap m
  ∧ stickChan m' = stickChan m
  ∧ apRunning m' = apRunning m.

Definition isActivate (ev : Event) : bool :=
  match ev with EvActivate _ => true | _ => false end.

Definition isBringUp (ev : Event) : bool :=
  match ev with EvActivateInterface _ => true | _ => false end.

(** How many calls of a kind a log holds. *)
Definition countOf (kind : Event -> bool) (log : list Event) : nat :=
  length (List.filter kind log).

(** The first four calls of an activation attempt succeed and yield
    inactive handle [ih]. *)
Definition prepared `{Env} (ifName : string) (retry : Z) (ih : InactiveHandle)
    : Prop :=
  NewInactiveHandle retry ifName = inr ih
  ∧ SetRFMon retry ih true = None
  ∧ SetSnapLen retry ih 65536 = None
  ∧ SetTimeout retry ih readTimeout = None.

(** The parameters read before the handle is opened are readable and name
    no replay file, so [Configure] goes on to activate the interface. *)
Definition liveParams `{Env} : Prop :=
  StringParam "wifi.source.file" = (None, EmptyString)
  ∧ (StringParam "wifi.handshakes.file").1 = None
  ∧ ((StringParam "wifi.handshakes.file").2 ≠ EmptyString ->
     (Expand (StringParam "wifi.handshakes.file").2).2 = None)
  ∧ (IntParam "wifi.rssi.min").1 = None.

(** The calls of one activation attempt on inactive handle [ih]. *)
Definition attemptCalls (ifName : string) (ih : InactiveHandle) : list Event :=
  [EvNewInactiveHandle ifName; EvSetRFMon ih true; EvSetSnapLen ih 65536;
   EvSetTimeout ih readTimeout; EvActivate ih].

(** What [updateInfo] does to the record stored under [k]. *)
Definition annotateStation `{Decoder} (dot11 : Dot11) (packet : Packet)
    (k : string) (st : AccessPoint) : AccessPoint :=
  let st :=
    match Dot11ParseEncryption packet dot11 with
    | Some (enc, cipher, auth) =>
        if bool_decide (k = net.String_ (Address3 dot11))
        then withEncryption enc cipher auth st else st
    | None => st
    end in
  match Dot11ParseWPS packet dot11 with
  | Some (bssid, info) =>
      if bool_decide (k = net.String_ bssid)
      then withWPS (info ∪ WPS st) st else st
  | None => st
  end.

(** A packet the loop body drops right after counting it: it does not
    parse, or integrity checking is on and its checksum is invalid. *)
Definition rejected `{Decoder} (m : WiFiModule) (packet : Packet) : Prop :=
  match Dot11Parse packet with
  | None => True
  | Some (_, dot11) => skipBroken m = true ∧ ChecksumValid dot11 = false
  end.

(** The bytes of the packets among the items of a channel. *)
Definition totalBytes (items : list (option Packet)) : Z :=
  foldr (fun it acc => match it with
                       | Some p => len (Data p) + acc
                       | None => acc
                       end) 0 items.

(** The recon commands an operator issues, each in the environment it
    finds, and their effect on the module for a given registry. *)
Inductive ReconCommand :=
| CmdStart (E : Env)
| CmdChannel (E : Env) (arg : string)
| CmdMAC (arg : string)
| CmdClear (E : Env).

Definition runReconCommand `{Lib} (s : Session) (m : WiFiModule)
    (c : ReconCommand) : WiFiModule :=
  match c with
  | CmdStart E => (@Start _ E m).1.2
  | CmdChannel E arg => (@reconChannelHandler _ E arg m).2
  | CmdMAC arg => (reconMACHandler arg s m).2
  | CmdClear E => (@reconClearHandler E m).2
  end.

Definition runReconCommands `{Lib} (s : Session) (cs : list ReconCommand)
    (m : WiFiModule) : WiFiModule :=
  foldl (runReconCommand s) m cs.

(** The target filter is coherent with the registry: with a filter set,
    [stickChan] is the channel of the access point [ap] refers to; with
    none, it is 0. *)
Definition filterCoherent (s : Session) (m : WiFiModule) : Prop :=
  match ap m with
  | Some key => ∃ station, WiFi s !! key = Some station
                           ∧ stickChan m = Channel station
  | None => stickChan m = 0
  end.

(** The inactive handles a log shows in use: [SetRFMon] is the first call
    made on every handle [NewInactiveHandle] returns. *)
Definition handlesInUse (log : list Event) : list InactiveHandle :=
  omap (fun ev => match ev with EvSetRFMon ih _ => Some ih | _ => None end) log.

Definition isCleanUp (ev : Event) : bool :=
  match ev with EvCleanUp _ => true | _ => false end.

Definition isOpenOffline (ev : Event) : bool :=
  match ev with EvOpenOffline _ => true | _ => false end.

(** No clean-up has run yet, and the deferred clean-ups are those of the
    handles in use, latest first. *)
Definition cleanUpsPending (st : CfgState) : Prop :=
  Forall (fun ev => isCleanUp ev = false) (cfgLog st)
  ∧ cfgDeferred st = reverse (handlesInUse (cfgLog st)).


(** Nil items and the running flag: whenever a nil item is queued, and
    whenever [Stop] is past its first statement, the flag is cleared. *)
Definition flagClearedForNil (s : Sys) : Prop :=
  (None ∈ sysChan s -> Running (sysMod s) = false)
  ∧ (sysPc s ≠ PcSetRunning -> Running (sysMod s) = false).

(** The steps of a trace, without the states. *)
Definition eventsOf (tr : list (ProcEvent * Sys * Sys)) : list ProcEvent :=
  (λ e, e.1.1) <$> tr.

(** ** Sample values used by the examples *)
Module sample.

(** A decoder that hands out the layers stored in the packet and
    accepts a frame when its checksum field is zero. *)
#[export] Instance decoder : Decoder := {|
  Dot11Parse p :=
    match radiotapLayer p, dot11Layer p with
    | Some r, Some d => Some (r, d)
    | _, _ => None
    end;
  ChecksumValid d := Checksum d =? 0;
  Dot11ParseEncryption _ _ := None;
  Dot11ParseWPS _ _ := None
|}.

Definition blankAP : AccessPoint :=
  mkAccessPoint "OPEN" "" "" ∅ 0 0 1.

(** Classification stages that do leave marks: every frame they see
    registers its BSSID and is appended to the handshake artifact. *)
#[export] Instance discovery : Discovery := {|
  discoverProbes _ _ _ _ s := s;
  discoverAccessPoints _ _ d _ s :=
    match WiFi s !! net.String_ (Address3 d) with
    | Some _ => s
    | None => withWiFi (<[net.String_ (Address3 d) := blankAP]> (WiFi s)) s
    end;
  discoverClients _ _ _ _ s := s;
  discoverHandshakes _ _ _ p s :=
    mkSession (WiFi s) (Queue s) (Handshakes s ++ [p])
|}.

Definition macAA : HardwareAddr := [170; 170; 170; 170; 170; 170].
Definition macBB : HardwareAddr := [187; 187; 187; 187; 187; 187].

Definition radiotap : RadioTap := mkRadioTap (-40) 2412.

(** A 100-byte QoS data frame from the access point to its client. *)
Definition dataFrame : Packet :=
  mkPacket (replicate 100 0) (Some radiotap)
    (Some (mkDot11 34 macBB macAA macAA 0)).

(** The same frame with a checksum that does not verify. *)
Definition brokenFrame : Packet :=
  mkPacket (replicate 100 0) (Some radiotap)
    (Some (mkDot11 34 macBB macAA macAA 3735928559)).

Definition wpa2AP : AccessPoint :=
  mkAccessPoint "WPA2" "CCMP" "PSK" ∅ 0 0 6.

Definition sess : Session :=
  mkSession {[ "aa:aa:aa:aa:aa:aa" := wpa2AP ]} 0 [].

(** Stand-ins for the library functions: comma-separated fields trimmed
    of blanks, unsigned decimal numbers, colon-separated hex bytes, and the
    2.4 GHz and 5 GHz channel plan. *)
Definition isBlank (c : ascii) : bool := Ascii.eqb c " ".

Fixpoint trimLeft (s : string) : string :=
  match s with
  | String c rest => if isBlank c then trimLeft rest else s
  | EmptyString => EmptyString
  end.

Definition trim (s : string) : string :=
  String.rev (trimLeft (String.rev (trimLeft s))).

Fixpoint splitComma (s cur : string) : list string :=
  match s with
  | EmptyString => [cur]
  | String c rest =>
      if Ascii.eqb c "," then cur :: splitComma rest EmptyString
      else splitComma rest (cur +:+ String c EmptyString)
  end.

Definition comma (s : string) : list string :=
  filter (fun part => part ≠ EmptyString) (trim <$> splitComma s EmptyString).

Definition digitValue (c : ascii) : option Z :=
  let n := Z.of_nat (nat_of_ascii c) in
  if (48 <=? n) && (n <=? 57) then Some (n - 48) else None.

Fixpoint decimal (s : string) (acc : Z) : option Z :=
  match s with
  | EmptyString => Some acc
  | String c rest =>
      match digitValue c with
      | Some d => decimal rest (10 * acc + d)
      | None => None
      end
  end.

Definition atoi (s : string) : error + Z :=
  match s with
  | EmptyString => inl "strconv.Atoi: invalid syntax"
  | _ => match decimal s 0 with
         | Some n => inr n
         | None => inl ("strconv.Atoi: parsing " +:+ s +:+ ": invalid syntax")
         end
  end.

Definition hexValue (c : ascii) : option Z :=
  let n := Z.of_nat (nat_of_ascii c) in
  if (48 <=? n) && (n <=? 57) then Some (n - 48)
  else if (97 <=? n) && (n <=? 102) then Some (n - 87)
  else if (65 <=? n) && (n <=? 70) then Some (n - 55)
  else None.

Fixpoint hexBytes (s : string) : option (list Z) :=
  match s with
  | String a (String b rest) =>
      match hexValue a, hexValue b with
      | Some x, Some y =>
          match rest with
          | EmptyString => Some [16 * x + y]
          | String sep rest' =>
              if Ascii.eqb sep ":" then cons (16 * x + y) <$> hexBytes rest'
              else None
          end
      | _, _ => None
      end
  | _ => None
  end.

Definition parseMAC (s : string) : error + HardwareAddr :=
  match hexBytes s with
  | Some bytes =>
      if (length bytes =? 6)%nat then inr bytes
      else inl ("address " +:+ s +:+ ": invalid MAC address")
  | None => inl ("address " +:+ s +:+ ": invalid MAC address")
  end.

Definition chan2freq (ch : Z) : Z :=
  if ch <=? 0 then 0
  else if ch <=? 13 then (ch - 1) * 5 + 2412
  else if ch =? 14 then 2484
  else if ch <=? 173 then (ch - 7) * 5 + 5035
  else 0.

#[export] Instance lib : Lib := {|
  Comma := comma;
  Atoi := atoi;
  ParseMAC := parseMAC;
  Dot11Chan2Freq := chan2freq;
  Bold s := s
|}.

(** An environment with interface [wlan0], three supported frequencies
    and default parameters.  [src] is the replay file parameter,
    [openErr] what opening it answers, [first] and [second] what the first
    and the second activation of the interface answer, and [up] what
    bringing the interface up answers. *)
Definition env (src : string) (openErr first second up : option error) : Env := {|
  StringParam name :=
    if bool_decide (name = "wifi.source.file") then (None, src)
    else (None, EmptyString);
  IntParam name :=
    if bool_decide (name = "wifi.rssi.min") then (None, -200) else (None, 250);
  BoolParam _ := (None, true);
  InterfaceName := "wlan0";
  Expand path := (path, None);
  OpenOffline _ :=
    match openErr with Some e => (None, Some e) | None => (Some 7%nat, None) end;
  NewInactiveHandle retry _ := inr (Z.to_nat retry);
  SetRFMon _ _ _ := None;
  SetSnapLen _ _ _ := None;
  SetTimeout _ _ _ := None;
  Activate retry ih :=
    match (if retry =? 0 then first else second) with
    | Some e => (None, Some e)
    | None => (Some (10 + ih)%nat, None)
    end;
  ActivateInterface _ := up;
  GetSupportedFrequencies _ := ([2412; 2437; 2462], None);
  SetInterfaceChannel _ _ := None
|}.

(** The interface is up and activates at once. *)
Definition liveEnv : Env := env "" None None None None.

(** The interface is down at first and activates after being brought up. *)
Definition downEnv : Env := env "" None (Some ErrIfaceNotUp) None None.

(** A replay file that cannot be opened. *)
Definition missingFileEnv : Env :=
  env "missing.pcap" (Some "No such file or directory") None None None.

(** A module started on the live interface, with nothing queued yet, and
    a schedule on it: the source delivers a data frame and the loop
    processes it; [Stop] clears the flag, finds no sequencer in flight and
    queues the sentinel; the loop takes it, finds the flag cleared and
    ends; [Stop] passes the read barrier and closes the handle. *)
Definition started : WiFiModule := (@Start lib liveEnv NewWiFiModule).1.2.

Definition stop0 : Sys := mkSys started [] false sess [] PcSetRunning.

Definition stopSchedule : list Actor :=
  [ASource (Some dataFrame); ALoop; AStop; AStop; AStop; ALoop; AStop; AStop].

(** A replay file that opens. *)
Definition replayEnv : Env := env "capture.pcap" None None None None.

(** A module started on that replay file: running, with no hopper. *)
Definition replaying : WiFiModule := (@Start lib replayEnv NewWiFiModule).1.2.

(** Stand-ins for the sniffer's library: addresses are colon-separated
    hex bytes kept as written, channels run up to 125, and a device
    remembers the payloads and channels added to it, latest first. *)
#[export] Instance hidLib : hid.Lib := {|
  hid.ConvertAddress s :=
    match hexBytes s with
    | Some raw => (None, Some raw)
    | None => (Some ("invalid address " +:+ s), None)
    end;
  hid.NormalizeHIDAddress s := s;
  hid.TopChannel := 125;
  hid.DeviceState := (list (list Z) * list Z)%type;
  hid.AddPayload p dev := (dev.1, (p :: dev.2.1, dev.2.2));
  hid.AddChannel ch dev := (dev.1, (dev.2.1, ch :: dev.2.2))
|}.

(** A dongle that cannot be tuned to channel 2 and whose ping is
    acknowledged on channel 3 only; the clock reads 1000, plus the channel
    number once a ping went through. *)
#[export] Instance dongle : hid.Dongle := {|
  hid.EnterSnifferModeFor _ := None;
  hid.TransmitFirst _ := Some "no ack";
  hid.SetChannel ch := if ch =? 2 then Some "usb error" else None;
  hid.TransmitOn ch _ := if ch =? 3 then None else Some "no ack";
  hid.Since t := 1000 - t;
  hid.NowAt ch := 1000 + ch;
  hid.Now := 1000
|}.

(** A sniffer in promiscuous mode on channel 7 that last pinged at time 0
    and pings every 100. *)
Definition sniffer : hid.HIDRecon :=
  hid.mkHIDRecon false true None EmptyString [15; 15; 15; 15] 0 100 7.

End sample.

(** * Properties *)

(** ** The registry under [updateStats] *)

Section Stats.

Lemma uint64_small z : 0 ≤ z < 2 ^ 64 -> uint64 z = z.
Proof. intros Hz. unfold uint64. apply Z.mod_small. exact Hz. Qed.

Lemma len_nonneg {A} (l : list A) : 0 ≤ len l.
Proof. unfold len. lia. Qed.

Lemma updateStats_lookup dot11 packet s k :
  MainType (Type_ dot11) = Dot11TypeData ->
  WiFi (updateStats dot11 packet s) !! k
  = creditStation dot11 packet k <$> WiFi s !! k.
Proof.
  intros Hdata. unfold updateStats, creditStation, network_registry.Get.
  rewrite Hdata, Z.eqb_refl.
  generalize (net.String_ (Address1 dot11)) as dst.
  generalize (net.String_ (Address2 dot11)) as src.
  generalize (uint64 (len (Data packet))) as bytes.
  intros bytes src dst.
  destruct (WiFi s !! dst) as [sd|] eqn:Hd; cbn [WiFi withWiFi];
    destruct (decide (src = dst)) as [Hsd|Hsd]; subst;
    rewrite ?lookup_insert_eq, ?Hd; cbn [WiFi withWiFi];
    rewrite ?lookup_insert_ne by done;
    try (destruct (WiFi s !! src) as [ss|] eqn:Hs; cbn [WiFi withWiFi]);
    repeat case_bool_decide; subst; simplify_map_eq; try done.
  all: try (destruct (WiFi s !! k); done).
Qed.

Lemma updateStats_rest dot11 packet s :
  Queue (updateStats dot11 packet s) = Queue s
  ∧ Handshakes (updateStats dot11 packet s) = Handshakes s.
Proof.
  unfold updateStats, network_registry.Get.
  destruct (MainType (Type_ dot11) =? Dot11TypeData); [|done].
  destruct (WiFi s !! _); cbn [WiFi withWiFi];
    match goal with |- context [?m !! ?k] => destruct (m !! k) end; done.
Qed.

End Stats.

(** C7: for a data frame, [updateStats] adds the frame's byte length to the
    [Received] counter of the record stored under the destination address
    (Address1) and to the [Sent] counter of the record stored under the
    source address (Address2), each only when that record exists; every
    other field and record is as before, and no record is created. *)
Theorem updateStats_credits_existing_records
    (dot11 : Dot11) (packet : Packet) (s : Session) :
  MainType (Type_ dot11) = Dot11TypeData ->
  let n := len (Data packet) in
  let dst := net.String_ (Address1 dot11) in
  let src := net.String_ (Address2 dot11) in
  let s' := updateStats dot11 packet s in
  dom (WiFi s') = dom (WiFi s)
  ∧ (∀ k st, WiFi s !! k = Some st ->
       ∃ st', WiFi s' !! k = Some st'
         ∧ Received st' = (if bool_decide (k = dst)
                           then uint64 (Received st + uint64 n)
                           else Received st)
         ∧ Sent st' = (if bool_decide (k = src)
                       then uint64 (Sent st + uint64 n)
                       else Sent st)
         ∧ Encryption st' = Encryption st ∧ Cipher st' = Cipher st
         ∧ Authentication st' = Authentication st ∧ WPS st' = WPS st
         ∧ Channel st' = Channel st)
  ∧ (∀ k, WiFi s !! k = None -> WiFi s' !! k = None)
  ∧ (∀ st, WiFi s !! dst = Some st -> dst ≠ src ->
       0 ≤ Received st -> Received st + n < 2 ^ 64 ->
       Received <$> WiFi s' !! dst = Some (Received st + n))
  ∧ (∀ st, WiFi s !! src = Some st -> dst ≠ src ->
       0 ≤ Sent st -> Sent st + n < 2 ^ 64 ->
       Sent <$> WiFi s' !! src = Some (Sent st + n))
  ∧ Queue s' = Queue s
  ∧ Handshakes s' = Handshakes s.
Proof.
  intros Hdata n dst src s'.
  assert (Hlk : ∀ k, WiFi s' !! k = creditStation dot11 packet k <$> WiFi s !! k)
    by (intros k; apply updateStats_lookup; exact Hdata).
  assert (Hn : 0 ≤ n) by apply len_nonneg.
  split; [|split; [|split; [|split; [|split]]]].
  - apply set_eq. intros k. rewrite !elem_of_dom, Hlk.
    rewrite fmap_is_Some. done.
  - intros k st Hk. rewrite Hlk, Hk. eexists. split; [reflexivity|].
    unfold creditStation. fold dst src n.
    destruct st; repeat case_bool_decide; cbn; done.
  - intros k Hk. rewrite Hlk, Hk. done.
  - intros st Hst Hne Hpos Hlt. rewrite Hlk, Hst. cbn.
    unfold creditStation. fold dst src n.
    rewrite (bool_decide_eq_true_2 (dst = dst)) by done.
    rewrite (bool_decide_eq_false_2 (dst = src)) by done. cbn. f_equal.
    rewrite (uint64_small n) by lia. apply uint64_small. lia.
  - intros st Hst Hne Hpos Hlt. rewrite Hlk, Hst. cbn.
    unfold creditStation. fold dst src n.
    rewrite (bool_decide_eq_false_2 (src = dst)) by done.
    rewrite (bool_decide_eq_true_2 (src = src)) by done. cbn. f_equal.
    rewrite (uint64_small n) by lia. apply uint64_small. lia.
  - apply updateStats_rest.
Qed.

(** The access point of the sample session is credited with the 100 bytes
    it sent; its client has no record and gets none. *)
Lemma updateStats_credits_existing_records_witness :
  MainType 34 = Dot11TypeData
  ∧ Sent <$> WiFi (updateStats (mkDot11 34 sample.macBB sample.macAA sample.macAA 0)
                     sample.dataFrame sample.sess) !! "aa:aa:aa:aa:aa:aa"
    = Some 100
  ∧ WiFi (updateStats (mkDot11 34 sample.macBB sample.macAA sample.macAA 0)
            sample.dataFrame sample.sess) !! "bb:bb:bb:bb:bb:bb" = None.
Proof.
  pose proof (updateStats_credits_existing_records
                (mkDot11 34 sample.macBB sample.macAA sample.macAA 0)
                sample.dataFrame sample.sess eq_refl)
    as (_ & _ & Hnone & _ & Hsent & _).
  split; [reflexivity|]. split.
  - apply (Hsent sample.wpa2AP);
      [reflexivity|discriminate|vm_compute; discriminate|vm_compute; reflexivity].
  - apply Hnone. reflexivity.
Defined.

(** ** The capture loop *)

Section Loop.

Context `{Decoder} `{Discovery}.

Lemma TrackPacket_only_counts size s :
  WiFi (TrackPacket size s) = WiFi s
  ∧ Handshakes (TrackPacket size s) = Handshakes s.
Proof. split; reflexivity. Qed.

(** A frame that parses and is not rejected goes through every stage,
    [updateStats] last. *)
Lemma onPacket_accepted m packet radiotap dot11 s :
  Dot11Parse packet = Some (radiotap, dot11) ->
  skipBroken m && negb (ChecksumValid dot11) = false ->
  onPacket m packet s
  = updateStats dot11 packet
      (updateInfo dot11 packet
         (discoverHandshakes m radiotap dot11 packet
            (discoverClients m radiotap dot11 packet
               (discoverAccessPoints m radiotap dot11 packet
                  (discoverProbes m radiotap dot11 packet
                     (TrackPacket (uint64 (len (Data packet))) s)))))).
Proof. intros Hp Hok. unfold onPacket. rewrite Hp, Hok. reflexivity. Qed.

Lemma onPacket_unparsable m packet s :
  Dot11Parse packet = None ->
  onPacket m packet s = TrackPacket (uint64 (len (Data packet))) s.
Proof. intros Hp. unfold onPacket. rewrite Hp. reflexivity. Qed.

(** The loop as a whole: it takes the items that arrive while the flag
    is set, runs the body on those that are packets, and breaks at the
    first item for which the flag is found cleared. *)
Lemma captureLoop_unfold m rx s :
  captureLoop m rx s
  = (if bool_decide (length (whileRunning rx) = length rx)
     then Exhausted else Break,
     drop (S (length (whileRunning rx))) rx,
     foldl (fun s p => onPacket m p s) s (omap id (whileRunning rx))).
Proof.
  revert s. induction rx as [|[running packet] rest IH]; intros s.
  - reflexivity.
  - cbn [captureLoop whileRunning]. destruct running; cbn [negb].
    + cbn [length drop].
      replace (bool_decide (S (length (whileRunning rest)) = S (length rest)))
        with (bool_decide (length (whileRunning rest) = length rest))
        by (apply bool_decide_ext; lia).
      destruct packet as [p|]; rewrite IH; reflexivity.
    + reflexivity.
Qed.

End Loop.

(** C1: with integrity checking enabled, a frame whose checksum is invalid
    is dropped right after the traffic counter: whatever the
    classification stages would do, the registry and the handshake
    artifact are as before, and the loop goes on with the next frame. *)
Theorem broken_frame_is_skipped `{Decoder} `{Discovery}
    (m : WiFiModule) (packet : Packet) (radiotap : RadioTap) (dot11 : Dot11)
    (rest : list (bool * option Packet)) (s : Session) :
  skipBroken m = true ->
  Dot11Parse packet = Some (radiotap, dot11) ->
  ChecksumValid dot11 = false ->
  onPacket m packet s = TrackPacket (uint64 (len (Data packet))) s
  ∧ WiFi (onPacket m packet s) = WiFi s
  ∧ Handshakes (onPacket m packet s) = Handshakes s
  ∧ captureLoop m ((true, Some packet) :: rest) s
    = captureLoop m rest (TrackPacket (uint64 (len (Data packet))) s).
Proof.
  intros Hskip Hparse Hsum.
  assert (Hdrop : onPacket m packet s
                  = TrackPacket (uint64 (len (Data packet))) s).
  { unfold onPacket. rewrite Hparse, Hskip, Hsum. reflexivity. }
  repeat split.
  - exact Hdrop.
  - rewrite Hdrop. reflexivity.
  - rewrite Hdrop. reflexivity.
  - cbn [captureLoop negb]. rewrite Hdrop. reflexivity.
Qed.

(** The sample stages would register the BSSID and record the frame; on
    the broken frame they never get the chance. *)
Lemma broken_frame_is_skipped_witness :
  skipBroken NewWiFiModule = true
  ∧ @Dot11Parse sample.decoder sample.brokenFrame
    = Some (sample.radiotap,
            mkDot11 34 sample.macBB sample.macAA sample.macAA 3735928559)
  ∧ @ChecksumValid sample.decoder
      (mkDot11 34 sample.macBB sample.macAA sample.macAA 3735928559) = false
  ∧ WiFi (@onPacket sample.decoder sample.discovery NewWiFiModule
            sample.brokenFrame (mkSession ∅ 0 [])) = ∅
  ∧ Handshakes (@onPacket sample.decoder sample.discovery NewWiFiModule
                  sample.brokenFrame (mkSession ∅ 0 [])) = [].
Proof.
  pose proof (@broken_frame_is_skipped sample.decoder sample.discovery
                NewWiFiModule sample.brokenFrame sample.radiotap
                (mkDot11 34 sample.macBB sample.macAA sample.macAA 3735928559)
                [] (mkSession ∅ 0 []) eq_refl eq_refl eq_refl)
    as (_ & Hw & Hh & _).
  repeat split; assumption.
Defined.

(** ** The recon handlers *)

Section Handlers.

Context `{Lib} `{Env}.

Lemma len_zero_iff {A} (l : list A) : (len l =? 0) = true ↔ l = [].
Proof.
  unfold len. destruct l; cbn; [tauto|].
  split; [|discriminate]. intros Hz. apply Z.eqb_eq in Hz. lia.
Qed.

(** The parsing loop returns early exactly when some token is not a valid
    channel, and otherwise appends the frequencies in order. *)
Lemma parseChannels_mapM parts acc :
  match mapM channelFrequency parts with
  | Some l => parseChannels parts acc = inr (acc ++ l)
  | None => ∃ err, parseChannels parts acc = inl err
  end.
Proof.
  revert acc. induction parts as [|token rest IH]; intros acc.
  - cbn. rewrite app_nil_r. reflexivity.
  - cbn.
    assert (Htoken : channelFrequency token
                     = match Atoi token with
                       | inl _ => None
                       | inr ch => if Dot11Chan2Freq ch =? 0 then None
                                   else Some (Dot11Chan2Freq ch)
                       end) by reflexivity.
    rewrite Htoken. clear Htoken.
    destruct (Atoi token) as [err|ch]; cbn; [eauto|].
    destruct (Dot11Chan2Freq ch =? 0) eqn:Hf; cbn; [eauto|].
    specialize (IH (acc ++ [Dot11Chan2Freq ch])).
    destruct (mapM channelFrequency rest) as [l|]; cbn.
    + rewrite IH, <- app_assoc. reflexivity.
    + exact IH.
Qed.

Lemma reconChannelHandler_invalid arg m :
  suppliedChannelSet arg = None ->
  ∃ err, reconChannelHandler arg m = (Returned (Some err), m).
Proof.
  unfold suppliedChannelSet, reconChannelHandler.
  destruct (decide (arg = "clear")) as [->|Hne].
  - rewrite (bool_decide_eq_true_2 ("clear" = "clear")) by done. discriminate.
  - rewrite (bool_decide_eq_false_2 (arg = "clear")) by done.
    rewrite (bool_decide_eq_true_2 (arg ≠ "clear")) by done.
    intros Hnone. pose proof (parseChannels_mapM (Comma arg) []) as Hp.
    rewrite Hnone in Hp. destruct Hp as [err ->]. eauto.
Qed.

Lemma reconChannelHandler_frequencies all arg m :
  GetSupportedFrequencies InterfaceName = (all, None) ->
  frequencies (reconChannelHandler arg m).2
  = match suppliedChannelSet arg with
    | None => frequencies m
    | Some [] => all
    | Some freqs => freqs
    end.
Proof.
  intros Hall. unfold suppliedChannelSet, reconChannelHandler.
  assert (Hset : ∀ fs m', frequencies
            (if Running (set_frequencies fs m')
             then (sendHopChanges (set_frequencies fs m') (Returned None),
                   set_frequencies fs m')
             else (Returned None, set_frequencies fs m')).2 = fs)
    by (intros fs m'; destruct (Running _); reflexivity).
  destruct (decide (arg = "clear")) as [->|Hne].
  - rewrite (bool_decide_eq_true_2 ("clear" = "clear")) by done.
    rewrite (bool_decide_eq_false_2 ("clear" ≠ "clear"))
      by (intros Hc; apply Hc; reflexivity).
    cbn [len length Z.of_nat Z.eqb]. rewrite Hall. apply Hset.
  - rewrite (bool_decide_eq_false_2 (arg = "clear")) by done.
    rewrite (bool_decide_eq_true_2 (arg ≠ "clear")) by done.
    pose proof (parseChannels_mapM (Comma arg) []) as Hp.
    destruct (mapM channelFrequency (Comma arg)) as [[|f fs]|].
    + rewrite Hp. cbn [app len length Z.of_nat Z.eqb]. rewrite Hall. apply Hset.
    + rewrite Hp. cbn [app].
      destruct (len (f :: fs) =? 0) eqn:Hz;
        [apply len_zero_iff in Hz; discriminate|].
      apply Hset.
    + destruct Hp as [err ->]. reflexivity.
Qed.

(** When the interface cannot list its frequencies, a command that
    supplies no channel is an error and changes nothing. *)
Lemma reconChannelHandler_query_failure all err m :
  GetSupportedFrequencies InterfaceName = (all, Some err) ->
  reconChannelHandler "clear" m = (Returned (Some err), m).
Proof.
  intros Hall. unfold reconChannelHandler.
  rewrite bool_decide_eq_false_2 by (intros Hc; apply Hc; reflexivity).
  cbn [len length Z.of_nat Z.eqb]. rewrite Hall. reflexivity.
Qed.

(** The guard of the [wifi.recon.channel] handler: a module that is not
    running never reaches the send. *)
Lemma reconChannelHandler_idle_returns arg m :
  Running m = false -> (reconChannelHandler arg m).1 ≠ Blocked.
Proof.
  intros Hrun. unfold reconChannelHandler.
  destruct (if bool_decide (arg ≠ "clear") then _ else _) as [err|freqs];
    [discriminate|].
  destruct (if len freqs =? 0 then _ else _) as [err|freqs'];
    [discriminate|].
  replace (Running (set_frequencies freqs' m)) with false by (symmetry; exact Hrun).
  discriminate.
Qed.

Lemma activeChannelSet_snoc all initial args arg :
  activeChannelSet all initial (args ++ [arg])
  = match suppliedChannelSet arg with
    | None => activeChannelSet all initial args
    | Some [] => all
    | Some freqs => freqs
    end.
Proof.
  unfold activeChannelSet. rewrite omap_app.
  assert (Hone : omap suppliedChannelSet [arg]
                 = match suppliedChannelSet arg with
                   | Some fs => [fs]
                   | None => []
                   end)
    by (cbn; destruct (suppliedChannelSet arg); reflexivity).
  rewrite Hone.
  destruct (suppliedChannelSet arg) as [fs|].
  - rewrite last_snoc. reflexivity.
  - rewrite app_nil_r. reflexivity.
Qed.

End Handlers.

(** C3: after any history of [wifi.recon.channel] commands the active
    Channel Set is the one the most recent valid command supplied,
    converted to frequencies, or the interface's full supported set when
    that command supplied none; a command naming an invalid channel
    returns an error and leaves the module as it was. *)
Theorem channel_commands_decide_the_channel_set `{Lib} `{Env}
    (all : list Z) (args : list string) (m : WiFiModule) :
  GetSupportedFrequencies InterfaceName = (all, None) ->
  frequencies (runChannelCommands args m)
  = activeChannelSet all (frequencies m) args
  ∧ (∀ arg m', suppliedChannelSet arg = None ->
       ∃ err, reconChannelHandler arg m' = (Returned (Some err), m')).
Proof.
  intros Hall. split.
  - induction args as [|arg args IH] using rev_ind.
    + reflexivity.
    + unfold runChannelCommands in *. rewrite foldl_snoc.
      rewrite (reconChannelHandler_frequencies all) by exact Hall.
      rewrite activeChannelSet_snoc, IH. reflexivity.
  - intros arg m'. apply reconChannelHandler_invalid.
Qed.

(** Channels 1 and 6, then an invalid channel number: the set stays at the
    two frequencies; after a [clear] it is the full supported set. *)
Lemma channel_commands_decide_the_channel_set_witness :
  @GetSupportedFrequencies sample.liveEnv (@InterfaceName sample.liveEnv)
  = ([2412; 2437; 2462], None)
  ∧ frequencies (@runChannelCommands sample.lib sample.liveEnv
                   ["1, 6"; "200"] NewWiFiModule) = [2412; 2437]
  ∧ frequencies (@runChannelCommands sample.lib sample.liveEnv
                   ["1, 6"; "200"; "clear"] NewWiFiModule) = [2412; 2437; 2462].
Proof.
  split; [reflexivity|]. split.
  - apply (@channel_commands_decide_the_channel_set sample.lib sample.liveEnv
             [2412; 2437; 2462] ["1, 6"; "200"] NewWiFiModule eq_refl).
  - apply (@channel_commands_decide_the_channel_set sample.lib sample.liveEnv
             [2412; 2437; 2462] ["1, 6"; "200"; "clear"] NewWiFiModule eq_refl).
Defined.

(** C4, as the code has it: setting an access-point filter and then
    clearing it removes the filter and replaces the Channel Set by the
    interface's full supported-frequency set, whatever set had been
    configured; every other field keeps the value it had, and with a
    hopper running the command signals it and returns. *)
Theorem clearing_the_filter_resets_the_channel_set `{Lib} `{Env}
    (all : list Z) (arg : string) (s : Session) (m : WiFiModule) :
  GetSupportedFrequencies InterfaceName = (all, None) ->
  let m1 := (reconMACHandler arg s m).2 in
  let r := reconClearHandler m1 in
  ap r.2 = None
  ∧ stickChan r.2 = 0
  ∧ frequencies r.2 = all
  ∧ r.2 = set_frequencies all (set_stickChan 0 (set_ap None m))
  ∧ (hoppers m ≠ 0%nat -> r.1 = Returned None).
Proof.
  intros Hall m1 r. subst r. unfold reconClearHandler. rewrite Hall.
  cbn [fst snd].
  assert (Hm1 : set_stickChan 0 (set_ap None m1)
                = set_stickChan 0 (set_ap None m)).
  { subst m1. unfold reconMACHandler.
    destruct (ParseMAC arg) as [err|bssid]; [reflexivity|].
    destruct (network_registry.Get _ _); reflexivity. }
  rewrite Hm1. repeat split.
  intros Hhop. unfold sendHopChanges. cbn [hoppers set_frequencies set_stickChan set_ap].
  destruct (hoppers m); [congruence|reflexivity].
Qed.

(** The module is running with its hopper, the Channel Set is configured
    to channel 1, the filter is set on the sample access point and then
    cleared: the Channel Set is now the full supported set. *)
Lemma clearing_the_filter_resets_the_channel_set_witness :
  @GetSupportedFrequencies sample.liveEnv (@InterfaceName sample.liveEnv)
  = ([2412; 2437; 2462], None)
  ∧ frequencies
      (@reconClearHandler sample.liveEnv
         (@reconMACHandler sample.lib "aa:aa:aa:aa:aa:aa" sample.sess
            (@reconChannelHandler sample.lib sample.liveEnv "1"
               (@Start sample.lib sample.liveEnv NewWiFiModule).1.2).2).2).2
    = [2412; 2437; 2462].
Proof.
  split; [reflexivity|].
  apply (@clearing_the_filter_resets_the_channel_set sample.lib sample.liveEnv
           [2412; 2437; 2462] "aa:aa:aa:aa:aa:aa" sample.sess
           (@reconChannelHandler sample.lib sample.liveEnv "1"
              (@Start sample.lib sample.liveEnv NewWiFiModule).1.2).2 eq_refl).
Defined.

(** The Channel Set configured before the filter was set is not the one
    in force after the filter is cleared. *)
Lemma clearing_the_filter_forgets_the_configured_set :
  let m0 := (@Start sample.lib sample.liveEnv NewWiFiModule).1.2 in
  let m1 := (@reconChannelHandler sample.lib sample.liveEnv "1" m0).2 in
  let r2 := @reconMACHandler sample.lib "aa:aa:aa:aa:aa:aa" sample.sess m1 in
  let r3 := @reconClearHandler sample.liveEnv r2.2 in
  frequencies m1 = [2412]
  ∧ r2.1 = Returned None
  ∧ ap r2.2 = Some "aa:aa:aa:aa:aa:aa"
  ∧ stickChan r2.2 = 6
  ∧ frequencies r2.2 = [2412]
  ∧ r3.1 = Returned None
  ∧ frequencies r3.2 = [2412; 2437; 2462]
  ∧ frequencies r3.2 ≠ frequencies m1.
Proof.
  cbv zeta. repeat split; try (vm_compute; reflexivity).
  vm_compute. discriminate.
Qed.

(** C5 at the failing input: [wifi.recon clear] issued while the module is
    not running, so with no hopper to receive, never returns. *)
Lemma recon_clear_blocks_when_not_running :
  Running NewWiFiModule = false
  ∧ hoppers NewWiFiModule = 0%nat
  ∧ (@reconClearHandler sample.liveEnv NewWiFiModule).1 = Blocked
  ∧ (@reconChannelHandler sample.lib sample.liveEnv "clear" NewWiFiModule).1
    = Returned None.
Proof. repeat split. Qed.

(** [wifi.recon clear] sends unconditionally: without a hopper it blocks
    whatever the rest of the state. *)
Lemma reconClearHandler_blocks_without_hopper `{Env} (m : WiFiModule) :
  hoppers m = 0%nat -> (reconClearHandler m).1 = Blocked.
Proof.
  intros Hhop. unfold reconClearHandler.
  destruct (GetSupportedFrequencies InterfaceName) as [freqs err].
  cbn [fst]. unfold sendHopChanges.
  cbn [hoppers set_frequencies set_stickChan set_ap]. rewrite Hhop. reflexivity.
Qed.

(** ** Configure *)

Section CfgLogic.

Context {A B : Type}.

Lemma cfgHoare_bind (P Q : CfgState -> Prop) (c : Cfg A) (k : A -> Cfg B) :
  cfgHoare P c Q -> (∀ a, cfgHoare Q (k a) Q) -> cfgHoare P (cfgBind c k) Q.
Proof.
  intros Hc Hk st HP. unfold cfgBind. specialize (Hc st HP).
  destruct (c st) as [[err|a] st']; cbn in *; [exact Hc|].
  apply Hk. exact Hc.
Qed.

Lemma cfgHoare_ret (Q : CfgState -> Prop) (a : A) : cfgHoare Q (cfgRet a) Q.
Proof. intros st HQ. exact HQ. Qed.

Lemma cfgHoare_fail (Q : CfgState -> Prop) (err : error) :
  cfgHoare Q (@cfgFail A err) Q.
Proof. intros st HQ. exact HQ. Qed.

Lemma cfgHoare_read (Q : CfgState -> Prop) (f : WiFiModule -> A) :
  cfgHoare Q (cfgRead f) Q.
Proof. intros st HQ. exact HQ. Qed.

End CfgLogic.

Lemma cfgHoare_check (Q : CfgState -> Prop) err wrap :
  cfgHoare Q (cfgCheck err wrap) Q.
Proof. intros st HQ. destruct err; exact HQ. Qed.

Lemma cfgHoare_assign (P Q : CfgState -> Prop) f :
  (∀ st, P st -> Q (mkCfgState (f (cfgMod st)) (cfgLog st) (cfgDeferred st))) ->
  cfgHoare P (cfgAssign f) Q.
Proof. intros Hf st HP. apply Hf. exact HP. Qed.

Lemma cfgHoare_call (Q : CfgState -> Prop) ev :
  (∀ st, Q st -> Q (mkCfgState (cfgMod st) (cfgLog st ++ [ev]) (cfgDeferred st))) ->
  cfgHoare Q (cfgCall ev) Q.
Proof. intros Hf st HQ. apply Hf. exact HQ. Qed.

Lemma cfgHoare_defer (Q : CfgState -> Prop) ih :
  (∀ st, Q st -> Q (mkCfgState (cfgMod st) (cfgLog st) (ih :: cfgDeferred st))) ->
  cfgHoare Q (cfgDefer ih) Q.
Proof. intros Hf st HQ. apply Hf. exact HQ. Qed.

(** Breaks a computation into its primitive steps; what is left are the
    conditions on assignments, calls and defers. *)
Ltac cfg_steps :=
  repeat first
    [ apply cfgHoare_ret
    | apply cfgHoare_fail
    | apply cfgHoare_read
    | apply cfgHoare_check
    | apply cfgHoare_bind; [|intros ?]
    | apply cfgHoare_assign
    | apply cfgHoare_call
    | apply cfgHoare_defer
    | match goal with
      | |- cfgHoare _ (let '(_, _) := ?x in _) _ => destruct x
      | |- cfgHoare _ (match ?x with _ => _ end) _ => destruct x
      | |- cfgHoare _ (if ?b then _ else _) _ => destruct b
      end ].

Section Frame.

Context `{Lib} `{Env}.

(** A property of the state that no step [Configure] takes after reading
    the replay-file parameter can break. *)
Variable Q : CfgState -> Prop.
Hypothesis Q_assign :
  ∀ st, Q st ->
    (∀ v, Q (mkCfgState (set_shakesFile v (cfgMod st)) (cfgLog st) (cfgDeferred st)))
    ∧ (∀ v, Q (mkCfgState (set_minRSSI v (cfgMod st)) (cfgLog st) (cfgDeferred st)))
    ∧ (∀ v, Q (mkCfgState (set_handle v (cfgMod st)) (cfgLog st) (cfgDeferred st)))
    ∧ (∀ v, Q (mkCfgState (set_skipBroken v (cfgMod st)) (cfgLog st) (cfgDeferred st)))
    ∧ (∀ v, Q (mkCfgState (set_hopPeriod v (cfgMod st)) (cfgLog st) (cfgDeferred st)))
    ∧ (∀ v, Q (mkCfgState (set_frequencies v (cfgMod st)) (cfgLog st) (cfgDeferred st))).
Hypothesis Q_call :
  ∀ st ev, Q st ->
    Q (mkCfgState (cfgMod st) (cfgLog st ++ [ev]) (cfgDeferred st)).
Hypothesis Q_defer :
  ∀ st ih, Q st ->
    Q (mkCfgState (cfgMod st) (cfgLog st) (ih :: cfgDeferred st)).

Ltac frame_side :=
  try (intros ? HQ;
       first [ apply Q_call; exact HQ
             | apply Q_defer; exact HQ
             | apply (Q_assign _ HQ) ]).

Lemma activateOnce_frame ifName retry :
  cfgHoare Q (activateOnce ifName retry) Q.
Proof. unfold activateOnce. cfg_steps; frame_side. Qed.

Lemma activateLoop_frame fuel ifName retry st r st' :
  activateLoop fuel ifName retry st = Some (r, st') -> Q st -> Q st'.
Proof.
  revert retry st. induction fuel as [|fuel IH]; intros retry st; [discriminate|].
  cbn [activateLoop]. intros Hloop HQ.
  pose proof (activateOnce_frame ifName retry st HQ) as Hone.
  destruct (activateOnce ifName retry st) as [[err|[|]] st1]; cbn in Hone.
  - injection Hloop as <- <-. exact Hone.
  - eapply IH; eassumption.
  - injection Hloop as <- <-. exact Hone.
Qed.

Lemma activateLive_frame ifName : cfgHoare Q (activateLive ifName) Q.
Proof.
  intros st HQ. unfold activateLive.
  destruct (activateLoop 2 ifName 0 st) as [[r st']|] eqn:Hloop; cbn.
  - eapply activateLoop_frame; eassumption.
  - exact HQ.
Qed.

Lemma configureHandle_frame ifName : cfgHoare Q (configureHandle ifName) Q.
Proof.
  unfold configureHandle. apply cfgHoare_bind; [apply cfgHoare_read|intros src].
  destruct (bool_decide (src ≠ "")); [|apply activateLive_frame].
  cfg_steps; frame_side.
Qed.

Lemma configureHopping_frame ifName : cfgHoare Q (configureHopping ifName) Q.
Proof. unfold configureHopping. cfg_steps; frame_side. Qed.

(** With the replay-file parameter assigned so that [Q] holds, [Q] holds
    when the body of [Configure] is over. *)
Lemma ConfigureBody_frame (P : CfgState -> Prop) :
  (∀ st, P st ->
     Q (mkCfgState (set_source (StringParam "wifi.source.file").2 (cfgMod st))
          (cfgLog st) (cfgDeferred st))) ->
  cfgHoare P ConfigureBody Q.
Proof.
  intros Hsource. unfold ConfigureBody.
  apply cfgHoare_bind;
    [|intros ?; apply cfgHoare_bind;
        [apply configureHandle_frame|intros ?; apply configureHopping_frame]].
  unfold configureParams.
  destruct (StringParam "wifi.source.file") as [err v]. cbn [snd] in Hsource.
  apply cfgHoare_bind; [apply cfgHoare_assign; intros st HP; apply Hsource, HP|].
  intros _. cfg_steps; frame_side.
Qed.

End Frame.

Section ConfigureFacts.

Context `{Lib} `{Env}.

Lemma Configure_unfold m :
  Configure m
  = (match (ConfigureBody (mkCfgState m [] [])).1 with
     | inl err => Some err
     | inr _ => None
     end,
     cfgMod (ConfigureBody (mkCfgState m [] [])).2,
     cfgLog (runDeferred (ConfigureBody (mkCfgState m [] [])).2)).
Proof.
  unfold Configure. destruct (ConfigureBody (mkCfgState m [] [])) as [r st].
  reflexivity.
Qed.

(** [Configure] assigns none of the run-state fields. *)
Lemma Configure_sameRunState m : sameRunState m (Configure m).1.2.
Proof.
  rewrite Configure_unfold. cbn [fst snd].
  apply (ConfigureBody_frame (fun st => sameRunState m (cfgMod st))
           ltac:(intros st HQ; repeat split; apply HQ)
           ltac:(intros st ev HQ; exact HQ)
           ltac:(intros st ih HQ; exact HQ)
           (fun st => cfgMod st = m)).
  - intros st ->. repeat split.
  - reflexivity.
Qed.

(** [mod.source] is the replay-file parameter as soon as [Configure] has
    read it, whether or not [Configure] goes on to fail. *)
Lemma Configure_source m :
  source (Configure m).1.2 = (StringParam "wifi.source.file").2.
Proof.
  rewrite Configure_unfold. cbn [fst snd].
  apply (ConfigureBody_frame
           (fun st => source (cfgMod st) = (StringParam "wifi.source.file").2)
           ltac:(intros st HQ; repeat split; intros; exact HQ)
           ltac:(intros st ev HQ; exact HQ)
           ltac:(intros st ih HQ; exact HQ)
           (fun st => True)).
  - intros st _. reflexivity.
  - exact I.
Qed.

Lemma Start_unfold m :
  Start m
  = match (Configure m).1.1 with
    | Some err => (Some err, (Configure m).1.2, (Configure m).2)
    | None =>
        (None, workerBegin (set_Started true (Configure m).1.2), (Configure m).2)
    end.
Proof.
  unfold Start. destruct (Configure m) as [[[err|] m'] log]; reflexivity.
Qed.

End ConfigureFacts.

(** C10, as the code has it: when [Configure] returns an error, [Start]
    returns that error and starts nothing: the running flag, the
    goroutines, the wait groups and the packet channel are as they were.
    The fields [Configure] had assigned before it failed keep their new
    values. *)
Theorem failed_Configure_starts_nothing `{Lib} `{Env}
    (m m' : WiFiModule) (err : error) (log : list Event) :
  Configure m = (Some err, m', log) ->
  Start m = (Some err, m', log)
  ∧ Running m' = Running m
  ∧ loops m' = loops m
  ∧ hoppers m' = hoppers m
  ∧ pruners m' = pruners m
  ∧ pktSourceChan m' = pktSourceChan m
  ∧ sameRunState m m'.
Proof.
  intros Hcfg. pose proof (Configure_sameRunState m) as Hsame.
  rewrite Hcfg in Hsame. cbn [fst snd] in Hsame.
  split; [unfold Start; rewrite Hcfg; reflexivity|].
  pose proof Hsame as (Hs & Hh & Hp & Hl & _ & _ & Hc & _).
  unfold Running. repeat split; assumption || apply Hsame.
Qed.

(** The replay file cannot be opened: [Start] fails and nothing runs. *)
Lemma failed_Configure_starts_nothing_witness :
  @Configure sample.lib sample.missingFileEnv NewWiFiModule
  = (Some "error while opening file missing.pcap: No such file or directory",
     set_handle None (set_minRSSI (-200) (set_shakesFile EmptyString
       (set_source "missing.pcap" NewWiFiModule))),
     [EvOpenOffline "missing.pcap"])
  ∧ Running (set_handle None (set_minRSSI (-200) (set_shakesFile EmptyString
       (set_source "missing.pcap" NewWiFiModule)))) = false.
Proof.
  split; [reflexivity|].
  apply (@failed_Configure_starts_nothing sample.lib sample.missingFileEnv
           NewWiFiModule _ _ _ eq_refl).
Defined.

(** The module is not left as it was: the failed [Start] has already
    stored the replay-file parameter in [mod.source]. *)
Lemma failed_Start_changes_source :
  (@Start sample.lib sample.missingFileEnv NewWiFiModule).1.1
  = Some "error while opening file missing.pcap: No such file or directory"
  ∧ source NewWiFiModule = EmptyString
  ∧ source (@Start sample.lib sample.missingFileEnv NewWiFiModule).1.2
    = "missing.pcap"
  ∧ (@Start sample.lib sample.missingFileEnv NewWiFiModule).1.2 ≠ NewWiFiModule.
Proof. repeat split. discriminate. Qed.

(** C9, as the code has it: [Start] launches a channel hopper exactly when
    [Configure] succeeded, the replay-file parameter it read is empty and
    the channel is 0; [mod.source] is that parameter from then on, and a
    hopper launched earlier is not touched. *)
Theorem Start_launches_hopper_only_for_live_source `{Lib} `{Env}
    (m : WiFiModule) :
  hoppers (Start m).1.2
  = (if bool_decide ((Start m).1.1 = None ∧ channel m = 0
                     ∧ (StringParam "wifi.source.file").2 = EmptyString)
     then S (hoppers m) else hoppers m)
  ∧ source (Start m).1.2 = (StringParam "wifi.source.file").2
  ∧ channel (Start m).1.2 = channel m.
Proof.
  pose proof (Configure_sameRunState m) as (_ & Hh & _ & _ & _ & _ & _ & _ & Hc & _).
  pose proof (Configure_source m) as Hsrc.
  rewrite Start_unfold.
  destruct ((Configure m).1.1) as [err|]; cbn [fst snd].
  - rewrite bool_decide_eq_false_2 by (intros [Hn _]; discriminate).
    repeat split; assumption.
  - set (m1 := (Configure m).1.2) in *.
    assert (Hcond : (channel (set_Started true m1) =? 0)
                    && bool_decide (source (set_Started true m1) = EmptyString)
                    = bool_decide (@None error = None ∧ channel m = 0
                        ∧ (StringParam "wifi.source.file").2 = EmptyString)).
    { cbn [channel source set_Started]. rewrite Hc, Hsrc.
      apply Bool.eq_iff_eq_true.
      rewrite andb_true_iff, Z.eqb_eq, !bool_decide_eq_true. tauto. }
    unfold workerBegin. rewrite Hcond. clear Hcond.
    destruct (bool_decide (@None error = None ∧ _));
      cbn; repeat split; congruence.
Qed.

(** A hopper launched by a first [Start] on the live interface is still
    there after a second [Start] that names a replay file, and
    [mod.source] is no longer empty. *)
Lemma hopper_outlives_change_of_source :
  let m := @runStarts sample.lib [sample.liveEnv; sample.missingFileEnv]
             NewWiFiModule in
  hoppers m = 1%nat ∧ source m = "missing.pcap" ∧ channel m = 0
  ∧ ¬ (hoppers m ≠ 0%nat -> source m = EmptyString ∧ channel m = 0).
Proof.
  cbv zeta. repeat split.
  intros Himp. destruct Himp as [Hsrc _]; [discriminate|discriminate Hsrc].
Qed.

(** ** The activation loop *)

Section Activation.
Context `{Lib} `{Env}.

Lemma activateOnce_eval ifName retry ih h e st :
  prepared ifName retry ih ->
  Activate retry ih = (h, e) ->
  activateOnce ifName retry st
  = let st1 := mkCfgState (set_handle h (cfgMod st))
                 (cfgLog st ++ attemptCalls ifName ih) (ih :: cfgDeferred st) in
    match e with
    | None => (inr false, st1)
    | Some e =>
        if (retry =? 0) && bool_decide (e = ErrIfaceNotUp) then
          let st2 := mkCfgState (cfgMod st1)
                       (cfgLog st1 ++ [EvActivateInterface ifName])
                       (cfgDeferred st1) in
          match ActivateInterface ifName with
          | Some e' => (inl e', st2)
          | None => (inr true, st2)
          end
        else (inl ("error while activating handle: " +:+ e), st1)
    end.
Proof.
  intros (Hnew & Hmon & Hsnap & Htime) Hact.
  unfold activateOnce, cfgBind, cfgCall, cfgDefer, cfgAssign, cfgCheck, cfgRet, cfgFail.
  cbn. rewrite Hnew. cbn. rewrite Hmon. cbn. rewrite Hsnap. cbn. rewrite Htime. cbn.
  rewrite Hact. cbn. unfold attemptCalls. rewrite <- !app_assoc. cbn.
  destruct e as [e|]; [|reflexivity].
  destruct ((retry =? 0) && bool_decide (e = ErrIfaceNotUp)); cbn; [|reflexivity].
  destruct (ActivateInterface ifName); cbn; rewrite <- ?app_assoc; reflexivity.
Qed.

Lemma ConfigureBody_live m :
  liveParams ->
  ∃ m1, sameRunState m m1
    ∧ ConfigureBody (mkCfgState m [] [])
      = cfgBind (activateLive InterfaceName)
          (fun _ => configureHopping InterfaceName) (mkCfgState m1 [] []).
Proof.
  intros (Hsrc & Hshk & Hexp & Hrssi).
  unfold ConfigureBody, configureParams. rewrite Hsrc.
  destruct (StringParam "wifi.handshakes.file") as [e1 sf]. cbn in Hshk, Hexp. subst e1.
  destruct (IntParam "wifi.rssi.min") as [e2 rssi]. cbn in Hrssi. subst e2.
  destruct (decide (sf = "")) as [->|Hsf].
  - eexists. split; [|reflexivity]. repeat split.
  - specialize (Hexp Hsf). destruct (Expand sf) as [sf' e3] eqn:Hex. cbn in Hexp. subst e3.
    unfold cfgBind, cfgAssign, cfgCheck, cfgRet, cfgRead, configureHandle.
    cbv beta iota zeta.
    rewrite (bool_decide_eq_true_2 (sf ≠ "")) by done.
    eexists. split; [|reflexivity]. repeat split.
Qed.

(** One iteration makes at most one activation call; past the first
    iteration it never brings the interface up and never asks for another
    iteration. *)
Lemma activateOnce_bounds ifName retry st :
  ∃ evs, cfgLog (activateOnce ifName retry st).2 = cfgLog st ++ evs
    ∧ (countOf isActivate evs ≤ 1)%nat
    ∧ (countOf isBringUp evs ≤ 1)%nat
    ∧ (retry ≠ 0 -> countOf isBringUp evs = 0%nat
                    ∧ (activateOnce ifName retry st).1 ≠ inr true).
Proof.
  unfold activateOnce, cfgBind, cfgCall, cfgDefer, cfgAssign, cfgCheck, cfgRet, cfgFail.
  cbv beta iota zeta. cbn [cfgLog cfgMod cfgDeferred fst snd].
  destruct (NewInactiveHandle retry ifName) as [e|ih]; cbn [cfgLog cfgMod cfgDeferred fst snd].
  { eexists. split; [reflexivity|]. cbn. repeat split; try lia. discriminate. }
  destruct (SetRFMon retry ih true); cbn [cfgLog cfgMod cfgDeferred fst snd].
  { eexists. split; [rewrite <- !app_assoc; reflexivity|]. cbn. repeat split; try lia. discriminate. }
  destruct (SetSnapLen retry ih 65536); cbn [cfgLog cfgMod cfgDeferred fst snd].
  { eexists. split; [rewrite <- !app_assoc; reflexivity|]. cbn. repeat split; try lia. discriminate. }
  destruct (SetTimeout retry ih readTimeout); cbn [cfgLog cfgMod cfgDeferred fst snd].
  { eexists. split; [rewrite <- !app_assoc; reflexivity|]. cbn. repeat split; try lia. discriminate. }
  destruct (Activate retry ih) as [h [e|]]; cbn [cfgLog cfgMod cfgDeferred fst snd].
  2:{ eexists. split; [rewrite <- !app_assoc; reflexivity|]. cbn. repeat split; try lia. discriminate. }
  destruct (retry =? 0) eqn:Hr; cbn [andb].
  2:{ eexists. split; [rewrite <- !app_assoc; reflexivity|]. cbn. repeat split; try lia. discriminate. }
  apply Z.eqb_eq in Hr.
  destruct (bool_decide (e = ErrIfaceNotUp)); cbn [cfgLog cfgMod cfgDeferred fst snd].
  2:{ eexists. split; [rewrite <- !app_assoc; reflexivity|]. cbn. repeat split; try lia. }
  destruct (ActivateInterface ifName); cbn [cfgLog cfgMod cfgDeferred fst snd].
  all: eexists; (split; [rewrite <- !app_assoc; reflexivity|]); cbn; repeat split; try lia.
Qed.

Lemma countOf_app kind l1 l2 :
  countOf kind (l1 ++ l2) = (countOf kind l1 + countOf kind l2)%nat.
Proof. unfold countOf. rewrite List.filter_app, length_app. reflexivity. Qed.

(** Two iterations always suffice: more fuel changes nothing. *)
Lemma activateLoop_two fuel ifName st :
  activateLoop (S (S fuel)) ifName 0 st = activateLoop 2 ifName 0 st
  ∧ is_Some (activateLoop 2 ifName 0 st).
Proof.
  cbn [activateLoop].
  destruct (activateOnce ifName 0 st) as [[err|[|]] st1].
  - split; [reflexivity|eauto].
  - pose proof (activateOnce_bounds ifName (0 + 1) st1) as (evs & _ & _ & _ & Hnext).
    destruct (Hnext ltac:(lia)) as [_ Hne].
    destruct (activateOnce ifName (0 + 1) st1) as [[err|[|]] st2];
      cbn [fst] in Hne; [|congruence|].
    + split; [reflexivity|eauto].
    + split; [reflexivity|eauto].
  - split; [reflexivity|eauto].
Qed.

End Activation.

Section LiveConfigure.

Context `{Lib} `{Env}.

Lemma countOf_cleanups l :
  countOf isActivate (EvCleanUp <$> l) = 0%nat
  ∧ countOf isBringUp (EvCleanUp <$> l) = 0%nat.
Proof. induction l as [|ih l IH]; [split; reflexivity|exact IH]. Qed.

(** The last part of [Configure] neither activates nor brings the
    interface up, and leaves the handle alone. *)
Lemma configureHopping_keeps ifName (a b : nat) (h : option Handle) :
  cfgHoare (fun st => countOf isActivate (cfgLog st) = a
                      ∧ countOf isBringUp (cfgLog st) = b
                      ∧ handle (cfgMod st) = h)
    (configureHopping ifName)
    (fun st => countOf isActivate (cfgLog st) = a
               ∧ countOf isBringUp (cfgLog st) = b
               ∧ handle (cfgMod st) = h).
Proof.
  unfold configureHopping. cfg_steps.
  all: cbv beta; intros st HQ; destruct HQ as (Ha & Hb & Hh); cbn [cfgLog cfgMod];
    rewrite ?countOf_app; cbn; repeat split; try assumption; lia.
Qed.

(** [Start] returns what [Configure] returns, with its log and handle. *)
Lemma Start_of_Configure m :
  (Start m).1.1 = (Configure m).1.1
  ∧ (Start m).2 = (Configure m).2
  ∧ handle (Start m).1.2 = handle (Configure m).1.2
  ∧ ((Configure m).1.1 ≠ None -> (Start m).1.2 = (Configure m).1.2).
Proof.
  rewrite Start_unfold. destruct ((Configure m).1.1) as [err|]; cbn.
  - repeat split.
  - split; [reflexivity|]. split; [reflexivity|].
    split; [|intros Hne; congruence].
    unfold workerBegin. destruct (_ && _); reflexivity.
Qed.

(** With live parameters, [Configure] is the activation loop followed by
    the last part, started from a module that differs from [m] in
    configuration fields only. *)
Lemma Configure_live m :
  liveParams ->
  ∃ m1, sameRunState m m1 ∧
    ∀ r st, activateLive InterfaceName (mkCfgState m1 [] []) = (r, st) ->
      match r with
      | inl err =>
          Configure m
          = (Some err, cfgMod st, cfgLog st ++ (EvCleanUp <$> cfgDeferred st))
      | inr _ =>
          countOf isActivate (Configure m).2 = countOf isActivate (cfgLog st)
          ∧ countOf isBringUp (Configure m).2 = countOf isBringUp (cfgLog st)
          ∧ handle (Configure m).1.2 = handle (cfgMod st)
      end.
Proof.
  intros Hlive. destruct (ConfigureBody_live m Hlive) as (m1 & Hsame & Hbody).
  exists m1. split; [exact Hsame|]. intros r st Hact.
  assert (Hrun : cfgBind (activateLive InterfaceName)
                   (fun _ => configureHopping InterfaceName)
                   (mkCfgState m1 [] [])
                 = match r with
                   | inl err => (inl err, st)
                   | inr _ => configureHopping InterfaceName st
                   end)
    by (unfold cfgBind; rewrite Hact; destruct r; reflexivity).
  rewrite Configure_unfold, Hbody, Hrun.
  destruct r as [err|[]].
  - reflexivity.
  - pose proof (configureHopping_keeps InterfaceName _ _ _ st
                  (conj eq_refl (conj eq_refl eq_refl))) as (Ha & Hb & Hh).
    destruct (configureHopping InterfaceName st) as [r2 st2].
    cbn [fst snd runDeferred cfgLog cfgMod] in *.
    rewrite !countOf_app.
    destruct (countOf_cleanups (cfgDeferred st2)) as [-> ->].
    rewrite Ha, Hb, Hh. repeat split; lia.
Qed.

End LiveConfigure.

(** C6: on the live path, when the first activation fails with
    [Interface Not Up] the interface is brought up exactly once and, if
    that succeeds, activation is attempted exactly once more; the handle
    is then the one that attempt returned.  Any other failure of the first
    activation, a failure to bring the interface up, and a failure of the
    second activation (even with [Interface Not Up] again) make [Start]
    return the error without marking the module running. *)
Theorem interface_down_is_retried_once `{Lib} `{Env}
    (m : WiFiModule) (ih0 : InactiveHandle) (h0 : option Handle) (e0 : error) :
  liveParams ->
  prepared InterfaceName 0 ih0 ->
  Activate 0 ih0 = (h0, Some e0) ->
  let err := (Start m).1.1 in
  let m' := (Start m).1.2 in
  let log := (Start m).2 in
  (e0 ≠ ErrIfaceNotUp ->
     err = Some ("error while activating handle: " +:+ e0)
     ∧ countOf isBringUp log = 0%nat
     ∧ countOf isActivate log = 1%nat
     ∧ Running m' = Running m)
  ∧ (e0 = ErrIfaceNotUp ->
     countOf isBringUp log = 1%nat
     ∧ (countOf isActivate log ≤ 2)%nat
     ∧ (∀ e, ActivateInterface InterfaceName = Some e ->
          err = Some e
          ∧ countOf isActivate log = 1%nat
          ∧ Running m' = Running m)
     ∧ (ActivateInterface InterfaceName = None ->
        ∀ ih1 h1 e1,
          prepared InterfaceName 1 ih1 ->
          Activate 1 ih1 = (h1, e1) ->
          countOf isActivate log = 2%nat
          ∧ handle m' = h1
          ∧ (∀ e, e1 = Some e ->
               err = Some ("error while activating handle: " +:+ e)
               ∧ Running m' = Running m))).
Proof.
  intros Hlive Hprep Hact err m' log.
  destruct (Configure_live m Hlive) as (m1 & Hsame & Hcfg).
  pose proof (Start_of_Configure m) as (Herr & Hlog & Hhandle & Hm).
  assert (Hfatal : ∀ e mC lC, Configure m = (Some e, mC, lC) ->
            err = Some e ∧ log = lC ∧ Running m' = Running m).
  { intros e mC lC HC. subst err log m'. rewrite Herr, Hlog, Hm.
    - pose proof (Configure_sameRunState m) as (Hs & _).
      rewrite HC in *. cbn. repeat split. exact Hs.
    - rewrite HC. discriminate. }
  set (st0 := mkCfgState m1 [] []) in *.
  pose proof (activateOnce_eval InterfaceName 0 ih0 h0 (Some e0) st0 Hprep Hact) as H1.
  cbv zeta in H1. cbn [Z.eqb andb] in H1.
  split.
  - intros Hne. rewrite (bool_decide_eq_false_2 _ Hne) in H1.
    specialize (Hcfg _ _ ltac:(unfold activateLive; cbn [activateLoop]; rewrite H1; reflexivity)).
    cbn beta iota in Hcfg.
    destruct (Hfatal _ _ _ Hcfg) as (-> & -> & ->).
    repeat split.
  - intros ->. rewrite bool_decide_eq_true_2 in H1 by reflexivity.
    destruct (ActivateInterface InterfaceName) as [eUp|] eqn:Hup.
    + specialize (Hcfg _ _ ltac:(unfold activateLive; cbn [activateLoop]; rewrite H1; reflexivity)).
      cbn beta iota in Hcfg.
      destruct (Hfatal _ _ _ Hcfg) as (-> & -> & ->).
      split; [reflexivity|]. split; [cbn; lia|]. split.
      * intros e He. injection He as <-. repeat split.
      * discriminate.
    + cbn [cfgMod cfgLog cfgDeferred] in H1.
      set (st2 := mkCfgState (set_handle h0 (cfgMod st0))
                    ((cfgLog st0 ++ attemptCalls InterfaceName ih0)
                       ++ [EvActivateInterface InterfaceName])
                    (ih0 :: cfgDeferred st0)) in H1.
      assert (Hloop : activateLive InterfaceName st0
                      = match activateOnce InterfaceName (0 + 1) st2 with
                        | (inl err2, st') => (inl err2, st')
                        | (inr false, st') => (inr tt, st')
                        | (inr true, st') =>
                            (inl "activation loop did not finish", st0)
                        end).
      { unfold activateLive. cbn [activateLoop]. rewrite H1.
        destruct (activateOnce InterfaceName (0 + 1) st2) as [[?|[|]] ?];
          reflexivity. }
      pose proof (activateOnce_bounds InterfaceName (0 + 1) st2)
        as (evs & Hevs & Hact1 & _ & Hnext).
      destruct (Hnext ltac:(lia)) as [Hup0 Hnocont].
      destruct (activateOnce InterfaceName (0 + 1) st2) as [[err2|[|]] st3]
        eqn:Hsecond; cbn [fst snd] in *; [|congruence|].
      * specialize (Hcfg _ _ Hloop). cbn beta iota in Hcfg.
        destruct (Hfatal _ _ _ Hcfg) as (Herr2 & Hlog2 & Hrun2).
        assert (Hups : countOf isBringUp log = 1%nat).
        { rewrite Hlog2, Hevs, !countOf_app.
          rewrite (proj2 (countOf_cleanups _)), Hup0. reflexivity. }
        assert (Hacts : countOf isActivate log = S (countOf isActivate evs)).
        { rewrite Hlog2, Hevs, !countOf_app.
          rewrite (proj1 (countOf_cleanups _)). cbn. lia. }
        split; [exact Hups|]. split; [lia|]. split; [intros e; discriminate|].
        intros _ ih1 h1 e1 Hprep1 Hact1'.
        pose proof (activateOnce_eval InterfaceName (0 + 1) ih1 h1 e1 st2
                      Hprep1 Hact1') as H2.
        rewrite Hsecond in H2. cbv zeta in H2.
        destruct e1 as [e|]; [|discriminate H2].
        cbn [Z.add Z.eqb andb Pos.add] in H2. injection H2 as -> ->.
        change (cfgLog st2 ++ attemptCalls InterfaceName ih1 = cfgLog st2 ++ evs)
          in Hevs.
        apply app_inv_head in Hevs. subst evs.
        split; [rewrite Hacts; reflexivity|].
        split; [subst m'; rewrite Hhandle, Hcfg; reflexivity|].
        intros e' He'. injection He' as <-. split; [exact Herr2|exact Hrun2].
      * specialize (Hcfg _ _ Hloop). cbn beta iota in Hcfg.
        destruct Hcfg as (Ha & Hb & Hh).
        assert (Hups : countOf isBringUp log = 1%nat).
        { subst log. rewrite Hlog, Hb, Hevs, !countOf_app, Hup0. reflexivity. }
        assert (Hacts : countOf isActivate log = S (countOf isActivate evs)).
        { subst log. rewrite Hlog, Ha, Hevs, !countOf_app. cbn. lia. }
        split; [exact Hups|]. split; [lia|]. split; [intros e; discriminate|].
        intros _ ih1 h1 e1 Hprep1 Hact1'.
        pose proof (activateOnce_eval InterfaceName (0 + 1) ih1 h1 e1 st2
                      Hprep1 Hact1') as H2.
        rewrite Hsecond in H2. cbv zeta in H2.
        destruct e1 as [e|]; [discriminate H2|].
        injection H2 as ->.
        change (cfgLog st2 ++ attemptCalls InterfaceName ih1 = cfgLog st2 ++ evs)
          in Hevs.
        apply app_inv_head in Hevs. subst evs.
        split; [rewrite Hacts; reflexivity|].
        split; [subst m'; rewrite Hhandle, Hh; reflexivity|].
        intros e' He'. discriminate He'.
Qed.

(** The interface is down at the first activation, comes up, and the
    second activation succeeds. *)
Lemma interface_down_is_retried_once_witness :
  @liveParams sample.downEnv
  ∧ @prepared sample.downEnv "wlan0" 0 0%nat
  ∧ @Activate sample.downEnv 0 0%nat = (None, Some ErrIfaceNotUp)
  ∧ countOf isBringUp (@Start sample.lib sample.downEnv NewWiFiModule).2 = 1%nat
  ∧ countOf isActivate (@Start sample.lib sample.downEnv NewWiFiModule).2 = 2%nat
  ∧ handle (@Start sample.lib sample.downEnv NewWiFiModule).1.2 = Some 11%nat.
Proof.
  assert (HL : @liveParams sample.downEnv) by (repeat split).
  assert (HP0 : @prepared sample.downEnv "wlan0" 0 0%nat) by (repeat split).
  assert (HP1 : @prepared sample.downEnv "wlan0" 1 1%nat) by (repeat split).
  pose proof (@interface_down_is_retried_once sample.lib sample.downEnv
                NewWiFiModule 0%nat None ErrIfaceNotUp HL HP0 eq_refl)
    as [_ Hdown].
  destruct (Hdown eq_refl) as (Hup & _ & _ & Hretry).
  destruct (Hretry eq_refl 1%nat (Some 11%nat) None HP1 eq_refl)
    as (Hact & Hhandle & _).
  repeat split; assumption.
Defined.

(** ** Stop and the capture loop *)

Section Process.

Context `{Decoder} `{Discovery}.

(** Case analysis of one step of the process. *)
Ltac step_cases Hstep :=
  unfold sysStep, stopStep, loopStep, sourceStep, sequencerStep in Hstep;
  repeat match type of Hstep with
         | context [match ?x with _ => _ end] => destruct x eqn:?
         end;
  cbn in Hstep; try discriminate Hstep;
  injection Hstep as <- <-.

(** A turn of the loop on an item is the loop function on that item
    alone. *)
Lemma loopStep_captureLoop s item rest :
  loops (sysMod s) ≠ 0%nat ->
  sysChan s = item :: rest ->
  ∃ ev s',
    loopStep s = Some (ev, s')
    ∧ sysChan s' = rest
    ∧ captureLoop (sysMod s) [(Running (sysMod s), item)] (sysSession s)
      = (if Running (sysMod s) then Exhausted else Break, [], sysSession s')
    ∧ sysMod s'
      = (if Running (sysMod s) then sysMod s else workerEnd (sysMod s)).
Proof.
  intros Hloops Hchan. unfold loopStep. rewrite Hchan.
  destruct (Nat.eqb_spec (loops (sysMod s)) 0) as [Hz|_]; [contradiction|].
  cbn [captureLoop].
  destruct (Running (sysMod s)); cbn [negb].
  - destruct item as [p|]; eexists _, _; repeat split.
  - eexists _, _. repeat split.
Qed.

Lemma sysStep_flagClearedForNil a s ev s' :
  sysStep a s = Some (ev, s') -> flagClearedForNil s -> flagClearedForNil s'.
Proof.
  intros Hstep [Hnil Hpc]. unfold flagClearedForNil in *.
  destruct a; step_cases Hstep; cbn [sysChan sysMod sysPc] in *;
    unfold Running in *; cbn [Started set_Started workerEnd set_writes
      set_pktSourceChanClosed set_loops set_reads] in *.
  all: try (split; [intros Hin|intros Hne]).
  all: try reflexivity.
  all: try (apply Hpc; congruence).
  all: try (apply Hnil; assumption).
  all: try (apply Hnil; rewrite ?Heql in *;
            first [ exact Hin
                  | apply elem_of_cons; right; exact Hin
                  | apply elem_of_app in Hin as [Hin|Hin];
                    [exact Hin
                    |apply list_elem_of_singleton in Hin; discriminate] ]).
Qed.

(** Along an execution every step is an enabled step of the process taken
    in a state in which the flag is cleared for nil items. *)
Lemma run_flagClearedForNil sched : ∀ s tr s',
  run sched s = Some (tr, s') ->
  flagClearedForNil s ->
  Forall (λ e, flagClearedForNil e.1.2
               ∧ ∃ a, sysStep a e.1.2 = Some (e.1.1, e.2)) tr
  ∧ flagClearedForNil s'.
Proof.
  induction sched as [|a sched IH]; intros s tr s' Hrun Hinv; cbn [run] in Hrun.
  - injection Hrun as <- <-. split; [constructor|exact Hinv].
  - destruct (sysStep a s) as [[ev s1]|] eqn:Hstep; [|discriminate].
    destruct (run sched s1) as [[tr1 s2]|] eqn:Hrest; [|discriminate].
    injection Hrun as <- <-.
    destruct (IH _ _ _ Hrest (sysStep_flagClearedForNil _ _ _ _ Hstep Hinv))
      as [Hall Hend].
    split; [|exact Hend]. constructor; [|exact Hall].
    split; [exact Hinv|]. exists a. exact Hstep.
Qed.

(** A nil item is in the channel only if it was there before or [Stop]
    has just queued it, the channel being open. *)
Lemma sysStep_nil_origin a s ev s' :
  sysStep a s = Some (ev, s') ->
  None ∈ sysChan s' ->
  None ∈ sysChan s ∨ (ev = ByStop StSentinel ∧ sysChanClosed s = false).
Proof.
  intros Hstep Hin.
  destruct a; step_cases Hstep; cbn [sysChan] in Hin;
    try (left; exact Hin);
    try (right; split; [reflexivity|first [assumption|reflexivity]]).
  all: try (left; rewrite ?Heql in *; apply elem_of_cons; right; exact Hin).
  all: try (left; apply elem_of_app in Hin as [Hin|Hin];
            [exact Hin|apply list_elem_of_singleton in Hin; discriminate]).
  all: try (inversion Hin; fail).
Qed.

Lemma run_nil_origin sched : ∀ s tr s',
  run sched s = Some (tr, s') ->
  ∀ e, e ∈ tr -> None ∈ sysChan e.1.2 ->
  None ∈ sysChan s
  ∨ ∃ b b', (ByStop StSentinel, b, b') ∈ tr ∧ sysChanClosed b = false.
Proof.
  induction sched as [|a sched IH]; intros s tr s' Hrun e He Hnil;
    cbn [run] in Hrun.
  - injection Hrun as <- <-. inversion He.
  - destruct (sysStep a s) as [[ev s1]|] eqn:Hstep; [|discriminate].
    destruct (run sched s1) as [[tr1 s2]|] eqn:Hrest; [|discriminate].
    injection Hrun as <- <-.
    apply elem_of_cons in He as [->|He]; [left; exact Hnil|].
    destruct (IH _ _ _ Hrest e He Hnil) as [Hin|(b & b' & Hb & Hopen)].
    + destruct (sysStep_nil_origin _ _ _ _ Hstep Hin) as [Hs|[-> Hopen]];
        [left; exact Hs|].
      right. exists s, s1. split; [apply elem_of_cons; left; reflexivity|].
      exact Hopen.
    + right. exists b, b'. split; [apply elem_of_cons; right; exact Hb|].
      exact Hopen.
Qed.

(** Once the closed flag is set, nothing resets it and [Stop] queues no
    sentinel. *)
Lemma sysStep_closed_flag a s ev s' :
  sysStep a s = Some (ev, s') ->
  pktSourceChanClosed (sysMod s) = true ->
  pktSourceChanClosed (sysMod s') = true ∧ ev ≠ ByStop StSentinel.
Proof.
  intros Hstep Hflag.
  destruct a; step_cases Hstep; cbn [sysMod]; split;
    try discriminate; try exact Hflag; try reflexivity.
  all: rewrite Hflag in *; discriminate.
Qed.

Lemma run_closed_flag sched : ∀ s tr s',
  run sched s = Some (tr, s') ->
  pktSourceChanClosed (sysMod s) = true ->
  ByStop StSentinel ∉ eventsOf tr.
Proof.
  induction sched as [|a sched IH]; intros s tr s' Hrun Hflag;
    cbn [run] in Hrun.
  - injection Hrun as <- <-. intros Hin. inversion Hin.
  - destruct (sysStep a s) as [[ev s1]|] eqn:Hstep; [|discriminate].
    destruct (run sched s1) as [[tr1 s2]|] eqn:Hrest; [|discriminate].
    injection Hrun as <- <-.
    destruct (sysStep_closed_flag _ _ _ _ Hstep Hflag) as [Hflag1 Hev].
    unfold eventsOf. cbn [fmap list_fmap fst].
    intros [Heq|Hin]%elem_of_cons; [congruence|].
    exact (IH _ _ _ Hrest Hflag1 Hin).
Qed.

End Process.

(** C8: the nil item is the shutdown signal of the capture loop.  In every
    execution that starts when [Stop] has not yet run and no nil item is
    queued, a nil item the loop receives is never passed over and never
    run through the loop body: the loop breaks on it, with the session as
    it was, and the worker signs off.  Such an item was queued by [Stop],
    after it cleared the running flag and on a channel the source had not
    closed.  The loop ends by exhaustion, the other way out, only on a
    channel that the source has closed and that is drained. *)
Theorem sentinel_ends_the_capture_loop `{Decoder} `{Discovery}
    (s0 s : Sys) (sched : list Actor) (tr : list (ProcEvent * Sys * Sys)) :
  sysPc s0 = PcSetRunning ->
  None ∉ sysChan s0 ->
  run sched s0 = Some (tr, s) ->
  (∀ ev a a', (ByLoop ev, a, a') ∈ tr -> head (sysChan a) = Some None ->
     ev = LpBreak None
     ∧ Running (sysMod a) = false
     ∧ sysSession a' = sysSession a
     ∧ sysMod a' = workerEnd (sysMod a)
     ∧ ∃ b b', (ByStop StSentinel, b, b') ∈ tr
               ∧ Running (sysMod b) = false
               ∧ sysChanClosed b = false
               ∧ sysChan b' = sysChan b ++ [None])
  ∧ (ByLoop LpSkippedNil ∉ eventsOf tr)
  ∧ (∀ a a', (ByLoop LpExhausted, a, a') ∈ tr ->
       sysChanClosed a = true ∧ sysChan a = []).
Proof.
  intros Hpc Hnil Hrun.
  assert (Hinv0 : flagClearedForNil s0).
  { split; [intros Hin; destruct (Hnil Hin)|intros Hne; congruence]. }
  destruct (run_flagClearedForNil _ _ _ _ Hrun Hinv0) as [Hall _].
  rewrite Forall_forall in Hall.
  split; [|split].
  - intros ev a a' Hin Hhead.
    destruct (Hall _ Hin) as [[Hflag Hpast] [actor Hstep]].
    cbn [fst snd] in Hflag, Hpast, Hstep.
    destruct (sysChan a) as [|item rest] eqn:Hchan; [discriminate|].
    injection Hhead as ->.
    specialize (Hflag ltac:(apply elem_of_cons; left; reflexivity)).
    assert (Horigin : ∃ b b', (ByStop StSentinel, b, b') ∈ tr
                              ∧ sysChanClosed b = false).
    { destruct (run_nil_origin _ _ _ _ Hrun _ Hin) as [Hs0|Hb].
      - cbn [fst snd]. rewrite Hchan. apply elem_of_cons. left. reflexivity.
      - destruct (Hnil Hs0).
      - exact Hb. }
    destruct Horigin as (b & b' & Hb & Hopen).
    assert (Hsent : Running (sysMod b) = false
                    ∧ sysChan b' = sysChan b ++ [None]).
    { destruct (Hall _ Hb) as [[_ Hpastb] [actorb Hstepb]].
      cbn [fst snd] in Hpastb, Hstepb.
      destruct actorb; unfold sysStep in Hstepb;
        [|destruct (loopStep b) as [[]|]; discriminate
         |destruct (sourceStep frame b); discriminate
         |destruct (sequencerStep starts b); discriminate].
      unfold stopStep in Hstepb.
      destruct (sysPc b) eqn:Hpcb; cbn in Hstepb;
        repeat match type of Hstepb with
               | context [match ?x with _ => _ end] => destruct x eqn:?
               end;
        cbn in Hstepb; try discriminate Hstepb.
      injection Hstepb as <-. split; [|reflexivity].
      apply Hpastb. congruence. }
    destruct Hsent as [Hrunb Hchanb].
    destruct actor; unfold sysStep in Hstep;
      [destruct (stopStep a) as [[]|]; discriminate
      |
      |destruct (sourceStep frame a); discriminate
      |destruct (sequencerStep starts a); discriminate].
    unfold loopStep in Hstep. rewrite Hchan, Hflag in Hstep.
    destruct (loops (sysMod a) =? 0)%nat; [discriminate|].
    cbn in Hstep. injection Hstep as <- <-.
    split; [reflexivity|]. split; [exact Hflag|].
    split; [reflexivity|]. split; [reflexivity|].
    exists b, b'. repeat split; assumption.
  - unfold eventsOf. intros Hin.
    apply list_elem_of_fmap in Hin as ([[ev a] a'] & Hev & Hin).
    cbn [fst] in Hev. subst ev.
    destruct (Hall _ Hin) as [[Hflag _] [actor Hstep]].
    cbn [fst snd] in Hflag, Hstep.
    destruct actor; unfold sysStep in Hstep;
      [destruct (stopStep a) as [[]|]; discriminate
      |
      |destruct (sourceStep frame a); discriminate
      |destruct (sequencerStep starts a); discriminate].
    unfold loopStep in Hstep.
    destruct (loops (sysMod a) =? 0)%nat; [discriminate|].
    destruct (sysChan a) as [|item rest] eqn:Hchan.
    { destruct (sysChanClosed a); discriminate. }
    destruct (Running (sysMod a)) eqn:Hrunning; cbn [negb] in Hstep;
      [|discriminate].
    destruct item as [p|]; [discriminate|].
    specialize (Hflag ltac:(apply elem_of_cons; left; reflexivity)).
    discriminate.
  - intros a a' Hin.
    destruct (Hall _ Hin) as [_ [actor Hstep]]. cbn [fst snd] in Hstep.
    destruct actor; unfold sysStep in Hstep;
      [destruct (stopStep a) as [[]|]; discriminate
      |
      |destruct (sourceStep frame a); discriminate
      |destruct (sequencerStep starts a); discriminate].
    unfold loopStep in Hstep.
    destruct (loops (sysMod a) =? 0)%nat; [discriminate|].
    destruct (sysChan a) as [|item rest].
    + destruct (sysChanClosed a); [split; reflexivity|discriminate].
    + destruct (negb (Running (sysMod a))); [discriminate|].
      destruct item; discriminate.
Qed.

(** The witness: the sample schedule, in which the loop processes a data
    frame, [Stop] queues the sentinel, and the loop takes it and ends. *)
Lemma sentinel_ends_the_capture_loop_witness :
  ∃ tr s,
    sysPc sample.stop0 = PcSetRunning
    ∧ (None ∉ sysChan sample.stop0)
    ∧ @run sample.decoder sample.discovery sample.stopSchedule sample.stop0
      = Some (tr, s)
    ∧ eventsOf tr
      = [BySource (Some sample.dataFrame);
         ByLoop (LpProcessed sample.dataFrame);
         ByStop StFlagCleared; ByStop StWritesDrained; ByStop StSentinel;
         ByLoop (LpBreak None);
         ByStop StReadsDrained; ByStop (StClosed 10%nat)]
    ∧ (ByLoop LpSkippedNil ∉ eventsOf tr).
Proof.
  eexists _, _.
  assert (Hnil : None ∉ sysChan sample.stop0) by (intros Hin; inversion Hin).
  split; [reflexivity|]. split; [exact Hnil|].
  split; [vm_compute; reflexivity|]. split; [vm_compute; reflexivity|].
  refine (proj1 (proj2 (@sentinel_ends_the_capture_loop sample.decoder
            sample.discovery sample.stop0 _ sample.stopSchedule _
            eq_refl Hnil _))).
  vm_compute. reflexivity.
Defined.

(** C2 at the failing input: [wifi.recon on], [wifi.recon off],
    [wifi.recon on], [wifi.recon off].  The first [Stop] takes its steps
    in the order of the claim and closes the handle.  The loop it ended
    has set [pktSourceChanClosed], and no [Start] ever resets it, although
    the worker of every [Start] takes a new channel: once the flag is set
    no [Stop] queues the sentinel again.  So on the restarted module (the
    interface had to be brought up, and the new handle is 11), with its
    capture loop running on an open channel, the second [Stop] clears the
    flag, passes the write barrier, skips the sentinel and then waits at
    the read barrier, while the loop waits for an item: neither moves
    until the source delivers something, and the new handle is not
    closed. *)
Theorem Stop_after_restart_sends_no_sentinel :
  (∀ (L : Lib) (E : Env) (m : WiFiModule),
     pktSourceChanClosed (@Start L E m).1.2 = pktSourceChanClosed m)
  ∧ (∀ (D : Decoder) (V : Discovery) sched s0 tr s,
       pktSourceChanClosed (sysMod s0) = true ->
       @run D V sched s0 = Some (tr, s) ->
       ByStop StSentinel ∉ eventsOf tr)
  ∧ ∃ tr1 s1 s2 tr3 s3,
      @run sample.decoder sample.discovery sample.stopSchedule sample.stop0
      = Some (tr1, s1)
      ∧ eventsOf tr1
        = [BySource (Some sample.dataFrame);
           ByLoop (LpProcessed sample.dataFrame);
           ByStop StFlagCleared; ByStop StWritesDrained; ByStop StSentinel;
           ByLoop (LpBreak None);
           ByStop StReadsDrained; ByStop (StClosed 10%nat)]
      ∧ sysPc s1 = PcReturned
      ∧ sysClosed s1 = [10%nat]
      ∧ @sysStart sample.lib sample.downEnv s1 = (None, s2)
      ∧ Running (sysMod s2) = true
      ∧ loops (sysMod s2) = 1%nat
      ∧ reads (sysMod s2) = 1%nat
      ∧ handle (sysMod s2) = Some 11%nat
      ∧ pktSourceChan (sysMod s2) = Some 11%nat
      ∧ sysChanClosed s2 = false
      ∧ pktSourceChanClosed (sysMod s2) = true
      ∧ @run sample.decoder sample.discovery [AStop; AStop; AStop] s2
        = Some (tr3, s3)
      ∧ eventsOf tr3
        = [ByStop StFlagCleared; ByStop StWritesDrained; ByStop StNoSentinel]
      ∧ sysPc s3 = PcWaitReads
      ∧ sysChan s3 = []
      ∧ sysChanClosed s3 = false
      ∧ loops (sysMod s3) = 1%nat
      ∧ sysClosed s3 = [10%nat]
      ∧ @sysStep sample.decoder sample.discovery AStop s3 = None
      ∧ @sysStep sample.decoder sample.discovery ALoop s3 = None.
Proof.
  split; [|split].
  - intros L E m. rewrite (@Start_unfold L E).
    pose proof (@Configure_sameRunState L E m)
      as (_ & _ & _ & _ & _ & _ & _ & Hflag & _).
    destruct ((@Configure L E m).1.1); cbn [fst snd]; [exact Hflag|].
    unfold workerBegin.
    destruct ((channel _ =? 0) && bool_decide (source _ = EmptyString));
      cbn; exact Hflag.
  - intros D V sched s0 tr s Hflag Hrun.
    exact (@run_closed_flag D V sched s0 tr s Hrun Hflag).
  - eexists _, _, _, _, _.
    split; [vm_compute; reflexivity|].
    split; [vm_compute; reflexivity|].
    split; [reflexivity|]. split; [reflexivity|].
    split; [vm_compute; reflexivity|].
    repeat (split; [vm_compute; reflexivity|]).
    vm_compute. reflexivity.
Qed.

(** A second defect on the same path: [Stop] closes whatever [mod.handle]
    holds when it gets there.  A [wifi.recon on] that fails in
    [OpenOffline] while the module is running has stored a nil handle, so
    the next [Stop], after the loop has ended, calls [Close] on nil: it
    panics, and the handle of the capture is never closed. *)
Lemma Stop_after_failed_Start_closes_a_nil_handle :
  ∃ s1 tr s2,
    @sysStart sample.lib sample.missingFileEnv sample.stop0
    = (Some "error while opening file missing.pcap: No such file or directory",
       s1)
    ∧ handle (sysMod sample.stop0) = Some 10%nat
    ∧ handle (sysMod s1) = None
    ∧ Running (sysMod s1) = true
    ∧ loops (sysMod s1) = 1%nat
    ∧ @run sample.decoder sample.discovery
        [AStop; AStop; AStop; ALoop; AStop; AStop] s1
      = Some (tr, s2)
    ∧ eventsOf tr
      = [ByStop StFlagCleared; ByStop StWritesDrained; ByStop StSentinel;
         ByLoop (LpBreak None); ByStop StReadsDrained; ByStop StPanic]
    ∧ sysPc s2 = PcPanicked
    ∧ sysClosed s2 = [].
Proof.
  eexists _, _, _.
  split; [vm_compute; reflexivity|].
  repeat (split; [vm_compute; reflexivity|]).
  vm_compute. reflexivity.
Qed.

(** On a module that is not running, [wifi.recon.channel] sets the
    channels and returns without touching [hopChanges]. *)
Lemma reconChannelHandler_idle_returns_witness :
  Running NewWiFiModule = false
  ∧ (@reconChannelHandler sample.lib sample.liveEnv "1,6" NewWiFiModule).1
    ≠ Blocked.
Proof.
  split; [reflexivity|].
  apply (@reconChannelHandler_idle_returns sample.lib sample.liveEnv "1,6"
           NewWiFiModule eq_refl).
Defined.

(** ** Further properties of the capture loop *)

Section Info.

Context `{Decoder}.

Lemma updateInfo_lookup dot11 packet s k :
  WiFi (updateInfo dot11 packet s) !! k
  = annotateStation dot11 packet k <$> WiFi s !! k.
Proof.
  unfold updateInfo, annotateStation, network_registry.Get.
  generalize (net.String_ (Address3 dot11)) as key3. intros key3.
  destruct (Dot11ParseEncryption packet dot11) as [[[enc cipher] auth]|];
    destruct (Dot11ParseWPS packet dot11) as [[bssid info]|];
    try generalize (net.String_ bssid) as keyW; try intros keyW.
  - destruct (WiFi s !! key3) as [s3|] eqn:H3; cbn [WiFi withWiFi];
      destruct (decide (keyW = key3)) as [Hw|Hw]; subst;
      rewrite ?lookup_insert_eq, ?H3; cbn [WiFi withWiFi];
      rewrite ?lookup_insert_ne by done;
      try (destruct (WiFi s !! keyW) as [sw|] eqn:HW; cbn [WiFi withWiFi]);
      repeat case_bool_decide; subst; simplify_map_eq; try done.
    all: try (destruct (WiFi s !! k); done).
  - destruct (WiFi s !! key3) as [s3|] eqn:H3; cbn [WiFi withWiFi];
      repeat case_bool_decide; subst; simplify_map_eq; try done.
    all: try (destruct (WiFi s !! k); done).
  - destruct (WiFi s !! keyW) as [sw|] eqn:HW; cbn [WiFi withWiFi];
      repeat case_bool_decide; subst; simplify_map_eq; try done.
    all: try (destruct (WiFi s !! k); done).
  - destruct (WiFi s !! k); done.
Qed.

Lemma updateInfo_rest dot11 packet s :
  Queue (updateInfo dot11 packet s) = Queue s
  ∧ Handshakes (updateInfo dot11 packet s) = Handshakes s.
Proof.
  unfold updateInfo, network_registry.Get.
  destruct (Dot11ParseEncryption packet dot11) as [[[enc cipher] auth]|];
    destruct (Dot11ParseWPS packet dot11) as [[bssid info]|];
    repeat match goal with
      | |- context [WiFi ?s !! ?key] =>
          destruct (WiFi s !! key); cbn [WiFi withWiFi Queue Handshakes]
      end; done.
Qed.

End Info.

(** [updateInfo] only annotates records that exist: it creates and removes
    none, never touches the byte counters or the channel, stores the
    encryption facts in the record of the frame's BSSID (Address3) alone,
    and merges the WPS attributes into the record of the WPS station
    alone, a new attribute value replacing the old one of the same name. *)
Theorem updateInfo_annotates_known_stations `{Decoder}
    (dot11 : Dot11) (packet : Packet) (s : Session) :
  let s' := updateInfo dot11 packet s in
  dom (WiFi s') = dom (WiFi s)
  ∧ (∀ k st, WiFi s !! k = Some st ->
       ∃ st', WiFi s' !! k = Some st'
         ∧ Received st' = Received st
         ∧ Sent st' = Sent st
         ∧ Channel st' = Channel st
         ∧ (Encryption st', Cipher st', Authentication st')
           = match Dot11ParseEncryption packet dot11 with
             | Some facts =>
                 if bool_decide (k = net.String_ (Address3 dot11)) then facts
                 else (Encryption st, Cipher st, Authentication st)
             | None => (Encryption st, Cipher st, Authentication st)
             end
         ∧ (∀ name,
              WPS st' !! name
              = match Dot11ParseWPS packet dot11 with
                | Some (bssid, info) =>
                    if bool_decide (k = net.String_ bssid)
                    then match info !! name with
                         | Some v => Some v
                         | None => WPS st !! name
                         end
                    else WPS st !! name
                | None => WPS st !! name
                end))
  ∧ Queue s' = Queue s
  ∧ Handshakes s' = Handshakes s.
Proof.
  intros s'.
  assert (Hlk : ∀ k, WiFi s' !! k
                     = annotateStation dot11 packet k <$> WiFi s !! k)
    by (intros k; apply updateInfo_lookup).
  split; [|split; [|apply updateInfo_rest]].
  - apply set_eq. intros k. rewrite !elem_of_dom, Hlk, fmap_is_Some. done.
  - intros k st Hk. rewrite Hlk, Hk. eexists. split; [reflexivity|].
    unfold annotateStation.
    destruct (Dot11ParseEncryption packet dot11) as [[[enc cipher] auth]|];
      destruct (Dot11ParseWPS packet dot11) as [[bssid info]|];
      repeat case_bool_decide; destruct st; cbn; repeat split; try done.
    all: intros name; destruct (info !! name) as [v|] eqn:Hname.
    all: first [ apply lookup_union_Some_l; exact Hname
               | rewrite lookup_union_r by exact Hname; reflexivity ].
Qed.

Lemma uint64_add_idemp a b : uint64 (uint64 a + b) = uint64 (a + b).
Proof. unfold uint64. apply Zplus_mod_idemp_l. Qed.

Lemma uint64_add_idemp_r a b : uint64 (a + uint64 b) = uint64 (a + b).
Proof. unfold uint64. apply Zplus_mod_idemp_r. Qed.

Lemma onPacket_rejected `{Decoder} `{Discovery} m packet s :
  rejected m packet ->
  onPacket m packet s = TrackPacket (uint64 (len (Data packet))) s.
Proof.
  unfold rejected, onPacket.
  destruct (Dot11Parse packet) as [[radiotap dot11]|]; [|reflexivity].
  intros [-> ->]. reflexivity.
Qed.

(** Packets that do not parse, or that fail the checksum while integrity
    checking is on, are counted and nothing else: however many of them the
    loop takes, the registry and the handshake artifact stay as they are
    and the traffic counter advances by their total length, modulo
    2^64. *)
Theorem rejected_frames_only_count `{Decoder} `{Discovery}
    (m : WiFiModule) (rx : list (bool * option Packet)) (s : Session) :
  Forall (fun it => ∀ p, it.2 = Some p -> rejected m p) rx ->
  0 ≤ Queue s < 2 ^ 64 ->
  WiFi (captureLoop m rx s).2 = WiFi s
  ∧ Handshakes (captureLoop m rx s).2 = Handshakes s
  ∧ Queue (captureLoop m rx s).2
    = uint64 (Queue s + totalBytes (whileRunning rx)).
Proof.
  intros Hrej. revert s.
  induction Hrej as [|[running packet] rest Hit Hrest IH]; intros s Hq.
  - cbn. rewrite Z.add_0_r, uint64_small by exact Hq. repeat split.
  - cbn [captureLoop whileRunning]. destruct running; cbn [negb].
    + destruct packet as [p|].
      * rewrite (onPacket_rejected m p s) by (apply Hit; reflexivity).
        destruct (IH (TrackPacket (uint64 (len (Data p))) s)) as (Hw & Hh & Hc).
        { cbn. unfold uint64. apply Z.mod_pos_bound. lia. }
        rewrite Hw, Hh, Hc. split; [reflexivity|]. split; [reflexivity|].
        change (Queue (TrackPacket (uint64 (len (Data p))) s))
          with (uint64 (Queue s + uint64 (len (Data p)))).
        change (totalBytes (Some p :: whileRunning rest))
          with (len (Data p) + totalBytes (whileRunning rest)).
        rewrite uint64_add_idemp.
        replace (Queue s + uint64 (len (Data p)) + totalBytes (whileRunning rest))
          with (Queue s + totalBytes (whileRunning rest) + uint64 (len (Data p)))
          by lia.
        rewrite uint64_add_idemp_r. f_equal. lia.
      * apply IH. exact Hq.
    + cbn. rewrite Z.add_0_r, uint64_small by exact Hq. repeat split.
Qed.

(** Two broken frames of 100 bytes around a nil item. *)
Lemma rejected_frames_only_count_witness :
  Forall (fun it => ∀ p, it.2 = Some p -> @rejected sample.decoder NewWiFiModule p)
    [(true, Some sample.brokenFrame); (true, None);
     (true, Some sample.brokenFrame)]
  ∧ 0 ≤ Queue sample.sess < 2 ^ 64
  ∧ WiFi (@captureLoop sample.decoder sample.discovery NewWiFiModule
            [(true, Some sample.brokenFrame); (true, None);
             (true, Some sample.brokenFrame)] sample.sess).2
    = WiFi sample.sess
  ∧ Queue (@captureLoop sample.decoder sample.discovery NewWiFiModule
             [(true, Some sample.brokenFrame); (true, None);
              (true, Some sample.brokenFrame)] sample.sess).2
    = 200.
Proof.
  assert (Hrej : Forall (fun it => ∀ p, it.2 = Some p
                           -> @rejected sample.decoder NewWiFiModule p)
            [(true, Some sample.brokenFrame); (true, None);
             (true, Some sample.brokenFrame)]).
  { repeat constructor; intros p Hp; cbn in Hp; try discriminate;
      injection Hp as <-; split; reflexivity. }
  assert (Hq : 0 ≤ Queue sample.sess < 2 ^ 64) by (cbn; lia).
  destruct (@rejected_frames_only_count sample.decoder sample.discovery
              NewWiFiModule _ sample.sess Hrej Hq) as (Hw & _ & Hc).
  split; [exact Hrej|]. split; [exact Hq|]. split; [exact Hw|].
  rewrite Hc. reflexivity.
Defined.

(** ** Further properties of the recon handlers *)

Section ChannelTokens.

Context `{Lib} `{Env}.

Lemma parseChannels_inr parts acc freqs :
  parseChannels parts acc = inr freqs ->
  ∃ chans,
    Forall2 (fun token ch => Atoi token = inr ch ∧ Dot11Chan2Freq ch ≠ 0)
      parts chans
    ∧ freqs = acc ++ (Dot11Chan2Freq <$> chans).
Proof.
  revert acc. induction parts as [|token rest IH]; intros acc.
  - cbn. intros [= <-]. exists []. split; [constructor|].
    rewrite app_nil_r. reflexivity.
  - cbn [parseChannels]. destruct (Atoi token) as [err|ch] eqn:Htoken;
      [discriminate|].
    destruct (Dot11Chan2Freq ch =? 0) eqn:Hf; [discriminate|].
    apply Z.eqb_neq in Hf. intros Hrest.
    destruct (IH _ Hrest) as (chans & Hall & ->).
    exists (ch :: chans). split; [constructor; [split; assumption|exact Hall]|].
    rewrite <- app_assoc. reflexivity.
Qed.

Lemma parseChannels_stops_at token rest good acc :
  Forall (fun t => is_Some (channelFrequency t)) good ->
  channelFrequency token = None ->
  parseChannels (good ++ token :: rest) acc
  = inl (match Atoi token with
         | inl err => err
         | inr ch => pretty ch +:+ " is not a valid wifi channel."
         end).
Proof.
  intros Hgood Hbad. revert acc.
  induction Hgood as [|t good [f Ht] Hgood IH]; intros acc.
  - cbn [app parseChannels]. unfold channelFrequency in Hbad.
    destruct (Atoi token) as [err|ch]; [reflexivity|].
    destruct (Dot11Chan2Freq ch =? 0); [reflexivity|discriminate].
  - cbn [app parseChannels]. unfold channelFrequency in Ht.
    destruct (Atoi t) as [err|ch]; [discriminate|].
    destruct (Dot11Chan2Freq ch =? 0); [discriminate|]. apply IH.
Qed.

End ChannelTokens.

(** A [wifi.recon.channel] command that is not in error and names at
    least one channel installs exactly one frequency per token, in the
    order given and with repetitions kept; every token is a number and
    none of the frequencies is 0. *)
Theorem accepted_channel_command_installs_every_token `{Lib} `{Env}
    (arg : string) (m : WiFiModule) :
  arg ≠ "clear" ->
  Comma arg ≠ [] ->
  (∀ err, (reconChannelHandler arg m).1 ≠ Returned (Some err)) ->
  ∃ chans,
    Forall2 (fun token ch => Atoi token = inr ch) (Comma arg) chans
    ∧ frequencies (reconChannelHandler arg m).2 = Dot11Chan2Freq <$> chans
    ∧ Forall (fun f => f ≠ 0) (frequencies (reconChannelHandler arg m).2).
Proof.
  intros Hclear Hne Hok. unfold reconChannelHandler in *.
  rewrite (bool_decide_eq_true_2 (arg ≠ "clear")) in * by done.
  destruct (parseChannels (Comma arg) []) as [err|freqs] eqn:Hparse.
  { exfalso. apply (Hok err). reflexivity. }
  destruct (parseChannels_inr _ _ _ Hparse) as (chans & Hall & ->).
  cbn [app] in *.
  assert (Hlen : (len (Dot11Chan2Freq <$> chans) =? 0) = false).
  { destruct (len (Dot11Chan2Freq <$> chans) =? 0) eqn:Hz; [|reflexivity].
    apply len_zero_iff in Hz. apply fmap_nil_inv in Hz. subst chans.
    apply Forall2_nil_inv_r in Hall. contradiction. }
  rewrite Hlen in *.
  exists chans.
  assert (Hfreq : frequencies
            (if Running (set_frequencies (Dot11Chan2Freq <$> chans) m)
             then (sendHopChanges (set_frequencies (Dot11Chan2Freq <$> chans) m)
                     (Returned None),
                   set_frequencies (Dot11Chan2Freq <$> chans) m)
             else (Returned None, set_frequencies (Dot11Chan2Freq <$> chans) m)).2
          = Dot11Chan2Freq <$> chans)
    by (destruct (Running _); reflexivity).
  split; [|split].
  - eapply Forall2_impl; [exact Hall|]. intros token ch [Ht _]. exact Ht.
  - exact Hfreq.
  - rewrite Hfreq. apply Forall_fmap.
    clear -Hall. induction Hall as [|token ch ? ? [_ Hf] _ IH]; constructor; assumption.
Qed.

Lemma accepted_channel_command_installs_every_token_witness :
  "6, 1,6" ≠ "clear"
  ∧ @Comma sample.lib "6, 1,6" ≠ []
  ∧ frequencies (@reconChannelHandler sample.lib sample.liveEnv "6, 1,6"
                   NewWiFiModule).2 = [2437; 2412; 2437].
Proof.
  split; [discriminate|]. split; [discriminate|].
  destruct (@accepted_channel_command_installs_every_token sample.lib
              sample.liveEnv "6, 1,6" NewWiFiModule)
    as (chans & Htokens & Hfreq & _);
    [discriminate|discriminate|intros err; discriminate|].
  rewrite Hfreq. clear Hfreq.
  repeat match goal with
         | H : Forall2 _ _ _ |- _ => inversion H; clear H; subst
         end.
  repeat match goal with
         | H : Atoi _ = inr _ |- _ => injection H as <-
         end.
  reflexivity.
Defined.

(** The error of a [wifi.recon.channel] command is that of its first
    token that is not a valid channel, whatever follows it, and the module
    is left as it was. *)
Theorem first_invalid_token_decides_the_error `{Lib} `{Env}
    (arg token : string) (good rest : list string) (m : WiFiModule) :
  arg ≠ "clear" ->
  Comma arg = good ++ token :: rest ->
  Forall (fun t => is_Some (channelFrequency t)) good ->
  channelFrequency token = None ->
  reconChannelHandler arg m
  = (Returned (Some (match Atoi token with
                     | inl err => err
                     | inr ch => pretty ch +:+ " is not a valid wifi channel."
                     end)), m).
Proof.
  intros Hclear Hsplit Hgood Hbad. unfold reconChannelHandler.
  rewrite (bool_decide_eq_true_2 (arg ≠ "clear")) by done.
  rewrite Hsplit, (parseChannels_stops_at token rest good []) by assumption.
  reflexivity.
Qed.

Lemma first_invalid_token_decides_the_error_witness :
  "1,200,x" ≠ "clear"
  ∧ @Comma sample.lib "1,200,x" = ["1"] ++ "200" :: ["x"]
  ∧ Forall (fun t => is_Some (@channelFrequency sample.lib t)) ["1"]
  ∧ @channelFrequency sample.lib "200" = None
  ∧ @reconChannelHandler sample.lib sample.liveEnv "1,200,x" NewWiFiModule
    = (Returned (Some "200 is not a valid wifi channel."), NewWiFiModule).
Proof.
  assert (Hgood : Forall (fun t => is_Some (@channelFrequency sample.lib t)) ["1"])
    by (repeat constructor; eexists; reflexivity).
  split; [discriminate|]. split; [reflexivity|]. split; [exact Hgood|].
  split; [reflexivity|].
  apply (@first_invalid_token_decides_the_error sample.lib sample.liveEnv
           "1,200,x" "200" ["1"] ["x"] NewWiFiModule);
    [discriminate|reflexivity|exact Hgood|reflexivity].
Defined.

(** On a module that is running without a channel hopper, as it is when
    it reads a replay file, [wifi.recon.channel] never returns success:
    a command in error returns its error and changes nothing, every other
    command replaces the Channel Set and then blocks on [hopChanges]. *)
Theorem channel_command_blocks_on_running_module_without_hopper `{Lib} `{Env}
    (arg : string) (m : WiFiModule) :
  Running m = true ->
  hoppers m = 0%nat ->
  (reconChannelHandler arg m).1 ≠ Returned None
  ∧ (∀ err, (reconChannelHandler arg m).1 = Returned (Some err) ->
            (reconChannelHandler arg m).2 = m)
  ∧ ((reconChannelHandler arg m).1 = Blocked ->
     ∃ freqs, (reconChannelHandler arg m).2 = set_frequencies freqs m).
Proof.
  intros Hrun Hhop. unfold reconChannelHandler.
  destruct (if bool_decide (arg ≠ "clear") then _ else _) as [err|freqs];
    [repeat split; [discriminate|discriminate]|].
  destruct (if len freqs =? 0 then _ else _) as [err|freqs'];
    [repeat split; [discriminate|discriminate]|].
  replace (Running (set_frequencies freqs' m)) with true
    by (symmetry; exact Hrun).
  unfold sendHopChanges. cbn [hoppers set_frequencies]. rewrite Hhop. cbn.
  repeat split; [discriminate|discriminate|]. intros _. eauto.
Qed.

Lemma channel_command_blocks_on_running_module_without_hopper_witness :
  Running sample.replaying = true
  ∧ hoppers sample.replaying = 0%nat
  ∧ (@reconChannelHandler sample.lib sample.replayEnv "1,6" sample.replaying).1
    ≠ Returned None.
Proof.
  split; [reflexivity|]. split; [reflexivity|].
  apply (@channel_command_blocks_on_running_module_without_hopper sample.lib
           sample.replayEnv "1,6" sample.replaying eq_refl eq_refl).
Defined.

Section Filter.

Context `{Lib}.

Lemma Start_keeps_filter `{Env} m :
  ap (Start m).1.2 = ap m ∧ stickChan (Start m).1.2 = stickChan m.
Proof.
  pose proof (Configure_sameRunState m)
    as (_ & _ & _ & _ & _ & _ & _ & _ & _ & Hap & Hstick & _).
  rewrite Start_unfold. destruct ((Configure m).1.1) as [err|]; cbn [fst snd].
  - split; assumption.
  - unfold workerBegin. destruct (_ && _); cbn; split; assumption.
Qed.

Lemma reconChannelHandler_keeps_filter `{Env} arg m :
  ap (reconChannelHandler arg m).2 = ap m
  ∧ stickChan (reconChannelHandler arg m).2 = stickChan m.
Proof.
  unfold reconChannelHandler.
  destruct (if bool_decide (arg ≠ "clear") then _ else _) as [err|freqs];
    [split; reflexivity|].
  destruct (if len freqs =? 0 then _ else _) as [err|freqs'];
    [split; reflexivity|].
  destruct (Running _); split; reflexivity.
Qed.

Lemma runReconCommand_filterCoherent s m c :
  filterCoherent s m -> filterCoherent s (runReconCommand s m c).
Proof.
  intros Hm. destruct c as [E|E arg|arg|E]; cbn [runReconCommand].
  - unfold filterCoherent in *.
    destruct (@Start_keeps_filter E m) as [-> ->]. exact Hm.
  - unfold filterCoherent in *.
    destruct (@reconChannelHandler_keeps_filter E arg m) as [-> ->]. exact Hm.
  - unfold reconMACHandler, network_registry.Get.
    destruct (ParseMAC arg) as [err|bssid]; [exact Hm|].
    destruct (WiFi s !! net.String_ bssid) as [station|] eqn:Hst; [|exact Hm].
    unfold filterCoherent. cbn. eauto.
  - unfold reconClearHandler.
    destruct (GetSupportedFrequencies InterfaceName) as [freqs err].
    reflexivity.
Qed.

End Filter.

(** The target filter stays coherent with the registry under every
    history of recon commands: whenever an access point is selected,
    [stickChan] is the channel that access point has in the registry the
    commands were run against, and with no access point selected
    [stickChan] is 0.  [wifi.recon on] and [wifi.recon.channel] leave the
    filter alone; [wifi.recon MAC] sets both fields or neither. *)
Theorem recon_commands_keep_filter_coherent `{Lib}
    (s : Session) (cs : list ReconCommand) (m : WiFiModule) :
  filterCoherent s NewWiFiModule
  ∧ (filterCoherent s m -> filterCoherent s (runReconCommands s cs m))
  ∧ filterCoherent s (runReconCommands s cs NewWiFiModule).
Proof.
  assert (Hnew : filterCoherent s NewWiFiModule) by reflexivity.
  assert (Hall : ∀ m', filterCoherent s m' ->
                       filterCoherent s (runReconCommands s cs m')).
  { unfold runReconCommands. induction cs as [|c cs IH]; intros m' Hm'.
    - exact Hm'.
    - cbn [foldl]. apply IH, runReconCommand_filterCoherent, Hm'. }
  split; [exact Hnew|]. split; [apply Hall|apply Hall, Hnew].
Qed.

(** ** Further properties of Configure *)

Section Parts.

Context `{Lib} `{Env}.

Lemma ConfigureBody_parts st :
  ConfigureBody st
  = match configureParams st with
    | (inl err, st1) => (inl err, st1)
    | (inr _, st1) =>
        match configureHandle InterfaceName st1 with
        | (inl err, st2) => (inl err, st2)
        | (inr _, st2) => configureHopping InterfaceName st2
        end
    end.
Proof.
  unfold ConfigureBody, cfgBind.
  destruct (configureParams st) as [[err|[]] st1]; [reflexivity|].
  destruct (configureHandle InterfaceName st1) as [[err|[]] st2]; reflexivity.
Qed.

(** The first part reads parameters only: it makes no call, defers
    nothing, and assigns [source], [shakesFile] and [minRSSI] alone. *)
Lemma configureParams_post st :
  let st1 := (configureParams st).2 in
  source (cfgMod st1) = (StringParam "wifi.source.file").2
  ∧ frequencies (cfgMod st1) = frequencies (cfgMod st)
  ∧ handle (cfgMod st1) = handle (cfgMod st)
  ∧ skipBroken (cfgMod st1) = skipBroken (cfgMod st)
  ∧ hopPeriod (cfgMod st1) = hopPeriod (cfgMod st)
  ∧ cfgLog st1 = cfgLog st
  ∧ cfgDeferred st1 = cfgDeferred st.
Proof.
  assert (Hpost : cfgHoare (fun st' => st' = st) configureParams
            (fun st1 =>
               source (cfgMod st1) = (StringParam "wifi.source.file").2
               ∧ frequencies (cfgMod st1) = frequencies (cfgMod st)
               ∧ handle (cfgMod st1) = handle (cfgMod st)
               ∧ skipBroken (cfgMod st1) = skipBroken (cfgMod st)
               ∧ hopPeriod (cfgMod st1) = hopPeriod (cfgMod st)
               ∧ cfgLog st1 = cfgLog st
               ∧ cfgDeferred st1 = cfgDeferred st)).
  { unfold configureParams.
    destruct (StringParam "wifi.source.file") as [err v]. cbn [snd].
    cfg_steps.
    - intros st' ->. repeat split.
    - intros st' HQ. exact HQ.
    - intros st' HQ. exact HQ.
    - intros st' HQ. exact HQ. }
  exact (Hpost st eq_refl).
Qed.

(** Reading a field whose value the precondition fixes. *)
Lemma cfgHoare_read_known {A B} (P Q : CfgState -> Prop)
    (f : WiFiModule -> A) (v : A) (k : A -> Cfg B) :
  (∀ st, P st -> f (cfgMod st) = v) ->
  cfgHoare P (k v) Q ->
  cfgHoare P (cfgBind (cfgRead f) k) Q.
Proof.
  intros Hv Hk st HP. unfold cfgBind, cfgRead. rewrite (Hv st HP).
  apply Hk, HP.
Qed.

(** With a replay file as source, the last part assigns [skipBroken] and
    [hopPeriod] and does nothing else. *)
Lemma configureHopping_replay st :
  source (cfgMod st) ≠ EmptyString ->
  let st1 := (configureHopping InterfaceName st).2 in
  frequencies (cfgMod st1) = frequencies (cfgMod st)
  ∧ handle (cfgMod st1) = handle (cfgMod st)
  ∧ cfgLog st1 = cfgLog st
  ∧ cfgDeferred st1 = cfgDeferred st.
Proof.
  intros Hsrc.
  assert (Hpost : cfgHoare
            (fun st' => source (cfgMod st') = source (cfgMod st)
                        ∧ frequencies (cfgMod st') = frequencies (cfgMod st)
                        ∧ handle (cfgMod st') = handle (cfgMod st)
                        ∧ cfgLog st' = cfgLog st
                        ∧ cfgDeferred st' = cfgDeferred st)
            (configureHopping InterfaceName)
            (fun st' => source (cfgMod st') = source (cfgMod st)
                        ∧ frequencies (cfgMod st') = frequencies (cfgMod st)
                        ∧ handle (cfgMod st') = handle (cfgMod st)
                        ∧ cfgLog st' = cfgLog st
                        ∧ cfgDeferred st' = cfgDeferred st)).
  { unfold configureHopping.
    destruct (BoolParam "wifi.skip-broken") as [e1 sb].
    destruct (IntParam "wifi.hop.period") as [e2 hp].
    apply cfgHoare_bind; [apply cfgHoare_assign; intros st' HQ; exact HQ|].
    intros _. apply cfgHoare_bind; [apply cfgHoare_check|]. intros _.
    apply cfgHoare_bind; [apply cfgHoare_check|]. intros _.
    apply cfgHoare_bind; [apply cfgHoare_assign; intros st' HQ; exact HQ|].
    intros _.
    apply (cfgHoare_read_known _ _ source (source (cfgMod st)));
      [intros st' HQ; apply HQ|].
    apply cfgHoare_bind; [apply cfgHoare_read|]. intros freqs.
    rewrite (bool_decide_eq_false_2 (source (cfgMod st) = "")) by exact Hsrc.
    apply cfgHoare_ret. }
  destruct (Hpost st ltac:(repeat split)) as (_ & Hrest). exact Hrest.
Qed.

(** With a Channel Set configured, likewise. *)
Lemma configureHopping_configured st :
  frequencies (cfgMod st) ≠ [] ->
  let st1 := (configureHopping InterfaceName st).2 in
  frequencies (cfgMod st1) = frequencies (cfgMod st)
  ∧ handle (cfgMod st1) = handle (cfgMod st)
  ∧ cfgLog st1 = cfgLog st
  ∧ cfgDeferred st1 = cfgDeferred st.
Proof.
  intros Hfreq.
  assert (Hpost : cfgHoare
            (fun st' => frequencies (cfgMod st') = frequencies (cfgMod st)
                        ∧ handle (cfgMod st') = handle (cfgMod st)
                        ∧ cfgLog st' = cfgLog st
                        ∧ cfgDeferred st' = cfgDeferred st)
            (configureHopping InterfaceName)
            (fun st' => frequencies (cfgMod st') = frequencies (cfgMod st)
                        ∧ handle (cfgMod st') = handle (cfgMod st)
                        ∧ cfgLog st' = cfgLog st
                        ∧ cfgDeferred st' = cfgDeferred st)).
  { unfold configureHopping.
    destruct (BoolParam "wifi.skip-broken") as [e1 sb].
    destruct (IntParam "wifi.hop.period") as [e2 hp].
    apply cfgHoare_bind; [apply cfgHoare_assign; intros st' HQ; exact HQ|].
    intros _. apply cfgHoare_bind; [apply cfgHoare_check|]. intros _.
    apply cfgHoare_bind; [apply cfgHoare_check|]. intros _.
    apply cfgHoare_bind; [apply cfgHoare_assign; intros st' HQ; exact HQ|].
    intros _. apply cfgHoare_bind; [apply cfgHoare_read|]. intros src.
    apply (cfgHoare_read_known _ _ frequencies (frequencies (cfgMod st)));
      [intros st' HQ; apply HQ|].
    assert (Hlen : (len (frequencies (cfgMod st)) =? 0) = false).
    { destruct (len (frequencies (cfgMod st)) =? 0) eqn:Hz; [|reflexivity].
      apply len_zero_iff in Hz. contradiction. }
    rewrite Hlen, andb_false_r. apply cfgHoare_ret. }
  exact (Hpost st ltac:(repeat split)).
Qed.

(** On the replay path the second part opens the file and nothing else. *)
Lemma configureHandle_replay st :
  source (cfgMod st) ≠ EmptyString ->
  configureHandle InterfaceName st
  = (match (OpenOffline (source (cfgMod st))).2 with
     | Some err => inl ("error while opening file " +:+ source (cfgMod st)
                          +:+ ": " +:+ err)
     | None => inr tt
     end,
     mkCfgState (set_handle (OpenOffline (source (cfgMod st))).1 (cfgMod st))
       (cfgLog st ++ [EvOpenOffline (source (cfgMod st))]) (cfgDeferred st)).
Proof.
  intros Hsrc. unfold configureHandle, cfgBind, cfgRead.
  rewrite (bool_decide_eq_true_2 (source (cfgMod st) ≠ "")) by exact Hsrc.
  unfold cfgCall, cfgAssign, cfgCheck.
  destruct (OpenOffline (source (cfgMod st))) as [h [err|]]; reflexivity.
Qed.

End Parts.

(** With a replay file configured, [Configure] never touches the network
    interface: the only call it makes is the one that opens the file, it
    makes it at most once, and it leaves the Channel Set alone; when it
    succeeds the file was opened without error and the handle is the one
    that call returned. *)
Theorem replay_source_never_touches_the_interface `{Lib} `{Env}
    (m : WiFiModule) :
  (StringParam "wifi.source.file").2 ≠ EmptyString ->
  let file := (StringParam "wifi.source.file").2 in
  ((Configure m).2 = [] ∨ (Configure m).2 = [EvOpenOffline file])
  ∧ frequencies (Configure m).1.2 = frequencies m
  ∧ ((Configure m).1.1 = None ->
     (Configure m).2 = [EvOpenOffline file]
     ∧ handle (Configure m).1.2 = (OpenOffline file).1
     ∧ (OpenOffline file).2 = None).
Proof.
  intros Hfile file. rewrite Configure_unfold, ConfigureBody_parts.
  pose proof (configureParams_post (mkCfgState m [] []))
    as (Hsrc & Hfreq & _ & _ & _ & Hlog & Hdef).
  destruct (configureParams (mkCfgState m [] [])) as [[err|[]] st1];
    cbn [fst snd cfgMod cfgLog cfgDeferred] in *.
  { unfold runDeferred. rewrite Hlog, Hdef. cbn.
    repeat split; [left; reflexivity|exact Hfreq|discriminate..]. }
  fold file in Hsrc.
  rewrite configureHandle_replay by (rewrite Hsrc; exact Hfile).
  rewrite Hsrc.
  destruct (OpenOffline file) as [h [err|]] eqn:Hopen; cbn [fst snd].
  { unfold runDeferred. cbn [cfgLog cfgMod cfgDeferred]. rewrite Hlog, Hdef.
    cbn. repeat split; [right; reflexivity|exact Hfreq|discriminate..]. }
  pose proof (configureHopping_replay
                (mkCfgState (set_handle h (cfgMod st1))
                   (cfgLog st1 ++ [EvOpenOffline file]) (cfgDeferred st1)))
    as Hhop.
  cbn [cfgMod cfgLog cfgDeferred source frequencies handle set_handle] in Hhop.
  destruct (Hhop ltac:(rewrite Hsrc; exact Hfile)) as (Hf2 & Hh2 & Hl2 & Hd2).
  destruct (configureHopping InterfaceName _) as [r st3].
  cbn [fst snd] in *. unfold runDeferred. cbn [cfgLog cfgMod cfgDeferred].
  rewrite Hl2, Hd2, Hlog, Hdef, Hf2, Hh2. cbn.
  repeat split; [right; reflexivity|exact Hfreq].
Qed.

Lemma replay_source_never_touches_the_interface_witness :
  (@StringParam sample.replayEnv "wifi.source.file").2 ≠ EmptyString
  ∧ (@Configure sample.lib sample.replayEnv NewWiFiModule).2
    = [EvOpenOffline "capture.pcap"]
  ∧ handle (@Configure sample.lib sample.replayEnv NewWiFiModule).1.2
    = Some 7%nat.
Proof.
  assert (Hfile : (@StringParam sample.replayEnv "wifi.source.file").2
                  ≠ EmptyString) by discriminate.
  destruct (@replay_source_never_touches_the_interface sample.lib
              sample.replayEnv NewWiFiModule Hfile) as (_ & _ & Hok).
  destruct (Hok eq_refl) as (Hlog & Hh & _).
  split; [exact Hfile|]. split; [exact Hlog|exact Hh].
Defined.

Section Stable.

Context `{Lib} `{Env}.

(** A property of the state that assigning the handle, making a call
    other than a clean-up, and deferring a clean-up all keep. *)
Variable Q : CfgState -> Prop.
Hypothesis Q_handle :
  ∀ st v, Q st ->
    Q (mkCfgState (set_handle v (cfgMod st)) (cfgLog st) (cfgDeferred st)).
Hypothesis Q_call :
  ∀ st ev, isCleanUp ev = false -> Q st ->
    Q (mkCfgState (cfgMod st) (cfgLog st ++ [ev]) (cfgDeferred st)).
Hypothesis Q_defer :
  ∀ st ih, Q st ->
    Q (mkCfgState (cfgMod st) (cfgLog st) (ih :: cfgDeferred st)).

Ltac stable_side :=
  try (intros ? HQ;
       first [ apply Q_call; [reflexivity|exact HQ]
             | apply Q_defer; exact HQ
             | apply Q_handle; exact HQ ]).

Lemma activateOnce_stable ifName retry :
  cfgHoare Q (activateOnce ifName retry) Q.
Proof. unfold activateOnce. cfg_steps; stable_side. Qed.

Lemma activateLoop_stable fuel ifName retry st r st' :
  activateLoop fuel ifName retry st = Some (r, st') -> Q st -> Q st'.
Proof.
  revert retry st. induction fuel as [|fuel IH]; intros retry st; [discriminate|].
  cbn [activateLoop]. intros Hloop HQ.
  pose proof (activateOnce_stable ifName retry st HQ) as Hone.
  destruct (activateOnce ifName retry st) as [[err|[|]] st1]; cbn in Hone.
  - injection Hloop as <- <-. exact Hone.
  - eapply IH; eassumption.
  - injection Hloop as <- <-. exact Hone.
Qed.

Lemma configureHandle_stable ifName : cfgHoare Q (configureHandle ifName) Q.
Proof.
  unfold configureHandle. apply cfgHoare_bind; [apply cfgHoare_read|intros src].
  destruct (bool_decide (src ≠ "")); [cfg_steps; stable_side|].
  intros st HQ. unfold activateLive.
  destruct (activateLoop 2 ifName 0 st) as [[r st']|] eqn:Hloop; cbn.
  - eapply activateLoop_stable; eassumption.
  - exact HQ.
Qed.

End Stable.

Section Parameters.

Context `{Lib} `{Env}.

(** What the first part has stored when it succeeds. *)
Lemma configureParams_ok st st1 :
  configureParams st = (inr tt, st1) ->
  (StringParam "wifi.source.file").1 = None
  ∧ (StringParam "wifi.handshakes.file").1 = None
  ∧ (IntParam "wifi.rssi.min").1 = None
  ∧ minRSSI (cfgMod st1) = (IntParam "wifi.rssi.min").2
  ∧ shakesFile (cfgMod st1)
    = (if bool_decide ((StringParam "wifi.handshakes.file").2 ≠ EmptyString)
       then (Expand (StringParam "wifi.handshakes.file").2).1
       else EmptyString).
Proof.
  unfold configureParams, cfgBind, cfgAssign, cfgCheck, cfgRet, cfgFail, id.
  destruct (StringParam "wifi.source.file") as [[e1|] v1]; [discriminate|].
  destruct (StringParam "wifi.handshakes.file") as [[e2|] sf]; [discriminate|].
  destruct (IntParam "wifi.rssi.min") as [e3 rssi].
  cbn [fst snd cfgMod cfgLog cfgDeferred].
  destruct (decide (sf = "")) as [->|Hsf].
  - cbn. destruct e3; [discriminate|]. intros [= <-]. repeat split.
  - rewrite !(bool_decide_eq_true_2 (sf ≠ "")) by exact Hsf.
    destruct (Expand sf) as [sf' [e4|]]; [discriminate|].
    cbn [fst snd cfgMod cfgLog cfgDeferred].
    destruct e3; [discriminate|]. intros [= <-]. repeat split.
Qed.

(** What the last part has stored when it succeeds. *)
Lemma configureHopping_ok ifName st st1 :
  configureHopping ifName st = (inr tt, st1) ->
  (BoolParam "wifi.skip-broken").1 = None
  ∧ (IntParam "wifi.hop.period").1 = None
  ∧ skipBroken (cfgMod st1) = (BoolParam "wifi.skip-broken").2
  ∧ hopPeriod (cfgMod st1)
    = int64 (int64 (IntParam "wifi.hop.period").2 * 1000000)
  ∧ (source (cfgMod st) = EmptyString -> frequencies (cfgMod st) = [] ->
     (GetSupportedFrequencies ifName).2 = None
     ∧ SetInterfaceChannel ifName 1 = None
     ∧ frequencies (cfgMod st1) = (GetSupportedFrequencies ifName).1).
Proof.
  unfold configureHopping, cfgBind, cfgAssign, cfgCheck, cfgRet, cfgFail,
    cfgRead, cfgCall, id.
  destruct (BoolParam "wifi.skip-broken") as [[e1|] sb]; [discriminate|].
  destruct (IntParam "wifi.hop.period") as [[e2|] hp]; [discriminate|].
  cbn [fst snd cfgMod cfgLog cfgDeferred source frequencies
       set_skipBroken set_hopPeriod].
  destruct (bool_decide (source (cfgMod st) = "")
            && (len (frequencies (cfgMod st)) =? 0)) eqn:Hcond.
  - destruct (GetSupportedFrequencies ifName) as [fs [e3|]]; [discriminate|].
    cbn [fst snd cfgMod cfgLog cfgDeferred].
    destruct (SetInterfaceChannel ifName 1) as [e4|]; [discriminate|].
    intros [= <-]. repeat split.
  - intros [= <-].
    split; [reflexivity|]. split; [reflexivity|]. split; [reflexivity|].
    split; [reflexivity|].
    intros Hs Hf. rewrite Hs, Hf in Hcond. discriminate.
Qed.

(** The fields stored by the first part survive the rest. *)
Lemma configureHopping_keeps_params ifName (a : Z) (b c : string) :
  cfgHoare (fun st => minRSSI (cfgMod st) = a ∧ shakesFile (cfgMod st) = b
                      ∧ source (cfgMod st) = c)
    (configureHopping ifName)
    (fun st => minRSSI (cfgMod st) = a ∧ shakesFile (cfgMod st) = b
               ∧ source (cfgMod st) = c).
Proof.
  unfold configureHopping. cfg_steps.
  all: intros st HQ; exact HQ.
Qed.

End Parameters.

Lemma int64_small z : - 2 ^ 63 ≤ z < 2 ^ 63 -> int64 z = z.
Proof.
  intros Hz. unfold int64. rewrite Z.mod_small by lia. lia.
Qed.

(** When [Configure] succeeds, no parameter was in error and the module
    holds what was read: the replay file, the signal floor, the expanded
    handshake file, the integrity-check switch, and the hop period
    converted from milliseconds to nanoseconds, exactly so for every
    period up to 9223372036854 ms, beyond which the 64-bit product wraps. *)
Theorem successful_Configure_stores_the_parameters `{Lib} `{Env}
    (m : WiFiModule) :
  (Configure m).1.1 = None ->
  let m' := (Configure m).1.2 in
  let period := (IntParam "wifi.hop.period").2 in
  StringParam "wifi.source.file" = (None, source m')
  ∧ IntParam "wifi.rssi.min" = (None, minRSSI m')
  ∧ BoolParam "wifi.skip-broken" = (None, skipBroken m')
  ∧ (StringParam "wifi.handshakes.file").1 = None
  ∧ (IntParam "wifi.hop.period").1 = None
  ∧ shakesFile m'
    = (if bool_decide ((StringParam "wifi.handshakes.file").2 ≠ EmptyString)
       then (Expand (StringParam "wifi.handshakes.file").2).1
       else EmptyString)
  ∧ hopPeriod m' = int64 (int64 period * 1000000)
  ∧ (- 9223372036854 ≤ period ≤ 9223372036854 ->
     hopPeriod m' = period * 1000000).
Proof.
  intros Hok m' period. subst m'. revert Hok.
  rewrite Configure_unfold, ConfigureBody_parts. cbn [fst snd].
  pose proof (configureParams_post (mkCfgState m [] [])) as (Hsrc & _).
  destruct (configureParams (mkCfgState m [] [])) as [[err|[]] st1] eqn:Hparams;
    [discriminate|].
  destruct (configureParams_ok _ _ Hparams) as (He1 & He2 & He3 & Hrssi & Hshk).
  cbn [snd] in Hsrc.
  pose proof (configureHandle_stable
                (fun st => minRSSI (cfgMod st) = minRSSI (cfgMod st1)
                           ∧ shakesFile (cfgMod st) = shakesFile (cfgMod st1)
                           ∧ source (cfgMod st) = source (cfgMod st1))
                ltac:(intros st v HQ; exact HQ)
                ltac:(intros st ev _ HQ; exact HQ)
                ltac:(intros st ih HQ; exact HQ)
                InterfaceName st1 ltac:(repeat split)) as Hhandle.
  destruct (configureHandle InterfaceName st1) as [[err|[]] st2];
    [discriminate|]. cbn [snd] in Hhandle.
  pose proof (configureHopping_keeps_params InterfaceName _ _ _ st2 Hhandle)
    as (Hk1 & Hk2 & Hk3).
  destruct (configureHopping InterfaceName st2) as [[err|[]] st3] eqn:Hhop;
    [discriminate|]. intros _. cbn [fst snd] in *.
  destruct (configureHopping_ok _ _ _ Hhop) as (He4 & He5 & Hsb & Hhp & _).
  assert (Hperiod : hopPeriod (cfgMod st3) = int64 (int64 period * 1000000))
    by exact Hhp.
  repeat split.
  - rewrite Hk3, Hsrc. destruct (StringParam "wifi.source.file") as [e v].
    cbn in He1 |- *. subst e. reflexivity.
  - rewrite Hk1, Hrssi. destruct (IntParam "wifi.rssi.min") as [e v].
    cbn in He3 |- *. subst e. reflexivity.
  - rewrite Hsb. destruct (BoolParam "wifi.skip-broken") as [e v].
    cbn in He4 |- *. subst e. reflexivity.
  - exact He2.
  - exact He5.
  - rewrite Hk2. exact Hshk.
  - exact Hperiod.
  - intros Hrange. rewrite Hperiod.
    rewrite (int64_small period) by lia. apply int64_small. lia.
Qed.

Lemma successful_Configure_stores_the_parameters_witness :
  (@Configure sample.lib sample.liveEnv NewWiFiModule).1.1 = None
  ∧ hopPeriod (@Configure sample.lib sample.liveEnv NewWiFiModule).1.2
    = 250000000
  ∧ minRSSI (@Configure sample.lib sample.liveEnv NewWiFiModule).1.2 = -200.
Proof.
  destruct (@successful_Configure_stores_the_parameters sample.lib
              sample.liveEnv NewWiFiModule eq_refl)
    as (_ & Hrssi & _ & _ & _ & _ & _ & Hperiod).
  split; [reflexivity|]. split.
  - apply Hperiod. vm_compute. split; discriminate.
  - exact (eq_sym (f_equal snd Hrssi)).
Defined.

(** [Configure] fills the Channel Set only when it is empty: a configured
    set survives [Configure] whatever its outcome, and an empty one is,
    on a successful [Configure] of the live interface, replaced by the
    interface's supported frequencies, the interface having also accepted
    to be tuned to channel 1. *)
Theorem Configure_fills_only_an_empty_channel_set `{Lib} `{Env}
    (m : WiFiModule) :
  (frequencies m ≠ [] -> frequencies (Configure m).1.2 = frequencies m)
  ∧ (frequencies m = [] ->
     (StringParam "wifi.source.file").2 = EmptyString ->
     (Configure m).1.1 = None ->
     GetSupportedFrequencies InterfaceName
     = (frequencies (Configure m).1.2, None)
     ∧ SetInterfaceChannel InterfaceName 1 = None).
Proof.
  rewrite Configure_unfold, ConfigureBody_parts. cbn [fst snd].
  pose proof (configureParams_post (mkCfgState m [] []))
    as (Hsrc & Hfreq & _).
  destruct (configureParams (mkCfgState m [] [])) as [[err|[]] st1];
    cbn [fst snd cfgMod] in *.
  { split; [intros _; exact Hfreq|discriminate]. }
  pose proof (configureHandle_stable
                (fun st => frequencies (cfgMod st) = frequencies m
                           ∧ source (cfgMod st)
                             = (StringParam "wifi.source.file").2)
                ltac:(intros st v HQ; exact HQ)
                ltac:(intros st ev _ HQ; exact HQ)
                ltac:(intros st ih HQ; exact HQ)
                InterfaceName st1 (conj Hfreq Hsrc)) as [Hf2 Hs2].
  destruct (configureHandle InterfaceName st1) as [[err|[]] st2];
    cbn [fst snd] in *.
  { split; [intros _; exact Hf2|discriminate]. }
  split.
  - intros Hne.
    destruct (configureHopping_configured st2 ltac:(rewrite Hf2; exact Hne))
      as (Hf3 & _).
    destruct (configureHopping InterfaceName st2) as [r st3].
    cbn [fst snd] in *. rewrite Hf3. exact Hf2.
  - intros Hempty Hlive.
    destruct (configureHopping InterfaceName st2) as [[err|[]] st3] eqn:Hhop;
      cbn [fst snd]; [discriminate|]. intros _.
    destruct (configureHopping_ok _ _ _ Hhop) as (_ & _ & _ & _ & Hfill).
    destruct (Hfill ltac:(rewrite Hs2; exact Hlive)
                    ltac:(rewrite Hf2; exact Hempty)) as (Hq & Hset & Hfs).
    split; [|exact Hset]. rewrite Hfs.
    destruct (GetSupportedFrequencies InterfaceName) as [fs e].
    cbn in Hq |- *. subst e. reflexivity.
Qed.

Section CleanUp.

Context `{Lib} `{Env}.

Lemma handlesInUse_snoc_rfmon log ih on :
  handlesInUse (log ++ [EvSetRFMon ih on]) = handlesInUse log ++ [ih].
Proof. unfold handlesInUse. rewrite omap_app. reflexivity. Qed.

Lemma handlesInUse_snoc_other log ev :
  match ev with EvSetRFMon _ _ => False | _ => True end ->
  handlesInUse (log ++ [ev]) = handlesInUse log.
Proof.
  intros Hev. unfold handlesInUse. rewrite omap_app.
  destruct ev; try contradiction; cbn; apply app_nil_r.
Qed.

Ltac pending_leaf Hlog Hdef :=
  split; cbn [cfgLog cfgDeferred cfgMod];
  [ rewrite ?Forall_app; repeat split; first [exact Hlog | repeat constructor]
  | repeat first [ rewrite handlesInUse_snoc_rfmon
                 | rewrite handlesInUse_snoc_other by exact I ];
    rewrite ?reverse_snoc, ?Hdef; reflexivity ].

Lemma activateOnce_pending ifName retry :
  cfgHoare cleanUpsPending (activateOnce ifName retry) cleanUpsPending.
Proof.
  intros st [Hlog Hdef].
  unfold activateOnce, cfgBind, cfgCall, cfgDefer, cfgAssign, cfgCheck,
    cfgRet, cfgFail.
  cbv beta iota zeta. cbn [cfgLog cfgMod cfgDeferred fst snd].
  destruct (NewInactiveHandle retry ifName) as [e|ih];
    cbn [cfgLog cfgMod cfgDeferred fst snd]; [pending_leaf Hlog Hdef|].
  destruct (SetRFMon retry ih true);
    cbn [cfgLog cfgMod cfgDeferred fst snd]; [pending_leaf Hlog Hdef|].
  destruct (SetSnapLen retry ih 65536);
    cbn [cfgLog cfgMod cfgDeferred fst snd]; [pending_leaf Hlog Hdef|].
  destruct (SetTimeout retry ih readTimeout);
    cbn [cfgLog cfgMod cfgDeferred fst snd]; [pending_leaf Hlog Hdef|].
  destruct (Activate retry ih) as [h [e|]];
    cbn [cfgLog cfgMod cfgDeferred fst snd]; [|pending_leaf Hlog Hdef].
  destruct ((retry =? 0) && bool_decide (e = ErrIfaceNotUp));
    cbn [cfgLog cfgMod cfgDeferred fst snd]; [|pending_leaf Hlog Hdef].
  destruct (ActivateInterface ifName);
    cbn [cfgLog cfgMod cfgDeferred fst snd]; pending_leaf Hlog Hdef.
Qed.

Lemma activateLive_pending ifName :
  cfgHoare cleanUpsPending (activateLive ifName) cleanUpsPending.
Proof.
  assert (Hloop : ∀ fuel retry st r st',
            activateLoop fuel ifName retry st = Some (r, st') ->
            cleanUpsPending st -> cleanUpsPending st').
  { induction fuel as [|fuel IH]; intros retry st r st'; [discriminate|].
    cbn [activateLoop]. intros Hrun HQ.
    pose proof (activateOnce_pending ifName retry st HQ) as Hone.
    destruct (activateOnce ifName retry st) as [[err|[|]] st1]; cbn in Hone.
    - injection Hrun as <- <-. exact Hone.
    - eapply IH; eassumption.
    - injection Hrun as <- <-. exact Hone. }
  intros st HQ. unfold activateLive.
  destruct (activateLoop 2 ifName 0 st) as [[r st']|] eqn:Hrun; cbn.
  - eapply Hloop; eassumption.
  - exact HQ.
Qed.

Lemma ConfigureBody_pending m :
  cleanUpsPending (ConfigureBody (mkCfgState m [] [])).2.
Proof.
  assert (Hcall : ∀ st ev, isCleanUp ev = false ->
            (match ev with EvSetRFMon _ _ => False | _ => True end) ->
            cleanUpsPending st ->
            cleanUpsPending
              (mkCfgState (cfgMod st) (cfgLog st ++ [ev]) (cfgDeferred st))).
  { intros st ev Hev Hnot [Hlog Hdef]. split; cbn [cfgLog cfgDeferred].
    - rewrite Forall_app. split; [exact Hlog|repeat constructor; exact Hev].
    - rewrite handlesInUse_snoc_other by exact Hnot. exact Hdef. }
  rewrite ConfigureBody_parts.
  pose proof (configureParams_post (mkCfgState m [] []))
    as (_ & _ & _ & _ & _ & Hlog & Hdef).
  destruct (configureParams (mkCfgState m [] [])) as [[err|[]] st1];
    cbn [fst snd cfgLog cfgDeferred] in *.
  { split; [rewrite Hlog; constructor|rewrite Hlog, Hdef; reflexivity]. }
  assert (H1 : cleanUpsPending st1)
    by (split; [rewrite Hlog; constructor|rewrite Hlog, Hdef; reflexivity]).
  assert (H2 : cleanUpsPending (configureHandle InterfaceName st1).2).
  { revert H1. generalize st1. change (cfgHoare cleanUpsPending
      (configureHandle InterfaceName) cleanUpsPending).
    unfold configureHandle.
    apply cfgHoare_bind; [apply cfgHoare_read|intros src].
    destruct (bool_decide (src ≠ "")); [|apply activateLive_pending].
    cfg_steps.
    - intros st HQ. apply Hcall; [reflexivity|exact I|exact HQ].
    - intros st HQ. exact HQ. }
  destruct (configureHandle InterfaceName st1) as [[err|[]] st2];
    cbn [fst snd] in *; [exact H2|].
  revert H2. generalize st2. change (cfgHoare cleanUpsPending
    (configureHopping InterfaceName) cleanUpsPending).
  unfold configureHopping. cfg_steps.
  all: intros st HQ; first [exact HQ | apply Hcall; [reflexivity|exact I|exact HQ]].
Qed.

End CleanUp.

(** Whatever its outcome, [Configure] cleans up every inactive handle it
    has put to use: its calls end with one [CleanUp] per handle, the
    handle of the latest attempt first, and no [CleanUp] comes before any
    other call. *)
Theorem Configure_cleans_up_every_handle `{Lib} `{Env} (m : WiFiModule) :
  ∃ body,
    (Configure m).2 = body ++ (EvCleanUp <$> reverse (handlesInUse body))
    ∧ Forall (fun ev => isCleanUp ev = false) body.
Proof.
  rewrite Configure_unfold. cbn [snd].
  destruct (ConfigureBody_pending m) as [Hlog Hdef].
  exists (cfgLog (ConfigureBody (mkCfgState m [] [])).2).
  split; [|exact Hlog]. unfold runDeferred. cbn [cfgLog].
  rewrite Hdef. reflexivity.
Qed.

(** ** The HID sniffer *)

Section Sniffer.

Context `{hid.Lib} `{hid.Dongle}.

Lemma setSniffMode_step mode m :
  let m' := (hid.setSniffMode mode m).2 in
  hid.inSniffMode m' = false
  ∧ (hid.sniffAddr m', hid.sniffAddrRaw m')
    = default (hid.sniffAddr m, hid.sniffAddrRaw m) (hid.sniffTarget mode)
  ∧ ((hid.setSniffMode mode m).1 = None ↔ is_Some (hid.sniffTarget mode))
  ∧ hid.inPromMode m' = hid.inPromMode m
  ∧ hid.pingPayload m' = hid.pingPayload m
  ∧ hid.lastPing m' = hid.lastPing m
  ∧ hid.pingPeriod m' = hid.pingPeriod m
  ∧ hid.channel m' = hid.channel m.
Proof.
  unfold hid.setSniffMode, hid.sniffTarget.
  destruct (bool_decide (mode = "clear")).
  - cbn. repeat split; eauto.
  - destruct (hid.ConvertAddress mode) as [[err|] raw]; cbn; repeat split;
      eauto; try discriminate. intros [x Hx]. discriminate.
Qed.

Lemma pingScan_finds fuel m log :
  (Z.to_nat (hid.TopChannel + 1 - hid.channel m) ≤ fuel)%nat ->
  ∃ m' log',
    hid.pingScan fuel m log = Some (m', log')
    ∧ hid.channel m ≤ hid.channel m'
    ∧ (hid.channel m ≤ hid.TopChannel + 1 ->
       hid.channel m' ≤ hid.TopChannel + 1)
    ∧ (∀ c, hid.channel m ≤ c < hid.channel m' ->
            ¬ hid.responsive (hid.pingPayload m) c)
    ∧ (hid.channel m' ≤ hid.TopChannel ->
       hid.responsive (hid.pingPayload m) (hid.channel m')
       ∧ hid.lastPing m' = hid.NowAt (hid.channel m'))
    ∧ (hid.TopChannel < hid.channel m' -> hid.lastPing m' = hid.lastPing m)
    ∧ m' = hid.set_lastPing (hid.lastPing m')
             (hid.set_channel (hid.channel m') m).
Proof.
  revert m log. induction fuel as [|fuel IH]; intros m log Hfuel.
  - cbn [hid.pingScan].
    destruct (hid.channel m <=? hid.TopChannel) eqn:Hle;
      [apply Z.leb_le in Hle; lia|]. apply Z.leb_gt in Hle.
    exists m, log. repeat split; try lia; try (destruct m; reflexivity).
  - cbn [hid.pingScan].
    destruct (hid.channel m <=? hid.TopChannel) eqn:Hle.
    2:{ apply Z.leb_gt in Hle. exists m, log.
        repeat split; try lia; try (destruct m; reflexivity). }
    apply Z.leb_le in Hle.
    assert (Hnext : ∀ log1,
              ¬ hid.responsive (hid.pingPayload m) (hid.channel m) ->
              ∃ m' log',
                hid.pingScan fuel (hid.set_channel (hid.channel m + 1) m) log1
                = Some (m', log')
                ∧ hid.channel m ≤ hid.channel m'
                ∧ (hid.channel m ≤ hid.TopChannel + 1 ->
                   hid.channel m' ≤ hid.TopChannel + 1)
                ∧ (∀ c, hid.channel m ≤ c < hid.channel m' ->
                        ¬ hid.responsive (hid.pingPayload m) c)
                ∧ (hid.channel m' ≤ hid.TopChannel ->
                   hid.responsive (hid.pingPayload m) (hid.channel m')
                   ∧ hid.lastPing m' = hid.NowAt (hid.channel m'))
                ∧ (hid.TopChannel < hid.channel m' ->
                   hid.lastPing m' = hid.lastPing m)
                ∧ m' = hid.set_lastPing (hid.lastPing m')
                         (hid.set_channel (hid.channel m') m)).
    { intros log1 Hdead.
      destruct (IH (hid.set_channel (hid.channel m + 1) m) log1)
        as (m' & log' & Hrun & Hlo & Hhi & Hnone & Hhit & Hmiss & Hsame).
      { cbn. lia. }
      cbn [hid.channel hid.set_channel hid.pingPayload hid.lastPing] in *.
      exists m', log'. split; [exact Hrun|]. split; [lia|].
      split; [intros _; apply Hhi; lia|].
      split; [|split; [exact Hhit|split; [exact Hmiss|exact Hsame]]].
      intros c Hc. destruct (decide (c = hid.channel m)) as [-> |Hne];
        [exact Hdead|apply Hnone; lia]. }
    destruct (hid.SetChannel (hid.channel m)) as [e|] eqn:Hset.
    { apply Hnext. intros [Hs _]. congruence. }
    destruct (hid.TransmitOn (hid.channel m) (hid.pingPayload m)) as [e|] eqn:Htx.
    { apply Hnext. intros [_ Ht]. congruence. }
    eexists _, _. split; [reflexivity|].
    cbn [hid.channel hid.set_lastPing hid.lastPing hid.pingPayload].
    repeat split; try lia; try assumption.
    all: try (destruct m; reflexivity).
Qed.

Lemma pingScan_past fuel m log :
  hid.TopChannel < hid.channel m -> hid.pingScan fuel m log = Some (m, log).
Proof.
  intros Hpast. destruct fuel; cbn [hid.pingScan];
    destruct (Z.leb_spec (hid.channel m) hid.TopChannel); (reflexivity || lia).
Qed.

Lemma pingScan_log fuel : ∀ m log m' log',
  hid.pingScan fuel m log = Some (m', log') ->
  ∃ ext, log' = log ++ ext
         ∧ ∀ call, call ∈ ext ->
             (∃ c, call = hid.CallSetChannel c ∧ hid.channel m ≤ c ≤ hid.TopChannel)
             ∨ call = hid.CallTransmit (hid.pingPayload m) 250 1.
Proof.
  induction fuel as [|fuel IH]; intros m log m' log'; cbn [hid.pingScan];
    destruct (Z.leb_spec (hid.channel m) hid.TopChannel) as [Hin|Hout];
    intros Hscan; try discriminate.
  - injection Hscan as <- <-. exists []. rewrite app_nil_r.
    split; [reflexivity|]. intros call Hcall. inversion Hcall.
  - destruct (hid.SetChannel (hid.channel m)).
    + apply IH in Hscan as (ext & -> & Hext).
      exists (hid.CallSetChannel (hid.channel m) :: ext).
      split; [rewrite <- app_assoc; reflexivity|].
      intros call [-> |Hcall]%elem_of_cons.
      * left. exists (hid.channel m). split; [reflexivity|lia].
      * destruct (Hext call Hcall) as [(c & -> & Hc)| ->]; [left|right; reflexivity].
        exists c. split; [reflexivity|]. cbn in Hc. lia.
    + destruct (hid.TransmitOn (hid.channel m) (hid.pingPayload m)).
      * apply IH in Hscan as (ext & -> & Hext).
        exists (hid.CallSetChannel (hid.channel m)
                :: hid.CallTransmit (hid.pingPayload m) 250 1 :: ext).
        split; [rewrite <- !app_assoc; reflexivity|].
        intros call [-> |[-> |Hcall]%elem_of_cons]%elem_of_cons.
        -- left. exists (hid.channel m). split; [reflexivity|lia].
        -- right. reflexivity.
        -- destruct (Hext call Hcall) as [(c & -> & Hc)| ->]; [left|right; reflexivity].
           exists c. split; [reflexivity|]. cbn in Hc. lia.
      * injection Hscan as <- <-.
        exists [hid.CallSetChannel (hid.channel m);
                hid.CallTransmit (hid.pingPayload m) 250 1].
        split; [rewrite <- app_assoc; reflexivity|].
        intros call [-> |[-> |Hcall]%elem_of_cons]%elem_of_cons.
        -- left. exists (hid.channel m). split; [reflexivity|lia].
        -- right. reflexivity.
        -- inversion Hcall.
  - injection Hscan as <- <-. exists []. rewrite app_nil_r.
    split; [reflexivity|]. intros call Hcall. inversion Hcall.
Qed.

(** The scan [doPing] starts at channel 1 always comes to an end. *)
Lemma doPing_scan m log :
  ∃ m' log',
    hid.pingScan (Z.to_nat hid.TopChannel) (hid.set_channel 1 m) log
    = Some (m', log')
    ∧ 1 ≤ hid.channel m'
    ∧ (∀ c, 1 ≤ c < hid.channel m' -> ¬ hid.responsive (hid.pingPayload m) c)
    ∧ (hid.channel m' ≤ hid.TopChannel ->
       hid.responsive (hid.pingPayload m) (hid.channel m')
       ∧ hid.lastPing m' = hid.NowAt (hid.channel m'))
    ∧ (hid.TopChannel < hid.channel m' ->
       hid.lastPing m' = hid.lastPing m
       ∧ hid.channel m' = Z.max 1 (hid.TopChannel + 1))
    ∧ m' = hid.set_lastPing (hid.lastPing m')
             (hid.set_channel (hid.channel m') m).
Proof.
  destruct (Z.le_gt_cases 0 hid.TopChannel) as [Htop|Htop].
  - destruct (pingScan_finds (Z.to_nat hid.TopChannel) (hid.set_channel 1 m) log)
      as (m' & log' & Hscan & Hlo & Hhi & Hnone & Hhit & Hmiss & Hm').
    { cbn. lia. }
    cbn in Hlo, Hhi, Hnone, Hhit, Hmiss, Hm'.
    exists m', log'. split; [exact Hscan|]. split; [exact Hlo|].
    split; [exact Hnone|]. split; [exact Hhit|]. split; [|exact Hm'].
    intros Hpast. split; [exact (Hmiss Hpast)|]. specialize (Hhi ltac:(lia)). lia.
  - exists (hid.set_channel 1 m), log.
    split; [apply pingScan_past; cbn; lia|]. cbn.
    split; [lia|]. split; [intros c Hc; lia|]. split; [intros Hc; lia|].
    split; [intros _; split; [reflexivity|lia]|reflexivity].
Qed.

End Sniffer.

(** After any history of [setSniffMode] calls the sniffed address, in
    both its forms, is the one asked for by the most recent call that was
    not in error, none after [clear]; a call in error leaves the address
    as it was.  Every call, in error or not, takes the module out of
    sniffer mode, and no call touches the channel or the ping state. *)
Theorem last_accepted_sniff_mode_decides_the_address `{hid.Lib}
    (modes : list string) (m : hid.HIDRecon) :
  let m' := hid.runSniffModes modes m in
  (hid.sniffAddr m', hid.sniffAddrRaw m')
  = default (hid.sniffAddr m, hid.sniffAddrRaw m)
      (last (omap hid.sniffTarget modes))
  ∧ (modes ≠ [] -> hid.inSniffMode m' = false)
  ∧ hid.channel m' = hid.channel m
  ∧ hid.lastPing m' = hid.lastPing m
  ∧ hid.pingPeriod m' = hid.pingPeriod m
  ∧ hid.pingPayload m' = hid.pingPayload m
  ∧ (∀ mode m0, (hid.setSniffMode mode m0).1 = None
                ↔ is_Some (hid.sniffTarget mode)).
Proof.
  cbv zeta. split; [|split; [|split; [|split; [|split; [|split]]]]].
  7:{ intros mode m0. apply (setSniffMode_step mode m0). }
  all: induction modes as [|mode modes IH] using rev_ind;
    [first [reflexivity | intros Hne; congruence]|].
  all: unfold hid.runSniffModes in *; rewrite foldl_snoc;
    pose proof (setSniffMode_step mode (foldl (fun m mode =>
                  (hid.setSniffMode mode m).2) m modes))
      as (Hmode & Haddr & _ & _ & Hpay & Hping & Hper & Hch).
  - rewrite Haddr, omap_app.
    assert (Hone : omap hid.sniffTarget [mode]
                   = match hid.sniffTarget mode with
                     | Some t => [t]
                     | None => []
                     end)
      by (cbn; destruct (hid.sniffTarget mode); reflexivity).
    rewrite Hone. destruct (hid.sniffTarget mode) as [t|]; cbn [default].
    + rewrite last_snoc. reflexivity.
    + rewrite app_nil_r. exact IH.
  - intros _. exact Hmode.
  - rewrite Hch. exact IH.
  - rewrite Hping. exact IH.
  - rewrite Hper. exact IH.
  - rewrite Hpay. exact IH.
Qed.

(** [setSniffMode] resets the sniffer-mode flag so that the dongle is told
    again: after any call, in error or not, [doPing] returns and the first
    thing it does is ask the dongle to enter sniffer mode for the raw
    address then current.  The flag is set again exactly when the dongle
    accepts, and then the promiscuous flag is cleared; the address is not
    touched. *)
Theorem doPing_after_setSniffMode_reenters_sniffer_mode `{hid.Lib} `{hid.Dongle}
    (mode : string) (m : hid.HIDRecon) :
  let m1 := (hid.setSniffMode mode m).2 in
  ∃ m2 log,
    hid.doPing m1
    = Some (m2, hid.CallEnterSniffer (hid.sniffAddrRaw m1) :: log)
    ∧ hid.inSniffMode m2
      = bool_decide (hid.EnterSnifferModeFor (hid.sniffAddrRaw m1) = None)
    ∧ (hid.inSniffMode m2 = true -> hid.inPromMode m2 = false)
    ∧ (hid.inSniffMode m2 = false -> hid.inPromMode m2 = hid.inPromMode m)
    ∧ hid.sniffAddrRaw m2 = hid.sniffAddrRaw m1
    ∧ hid.sniffAddr m2 = hid.sniffAddr m1.
Proof.
  cbv zeta.
  destruct (setSniffMode_step mode m) as (Hmode & _ & _ & Hprom & _).
  set (m1 := (hid.setSniffMode mode m).2) in *.
  unfold hid.doPing. rewrite Hmode. cbn [negb].
  set (m1' := match hid.EnterSnifferModeFor (hid.sniffAddrRaw m1) with
              | Some _ => m1
              | None => hid.set_inPromMode false (hid.set_inSniffMode true m1)
              end).
  assert (Hm1' : hid.inSniffMode m1'
                 = bool_decide (hid.EnterSnifferModeFor (hid.sniffAddrRaw m1) = None)
               ∧ (hid.inSniffMode m1' = true -> hid.inPromMode m1' = false)
               ∧ (hid.inSniffMode m1' = false
                  -> hid.inPromMode m1' = hid.inPromMode m)
               ∧ hid.sniffAddrRaw m1' = hid.sniffAddrRaw m1
               ∧ hid.sniffAddr m1' = hid.sniffAddr m1).
  { subst m1'. destruct (hid.EnterSnifferModeFor (hid.sniffAddrRaw m1)); cbn.
    - rewrite Hmode. split; [reflexivity|]. split; [discriminate|].
      split; [intros _; exact Hprom|]. split; reflexivity.
    - split; [reflexivity|]. split; [reflexivity|].
      split; [discriminate|]. split; reflexivity. }
  clearbody m1'. destruct Hm1' as (Hsn & Hpr & Hpr' & Hraw & Haddr).
  destruct (hid.pingPeriod m1' <=? hid.Since (hid.lastPing m1')).
  2:{ exists m1', []. repeat (split; [assumption || reflexivity|]). assumption. }
  destruct (hid.TransmitFirst (hid.pingPayload m1')).
  2:{ exists m1', [hid.CallTransmit (hid.pingPayload m1') 250 1].
      repeat (split; [assumption || reflexivity|]). assumption. }
  destruct (doPing_scan m1' ([hid.CallEnterSniffer (hid.sniffAddrRaw m1)]
                             ++ [hid.CallTransmit (hid.pingPayload m1') 250 1]))
    as (m2 & log' & Hscan & _ & _ & _ & _ & Hm2).
  destruct (pingScan_log _ _ _ _ _ Hscan) as (ext & -> & _).
  exists m2, (hid.CallTransmit (hid.pingPayload m1') 250 1 :: ext).
  split; [exact Hscan|]. rewrite Hm2. cbn.
  repeat (split; [assumption|]). assumption.
Qed.

(** When a ping is due and the one on the current channel fails, [doPing]
    scans the channels upwards from 1 and stops on the first one the
    dongle can be tuned to and on which the ping goes through: that
    channel becomes the module's channel and only then is the ping time
    refreshed.  When no channel answers, the ping time is unchanged and
    the module's channel is left one past the top channel.  The scan only
    tunes to channels between 1 and the top one, and nothing but the
    channel, the ping time and the two mode flags is ever written. *)
Theorem doPing_stops_on_first_responsive_channel `{hid.Lib} `{hid.Dongle}
    (m : hid.HIDRecon) :
  hid.pingPeriod m ≤ hid.Since (hid.lastPing m) ->
  hid.TransmitFirst (hid.pingPayload m) ≠ None ->
  ∃ m' log,
    hid.doPing m = Some (m', log)
    ∧ 1 ≤ hid.channel m'
    ∧ (∀ c, 1 ≤ c < hid.channel m' -> ¬ hid.responsive (hid.pingPayload m) c)
    ∧ (hid.channel m' ≤ hid.TopChannel ->
       hid.responsive (hid.pingPayload m) (hid.channel m')
       ∧ hid.lastPing m' = hid.NowAt (hid.channel m'))
    ∧ (hid.TopChannel < hid.channel m' ->
       hid.lastPing m' = hid.lastPing m
       ∧ hid.channel m' = Z.max 1 (hid.TopChannel + 1))
    ∧ (∀ c, hid.CallSetChannel c ∈ log -> 1 ≤ c ≤ hid.TopChannel)
    ∧ hid.sniffAddr m' = hid.sniffAddr m
    ∧ hid.sniffAddrRaw m' = hid.sniffAddrRaw m
    ∧ hid.pingPayload m' = hid.pingPayload m
    ∧ hid.pingPeriod m' = hid.pingPeriod m.
Proof.
  intros Hdue Hfirst. unfold hid.doPing.
  set (pre := if negb (hid.inSniffMode m) then _ else _).
  assert (Hpre : ∃ m0 log0, pre = (m0, log0)
            ∧ (∀ c, hid.CallSetChannel c ∉ log0)
            ∧ hid.sniffAddr m0 = hid.sniffAddr m
            ∧ hid.sniffAddrRaw m0 = hid.sniffAddrRaw m
            ∧ hid.pingPayload m0 = hid.pingPayload m
            ∧ hid.pingPeriod m0 = hid.pingPeriod m
            ∧ hid.lastPing m0 = hid.lastPing m).
  { subst pre. destruct (hid.inSniffMode m); cbn [negb].
    - exists m, []. split; [reflexivity|]. split; [intros c Hc; inversion Hc|].
      repeat split.
    - eexists _, _. split; [reflexivity|].
      split; [intros c [Hc|Hc]%elem_of_cons; [discriminate|inversion Hc]|].
      destruct (hid.EnterSnifferModeFor (hid.sniffAddrRaw m)); repeat split. }
  destruct Hpre as (m0 & log0 & -> & Hlog0 & Haddr & Hraw & Hpay & Hper & Hlast).
  rewrite Hper, Hlast, Hpay.
  destruct (Z.leb_spec (hid.pingPeriod m) (hid.Since (hid.lastPing m))); [|lia].
  destruct (hid.TransmitFirst (hid.pingPayload m)); [|congruence].
  destruct (doPing_scan m0 (log0 ++ [hid.CallTransmit (hid.pingPayload m) 250 1]))
    as (m' & log' & Hscan & Hlo & Hnone & Hhit & Hmiss & Hm').
  exists m', log'. split; [exact Hscan|].
  rewrite Hpay in Hnone, Hhit. rewrite Hlast in Hmiss.
  split; [exact Hlo|]. split; [exact Hnone|]. split; [exact Hhit|].
  split; [exact Hmiss|].
  split.
  - destruct (pingScan_log _ _ _ _ _ Hscan) as (ext & -> & Hext).
    intros c [[Hc|Hc]%elem_of_app|Hc]%elem_of_app.
    + destruct (Hlog0 c Hc).
    + apply list_elem_of_singleton in Hc. discriminate.
    + destruct (Hext _ Hc) as [(c' & Heq & Hc')|Heq]; [|discriminate].
      injection Heq as ->. cbn in Hc'. exact Hc'.
  - rewrite Hm'. cbn. repeat split; assumption.
Qed.

(** When no ping is due, or the ping on the current channel goes through,
    [doPing] does not scan: the dongle is never retuned, and the module's
    channel and ping time stay as they were.  In particular a ping that is
    acknowledged on the current channel does not refresh the ping time. *)
Theorem doPing_without_scan_keeps_channel_and_ping_time `{hid.Lib} `{hid.Dongle}
    (m : hid.HIDRecon) :
  hid.Since (hid.lastPing m) < hid.pingPeriod m
  ∨ hid.TransmitFirst (hid.pingPayload m) = None ->
  ∃ m' log,
    hid.doPing m = Some (m', log)
    ∧ hid.channel m' = hid.channel m
    ∧ hid.lastPing m' = hid.lastPing m
    ∧ (∀ c, hid.CallSetChannel c ∉ log)
    ∧ (hid.CallTransmit (hid.pingPayload m) 250 1 ∈ log
       ↔ hid.pingPeriod m ≤ hid.Since (hid.lastPing m)).
Proof.
  intros Hquiet. unfold hid.doPing.
  set (pre := if negb (hid.inSniffMode m) then _ else _).
  assert (Hpre : ∃ m0 log0, pre = (m0, log0)
            ∧ (∀ c, hid.CallSetChannel c ∉ log0)
            ∧ (∀ p t r, hid.CallTransmit p t r ∉ log0)
            ∧ hid.channel m0 = hid.channel m
            ∧ hid.pingPayload m0 = hid.pingPayload m
            ∧ hid.pingPeriod m0 = hid.pingPeriod m
            ∧ hid.lastPing m0 = hid.lastPing m).
  { subst pre. destruct (hid.inSniffMode m); cbn [negb].
    - exists m, []. split; [reflexivity|].
      split; [intros c Hc; inversion Hc|].
      split; [intros p t r Hc; inversion Hc|]. repeat split.
    - eexists _, _. split; [reflexivity|].
      split; [intros c [Hc|Hc]%elem_of_cons; [discriminate|inversion Hc]|].
      split; [intros p t r [Hc|Hc]%elem_of_cons; [discriminate|inversion Hc]|].
      destruct (hid.EnterSnifferModeFor (hid.sniffAddrRaw m)); repeat split. }
  destruct Hpre as (m0 & log0 & -> & Hset & Htx & Hch & Hpay & Hper & Hlast).
  rewrite Hper, Hlast, Hpay.
  destruct (Z.leb_spec (hid.pingPeriod m) (hid.Since (hid.lastPing m)))
    as [Hdue|Hearly].
  - destruct Hquiet as [Hquiet| ->]; [lia|].
    exists m0, (log0 ++ [hid.CallTransmit (hid.pingPayload m) 250 1]).
    split; [reflexivity|]. split; [exact Hch|]. split; [exact Hlast|].
    split.
    + intros c [Hc|Hc]%elem_of_app; [exact (Hset c Hc)|].
      apply list_elem_of_singleton in Hc. discriminate.
    + split; [intros _; exact Hdue|]. intros _.
      apply elem_of_app. right. apply list_elem_of_singleton. reflexivity.
  - exists m0, log0. split; [reflexivity|]. split; [exact Hch|].
    split; [exact Hlast|]. split; [exact Hset|].
    split; [intros Hin; destruct (Htx _ _ _ Hin)|lia].
Qed.

(** A sniffed buffer never registers a device: the registry keeps its
    keys, and a payload for an address that is not registered is dropped.
    Only the record of the sniffed address can change, and it does so only
    for a buffer that starts with the byte 0x00: the record is then
    stamped with the current time and given the rest of the buffer,
    without that byte, and the module's channel.  An empty buffer or one
    that starts with another byte changes nothing. *)
Theorem onSniffedBuffer_updates_only_the_sniffed_device `{hid.Lib} `{hid.Dongle}
    (buf : list Z) (m : hid.HIDRecon) (devices : gmap string hid.HIDDevice) :
  let devices' := hid.onSniffedBuffer buf m devices in
  (∀ addr, is_Some (devices' !! addr) ↔ is_Some (devices !! addr))
  ∧ (∀ addr, addr ≠ hid.sniffAddr m -> devices' !! addr = devices !! addr)
  ∧ (head buf ≠ Some 0 -> devices' = devices)
  ∧ (head buf = Some 0 ->
     devices' !! hid.sniffAddr m
     = (λ dev, hid.AddChannel (hid.channel m)
                 (hid.AddPayload (tail buf) (hid.Now, dev.2)))
       <$> devices !! hid.sniffAddr m).
Proof.
  cbv zeta. unfold hid.onSniffedBuffer.
  destruct buf as [|first payload].
  { split; [reflexivity|]. split; [reflexivity|]. split; [reflexivity|].
    discriminate. }
  destruct (Z.eqb_spec first 0) as [-> |Hfirst].
  2:{ split; [reflexivity|]. split; [reflexivity|]. split; [reflexivity|].
      cbn. congruence. }
  destruct (devices !! hid.sniffAddr m) as [dev|] eqn:Hdev.
  2:{ split; [reflexivity|]. split; [reflexivity|]. split; [reflexivity|].
      intros _. exact Hdev. }
  split; [|split; [|split]].
  - intros addr. destruct (decide (addr = hid.sniffAddr m)) as [-> |Hne].
    + rewrite lookup_insert_eq, Hdev. split; intros _; eexists; reflexivity.
    + rewrite lookup_insert_ne by congruence. reflexivity.
  - intros addr Hne. rewrite lookup_insert_ne by congruence. reflexivity.
  - cbn. congruence.
  - intros _. rewrite lookup_insert_eq. reflexivity.
Qed.

(** The witnesses for the sniffer use the sample library and dongle. *)
#[local] Existing Instances sample.hidLib sample.dongle.

(** The witness: on the sample dongle, which cannot be tuned to channel 2
    and acknowledges on channel 3 only. *)
Lemma doPing_stops_on_first_responsive_channel_witness :
  hid.pingPeriod sample.sniffer ≤ hid.Since (hid.lastPing sample.sniffer)
  ∧ hid.TransmitFirst (hid.pingPayload sample.sniffer) ≠ None
  ∧ ∃ m' log,
      @hid.doPing sample.hidLib sample.dongle sample.sniffer = Some (m', log)
      ∧ 1 ≤ hid.channel m'
      ∧ (∀ c, 1 ≤ c < hid.channel m'
              -> ¬ hid.responsive (hid.pingPayload sample.sniffer) c)
      ∧ (hid.channel m' ≤ hid.TopChannel ->
         hid.responsive (hid.pingPayload sample.sniffer) (hid.channel m')
         ∧ hid.lastPing m' = hid.NowAt (hid.channel m'))
      ∧ (hid.TopChannel < hid.channel m' ->
         hid.lastPing m' = hid.lastPing sample.sniffer
         ∧ hid.channel m' = Z.max 1 (hid.TopChannel + 1))
      ∧ (∀ c, hid.CallSetChannel c ∈ log -> 1 ≤ c ≤ hid.TopChannel)
      ∧ hid.sniffAddr m' = hid.sniffAddr sample.sniffer
      ∧ hid.sniffAddrRaw m' = hid.sniffAddrRaw sample.sniffer
      ∧ hid.pingPayload m' = hid.pingPayload sample.sniffer
      ∧ hid.pingPeriod m' = hid.pingPeriod sample.sniffer.
Proof.
  assert (Hdue : hid.pingPeriod sample.sniffer
                 ≤ hid.Since (hid.lastPing sample.sniffer))
    by (vm_compute; discriminate).
  assert (Hfirst : hid.TransmitFirst (hid.pingPayload sample.sniffer) ≠ None)
    by (vm_compute; discriminate).
  split; [exact Hdue|]. split; [exact Hfirst|].
  exact (@doPing_stops_on_first_responsive_channel sample.hidLib sample.dongle
           sample.sniffer Hdue Hfirst).
Defined.

(** The witness: a sniffer that pinged 950 ago, with the clock of the
    sample dongle, is not due. *)
Lemma doPing_without_scan_keeps_channel_and_ping_time_witness :
  let m := hid.set_lastPing 950 sample.sniffer in
  (hid.Since (hid.lastPing m) < hid.pingPeriod m
   ∨ hid.TransmitFirst (hid.pingPayload m) = None)
  ∧ ∃ m' log,
      @hid.doPing sample.hidLib sample.dongle m = Some (m', log)
      ∧ hid.channel m' = hid.channel m
      ∧ hid.lastPing m' = hid.lastPing m
      ∧ (∀ c, hid.CallSetChannel c ∉ log)
      ∧ (hid.CallTransmit (hid.pingPayload m) 250 1 ∈ log
         ↔ hid.pingPeriod m ≤ hid.Since (hid.lastPing m)).
Proof.
  cbv zeta.
  assert (Hquiet :
      hid.Since (hid.lastPing (hid.set_lastPing 950 sample.sniffer))
      < hid.pingPeriod (hid.set_lastPing 950 sample.sniffer)
      ∨ hid.TransmitFirst (hid.pingPayload (hid.set_lastPing 950 sample.sniffer))
        = None)
    by (left; vm_compute; reflexivity).
  split; [exact Hquiet|].
  exact (@doPing_without_scan_keeps_channel_and_ping_time sample.hidLib
           sample.dongle (hid.set_lastPing 950 sample.sniffer) Hquiet).
Defined.
